(** * zigQuant data scripts: candle ingestion and normalisation

    A shallow embedding of the five Python scripts that download, convert and
    repair the Binance candle archives:

    - [scripts/download_all_timeframes.py]  (module [Download])
    - [scripts/convert_1s_streaming.py]     (module [Streaming])
    - [scripts/convert_all_data.py]         (module [Bulk])
    - [data/convert_binance_to_zigquant.py] (module [Legacy])
    - [scripts/fix_1s_timestamps.py]        (module [Fix])

    Python [str] values are modelled as [string]; every character stands for
    the code point of the same number (0..255).  Lists are [list], the
    [seen_timestamps] set is a [gset string], the local file system is a
    [gmap] from paths to contents. *)

From Stdlib Require Import ZArith Ascii DecimalString.
From stdpp Require Import base list strings gmap sorting.

Local Open Scope Z_scope.
Local Open Scope nat_scope.

(** ** Python text primitives *)

Module Py.

(** [str.isspace] on one character: the ASCII table of the interpreter
    (TAB..CR, FS..US, SPACE) and the two Latin-1 blanks NEL and NBSP. *)
Definition is_space (c : ascii) : bool :=
  let n := nat_of_ascii c in
  ((9 <=? n) && (n <=? 13)) || ((28 <=? n) && (n <=? 32))
  || (n =? 133) || (n =? 160).

(** Removing from the left and from the right end of a text the
    characters that [blank] accepts. *)
Section Strip.
Variable blank : ascii -> bool.

Fixpoint lstrip (s : string) : string :=
  match s with
  | String c s' => if blank c then lstrip s' else s
  | EmptyString => EmptyString
  end.

Fixpoint rstrip (s : string) : string :=
  match s with
  | EmptyString => EmptyString
  | String c s' =>
      match rstrip s' with
      | EmptyString => if blank c then EmptyString else String c EmptyString
      | r => String c r
      end
  end.
End Strip.

(** [s.strip()] *)
Definition strip (s : string) : string := rstrip is_space (lstrip is_space s).

(** [s.split(sep)] for a one-character separator: never empty, a field
    for every separator plus one. *)
Fixpoint split (sep : ascii) (s : string) : list string :=
  match s with
  | EmptyString => [EmptyString]
  | String c s' =>
      if Ascii.eqb c sep then EmptyString :: split sep s'
      else match split sep s' with
           | f :: fs => String c f :: fs
           | [] => [String c EmptyString]
           end
  end.

(** [sep.join(fields)] *)
Fixpoint join (sep : ascii) (fields : list string) : string :=
  match fields with
  | [] => EmptyString
  | [f] => f
  | f :: fs => f +:+ String sep (join sep fs)
  end.

(** [s[:n]] for [n >= 0] *)
Fixpoint take_chars (n : nat) (s : string) : string :=
  match n, s with
  | S n', String c s' => String c (take_chars n' s')
  | _, _ => EmptyString
  end.

(** [s[:-n]] for [n > 0]: all but the last [n] characters, empty when the
    text is shorter. *)
Definition drop_last (n : nat) (s : string) : string :=
  take_chars (String.length s - n) s.

(** [s.endswith(suffix)] *)
Fixpoint endswith (s suffix : string) : bool :=
  if String.eqb s suffix then true
  else match s with
       | EmptyString => false
       | String _ s' => endswith s' suffix
       end.

(** The value of a decimal digit: the code points 48 to 57. *)
Definition digit_val (c : ascii) : option Z :=
  let n := nat_of_ascii c in
  if (48 <=? n) && (n <=? 57) then Some (Z.of_nat (n - 48)) else None.

(** The digit part of an [int()] literal in base 10: decimal digits, with
    single underscores allowed between two digits.  [acc] is the value
    read so far, [after_digit] tells whether the previous character was a
    digit. *)
Fixpoint parse_digits (acc : Z) (after_digit : bool) (s : string) : option Z :=
  match s with
  | EmptyString => if after_digit then Some acc else None
  | String c s' =>
      match digit_val c with
      | Some d => parse_digits (10 * acc + d) true s'
      | None =>
          if Ascii.eqb c "_" && after_digit then parse_digits acc false s'
          else None
      end
  end.

(** The blanks that [int()] skips around a literal: the white space of C
    (TAB..CR, SPACE), NEL and NBSP, but not FS..US. *)
Definition is_int_space (c : ascii) : bool :=
  let n := nat_of_ascii c in
  ((9 <=? n) && (n <=? 13)) || (n =? 32) || (n =? 133) || (n =? 160).

(** [int(s)]: surrounding blanks are ignored, one sign is allowed; [None]
    stands for [ValueError].  (The interpreter's limit on the number of
    digits of one literal is not modelled.) *)
Definition int (s : string) : option Z :=
  match rstrip is_int_space (lstrip is_int_space s) with
  | String "+" r => parse_digits 0 false r
  | String "-" r => Z.opp <$> parse_digits 0 false r
  | r => parse_digits 0 false r
  end.

(** [list.sort(key=...)] and [sorted]: the keys are compared with [leb];
    the sort is stable, an element is put in front of the first element of
    the sorted rest whose key is not smaller. *)
Section Sort.
Context {A K : Type} (leb : K -> K -> bool) (key : A -> K).

Fixpoint insert_sorted (x : A) (l : list A) : list A :=
  match l with
  | [] => [x]
  | y :: l' =>
      if leb (key x) (key y) then x :: l else y :: insert_sorted x l'
  end.

Definition sorted_by (l : list A) : list A := foldr insert_sorted [] l.
End Sort.

Definition newline : ascii := "010"%char.
Definition nl : string := String newline EmptyString.

End Py.


(** ** Monthly archives

    What the scripts see of one [.zip] file through [zipfile]: either
    [ZipFile(...)] raises, or the archive lists its members.  A member is
    the sequence of its physical lines, as iterating over the open member
    yields them; a line either decodes as UTF-8 or does not. *)

Module Zip.

Inductive raw_line : Type :=
| Text (s : string)
| Undecodable.

Record member : Type := Member {
  member_name : string;
  member_lines : list raw_line;
}.

Inductive body : Type :=
| Corrupt
| Members (ms : list member).

Record archive : Type := Archive {
  zip_name : string;
  zip_body : body;
}.

(** [zf.namelist()] *)
Definition namelist (ms : list member) : list string := member_name <$> ms.

(** [zf.open(name)]: the name table of [zipfile] keeps the last member
    registered under a name; [None] stands for [KeyError]. *)
Definition open (ms : list member) (name : string) : option member :=
  last (filter (fun m => member_name m = name) ms).

(** [[f for f in zf.namelist() if f.endswith(".csv")]] *)
Definition csv_files (ms : list member) : list string :=
  filter (fun f => Py.endswith f ".csv" = true) (namelist ms).

(** [csv_file.read().decode("utf-8")]: the whole member as one text;
    [None] stands for [UnicodeDecodeError]. *)
Fixpoint read_decode (ls : list raw_line) : option string :=
  match ls with
  | [] => Some EmptyString
  | Text s :: ls' => (fun r => s +:+ r) <$> read_decode ls'
  | Undecodable :: _ => None
  end.

(** [sorted(...glob("*.zip"))]: the archives of one directory in the
    order of their file names. *)
Definition sorted (dir : list archive) : list archive :=
  Py.sorted_by String.leb zip_name dir.

End Zip.

(** ** scripts/convert_1s_streaming.py *)

Module Streaming.
Import Zip.

(** What [main] prints while it converts (the figures that depend on the
    clock are left out). *)
Inductive message : Type :=
| NoCsvFound (i : nat) (zip : string)
| Progress (i : nat) (zip : string) (file_candles total_candles : nat)
| ArchiveError (i : nat) (zip : string).

(** The variables of [main] that the conversion loop reads and writes.
    [outfile] holds the texts handed to [outfile.write], oldest first. *)
Record state : Type := State {
  total_candles : nat;
  last_timestamp : option string;
  duplicates_skipped : nat;
  file_candles : nat;
  file_duplicates : nat;
  outfile : list string;
  stdout : list message;
}.

Definition header : string := "timestamp,open,high,low,close,volume" +:+ Py.nl.

(** [f"{parts[0]},{parts[1]},{parts[2]},{parts[3]},{parts[4]},{parts[5]}\n"] *)
Definition format_candle (parts : list string) : string :=
  (parts !!! 0) +:+ "," +:+ (parts !!! 1) +:+ "," +:+ (parts !!! 2) +:+ ","
  +:+ (parts !!! 3) +:+ "," +:+ (parts !!! 4) +:+ "," +:+ (parts !!! 5)
  +:+ Py.nl.

(** The body of [for line in csv_file], after the line was decoded. *)
Definition process_line (st : state) (decoded : string) : state :=
  let line := Py.strip decoded in
  if String.eqb line "" then st
  else
    let parts := Py.split "," line in
    if 6 <=? length parts then
      let timestamp := parts !!! 0 in
      if decide (Some timestamp = last_timestamp st) then
        State (total_candles st) (last_timestamp st) (duplicates_skipped st)
              (file_candles st) (file_duplicates st + 1)
              (outfile st) (stdout st)
      else
        State (total_candles st) (Some timestamp) (duplicates_skipped st)
              (file_candles st + 1) (file_duplicates st)
              (outfile st ++ [format_candle parts]) (stdout st)
    else st.

(** How a block inside [try] ends: normally, or with an exception; the
    variables keep what was assigned before the exception. *)
Inductive ending : Type :=
| Completed (st : state)
| Raised (st : state).

(** [for line in csv_file: line = line.decode("utf-8").strip() ...] *)
Fixpoint process_lines (st : state) (ls : list raw_line) : ending :=
  match ls with
  | [] => Completed st
  | Text s :: ls' => process_lines (process_line st s) ls'
  | Undecodable :: _ => Raised st
  end.

Definition print (m : message) (st : state) : state :=
  State (total_candles st) (last_timestamp st) (duplicates_skipped st)
        (file_candles st) (file_duplicates st) (outfile st) (stdout st ++ [m]).

Definition start_file (st : state) : state :=
  State (total_candles st) (last_timestamp st) (duplicates_skipped st)
        0 0 (outfile st) (stdout st).

Definition add_file_counts (st : state) : state :=
  State (total_candles st + file_candles st) (last_timestamp st)
        (duplicates_skipped st + file_duplicates st)
        (file_candles st) (file_duplicates st) (outfile st) (stdout st).

(** The body of [for i, zip_path in enumerate(zip_files, 1)]. *)
Definition process_archive (st : state) (i : nat) (a : archive) : state :=
  let st := start_file st in
  match zip_body a with
  | Corrupt => print (ArchiveError i (zip_name a)) st
  | Members ms =>
      match csv_files ms with
      | [] => print (NoCsvFound i (zip_name a)) st
      | first :: _ =>
          match open ms first with
          | None => print (ArchiveError i (zip_name a)) st
          | Some csv_file =>
              match process_lines st (member_lines csv_file) with
              | Raised st' => print (ArchiveError i (zip_name a)) st'
              | Completed st' =>
                  let st' := add_file_counts st' in
                  print (Progress i (zip_name a) (file_candles st')
                                  (total_candles st')) st'
              end
          end
      end
  end.

Fixpoint process_archives (st : state) (i : nat) (zs : list archive) : state :=
  match zs with
  | [] => st
  | a :: zs' => process_archives (process_archive st i a) (S i) zs'
  end.

Definition initial : state :=
  State 0 None 0 0 0 [header] [].

(** What a run of [main] leaves: the exit status, and after a conversion
    the written file and the totals of the final report. *)
Record report : Type := Report {
  status : Z;
  written : list string;
  candles : nat;
  duplicates : nat;
  printed : list message;
}.

(** [main()].  [dir] is [None] when [RAW_DATA_DIR] does not exist, else
    the archives that [glob("*.zip")] finds there. *)
Definition main (dir : option (list archive)) : report :=
  match dir with
  | None => Report 1 [] 0 0 []
  | Some found =>
      let zip_files := sorted found in
      if length zip_files =? 0 then Report 1 [] 0 0 []
      else
        let st := process_archives initial 1 zip_files in
        Report 0 (outfile st) (total_candles st) (duplicates_skipped st)
               (stdout st)
  end.

End Streaming.

(** ** scripts/convert_all_data.py *)

Module Bulk.
Import Zip.

(** A row is the Python list of the six kept fields. *)
Abbreviation row := (list string).

(** The variables of [convert_timeframe] during the collection loop;
    [stderr] lists the archives for which an error was printed. *)
Record collected : Type := Collected {
  all_rows : list row;
  processed_files : nat;
  stderr : list string;
}.

(** The body of [for line in content.strip().split("\n")]. *)
Definition collect_line (rows : list row) (line : string) : list row :=
  if String.eqb line "" then rows
  else
    let parts := Py.split "," line in
    if 6 <=? length parts then
      rows ++ [[parts !!! 0; parts !!! 1; parts !!! 2;
                parts !!! 3; parts !!! 4; parts !!! 5]]
    else rows.

Definition collect_content (rows : list row) (content : string) : list row :=
  foldl collect_line rows (Py.split Py.newline (Py.strip content)).

(** The body of [for zip_path in zip_files]. *)
Definition collect_archive (c : collected) (a : archive) : collected :=
  let failed := Collected (all_rows c) (processed_files c)
                          (stderr c ++ [zip_name a]) in
  match zip_body a with
  | Corrupt => failed
  | Members ms =>
      match csv_files ms with
      | [] => c
      | first :: _ =>
          match open ms first with
          | None => failed
          | Some csv_file =>
              match read_decode (member_lines csv_file) with
              | None => failed
              | Some content =>
                  Collected (collect_content (all_rows c) content)
                            (processed_files c + 1) (stderr c)
              end
          end
      end
  end.

Definition collect (zip_files : list archive) : collected :=
  foldl collect_archive (Collected [] 0 []) zip_files.

(** [lambda x: int(x[0])] *)
Definition sort_key (x : row) : option Z := Py.int (x !!! 0).

(** [all_rows.sort(key=lambda x: int(x[0]))]: the keys of all rows are
    computed first; [None] when one of them raises [ValueError]. *)
Definition sort_rows (rows : list row) : option (list row) :=
  keyed ← mapM (fun x => k ← sort_key x; Some (k, x)) rows;
  Some (snd <$> Py.sorted_by Z.leb fst keyed).

(** The body of [for row in all_rows] of the duplicate removal, on the
    pair of [seen_timestamps] and [unique_rows]. *)
Definition unique_step (acc : gset string * list row) (r : row)
  : gset string * list row :=
  let ts := r !!! 0 in
  if decide (ts ∈ acc.1) then acc else ({[ts]} ∪ acc.1, acc.2 ++ [r]).

Definition unique_rows (sorted_rows : list row) : list row :=
  (foldl unique_step (∅, []) sorted_rows).2.

Definition header_row : row :=
  ["timestamp"; "open"; "high"; "low"; "close"; "volume"].

(** What [convert_timeframe] returns.  [Success] carries the fields
    [files_processed] and [candles] of the returned dict and the rows
    handed to the csv writer (the dict has no other count; its
    [output_file] and [file_size_mb] fields are left out).  [ValueError]
    is the exception that escapes from the sort. *)
Inductive result : Type :=
| Error (message : string)
| Success (files_processed candles : nat) (written : list row)
| ValueError.

(** [convert_timeframe(timeframe)].  [dir] is [None] when the directory
    of the timeframe does not exist, else the archives found in it. *)
Definition convert_timeframe (dir : option (list archive)) : result :=
  match dir with
  | None => Error "Directory not found"
  | Some found =>
      match sorted found with
      | [] => Error "No zip files found"
      | zip_files =>
          let c := collect zip_files in
          match all_rows c with
          | [] => Error "No data extracted"
          | rows =>
              match sort_rows rows with
              | None => ValueError
              | Some sorted_rows =>
                  let unique := unique_rows sorted_rows in
                  Success (processed_files c) (length unique)
                          (header_row :: unique)
              end
          end
      end
  end.

Definition TIMEFRAMES : list string :=
  ["1m"; "3m"; "5m"; "15m"; "30m"; "1h"; "2h"; "4h"; "6h"; "8h"; "12h"; "1d"].

(** The loop [for i, tf in enumerate(TIMEFRAMES, 1)] of [main], for the
    timeframes still to come: [results] as it stands at the end, or as
    it stands when [convert_timeframe] raises.  [dir_of] tells what is
    found under [RAW_DATA_DIR / tf]. *)
Fixpoint convert_all (dir_of : string -> option (list archive))
         (timeframes : list string) (results : list result)
  : list result + list result :=
  match timeframes with
  | [] => inl results
  | tf :: rest =>
      match convert_timeframe (dir_of tf) with
      | ValueError => inr results
      | r => convert_all dir_of rest (results ++ [r])
      end
  end.

(** The body of [for r in results] of the summary, on the pair of
    [total_candles] and [success_count] (the sizes are left out). *)
Definition summary_step (acc : nat * nat) (r : result) : nat * nat :=
  match r with
  | Success _ candles _ => (acc.1 + candles, acc.2 + 1)
  | _ => acc
  end.

(** How [main] ends: with the summary line, or with the exception of a
    conversion, after the conversions in [converted]. *)
Inductive ending : Type :=
| Summary (results : list result) (total_candles success_count : nat)
| Raised (converted : list result).

Definition main (dir_of : string -> option (list archive)) : ending :=
  match convert_all dir_of TIMEFRAMES [] with
  | inl results =>
      let totals := foldl summary_step (0, 0) results in
      Summary results totals.1 totals.2
  | inr converted => Raised converted
  end.

End Bulk.

(** ** data/convert_binance_to_zigquant.py *)

Module Legacy.
Import Zip.

(** What the collection loop prints. *)
Inductive message : Type :=
| Processing (zip : string)
| NoCsvWarning (zip : string)
| Extracted (lines : nat)
| ArchiveError (zip : string).

Record collected : Type := Collected {
  all_lines : list string;
  stdout : list message;
}.

(** The body of [for line in lines]. *)
Definition collect_line (acc : list string) (line : string) : list string :=
  if String.eqb (Py.strip line) "" then acc
  else
    let fields := Py.split "," line in
    if 6 <=? length fields then acc ++ [Py.join "," (take 6 fields)]
    else acc.

Definition collect_archive (c : collected) (a : archive) : collected :=
  let c := Collected (all_lines c) (stdout c ++ [Processing (zip_name a)]) in
  let failed := Collected (all_lines c)
                          (stdout c ++ [ArchiveError (zip_name a)]) in
  match zip_body a with
  | Corrupt => failed
  | Members ms =>
      match csv_files ms with
      | [] => Collected (all_lines c) (stdout c ++ [NoCsvWarning (zip_name a)])
      | csv_file :: _ =>
          match open ms csv_file with
          | None => failed
          | Some f =>
              match read_decode (member_lines f) with
              | None => failed
              | Some content =>
                  let lines := Py.split Py.newline (Py.strip content) in
                  Collected (foldl collect_line (all_lines c) lines)
                            (stdout c ++ [Extracted (length lines)])
              end
          end
      end
  end.

(** [lambda x: int(x.split(',')[0])] *)
Definition sort_key (x : string) : option Z := Py.int (Py.split "," x !!! 0).

Definition sort_lines (ls : list string) : option (list string) :=
  keyed ← mapM (fun x => k ← sort_key x; Some (k, x)) ls;
  Some (snd <$> Py.sorted_by Z.leb fst keyed).

Definition header : string := "timestamp,open,high,low,close,volume" +:+ Py.nl.

(** What [convert_binance_to_zigquant] does: it returns [False] leaving
    the output alone, returns [True] after writing the texts of
    [written], or lets the [ValueError] of the sort escape. *)
Inductive result : Type :=
| ReturnFalse
| ReturnTrue (written : list string)
| ValueError.

Definition convert_binance_to_zigquant (found : list archive) : result :=
  match sorted found with
  | [] => ReturnFalse
  | zip_files =>
      let c := foldl collect_archive (Collected [] []) zip_files in
      match all_lines c with
      | [] => ReturnFalse
      | ls =>
          match sort_lines ls with
          | None => ValueError
          | Some sorted_lines =>
              ReturnTrue (header :: ((fun line => line +:+ Py.nl) <$> sorted_lines))
          end
      end
  end.

(** How the script ends: with [sys.exit(code)], or with the traceback of
    an exception that nothing catches. *)
Inductive exit : Type :=
| Exit (code : Z)
| Traceback.

(** The script run as a program: [argv] is [sys.argv], [glob] tells
    whether a path exists and which archives are found under it.  The
    result is the way it ends and what it wrote: the path and the texts. *)
Definition script (argv : list string)
    (glob : string -> option (list archive))
  : exit * option (string * list string) :=
  match argv with
  | _ :: input_dir :: output_file :: _ =>
      match glob input_dir with
      | None => (Exit 1, None)
      | Some found =>
          match convert_binance_to_zigquant found with
          | ReturnTrue written => (Exit 0, Some (output_file, written))
          | ReturnFalse => (Exit 1, None)
          | ValueError => (Traceback, None)
          end
      end
  | _ => (Exit 1, None)
  end.

End Legacy.

(** ** scripts/fix_1s_timestamps.py *)

Module Fix.

(** Lines 61 to 63 of the script on the timestamp field alone: the text
    that is written for the field [timestamp]. *)
Definition reconcile (timestamp : string) : string :=
  if String.length timestamp =? 16 then Py.drop_last 3 timestamp
  else timestamp.

Record state : Type := State {
  total_lines : nat;
  fixed_lines : nat;
  outfile : list string;
}.

(** The body of [for line in infile]. *)
Definition fix_line (st : state) (line : string) : state :=
  let total := total_lines st + 1 in
  if total =? 1 then State total (fixed_lines st) (outfile st ++ [line])
  else
    let parts := Py.split "," (Py.strip line) in
    if 6 <=? length parts then
      let timestamp := parts !!! 0 in
      if String.length timestamp =? 16 then
        let parts := <[0 := Py.drop_last 3 timestamp]> parts in
        State total (fixed_lines st + 1)
              (outfile st ++ [Py.join "," parts +:+ Py.nl])
      else
        State total (fixed_lines st)
              (outfile st ++ [Py.join "," parts +:+ Py.nl])
    else State total (fixed_lines st) (outfile st ++ [line]).

Definition main (infile : list string) : state :=
  foldl fix_line (State 0 0 []) infile.

End Fix.

(** ** scripts/download_all_timeframes.py *)

Module Download.

(** How one pass through the [try] block of [download_file] ends. *)
Inductive attempt : Type :=
| Served (content : string)
    (** the request is answered and the body is copied to the end *)
| Truncated (partial : string)
    (** the request is answered, [save_path] is opened for writing, and a
        later [read] raises after [partial] was written *)
| HttpError (code : Z)
    (** [urlopen] raises [HTTPError] *)
| Transport.
    (** [urlopen] raises another exception: no connection, a timeout, a
        TLS failure *)

(** The remote side: what the [n]-th request of the run (counted from 0),
    sent to [url], runs into. *)
Definition network : Type := string -> nat -> attempt.

Inductive message : Type :=
| HttpErrorLine (code : Z)
| AttemptFailed (attempt max_retries : nat)
| Downloading (filename : string)
| Ok
| NotFound
| Summary (downloaded skipped failed : nat).

(** The local file system, the number of requests sent so far, the
    arguments of the [time.sleep] calls and the printed lines. *)
Record world : Type := World {
  files : gmap string string;
  requests : nat;
  slept : list nat;
  stdout : list message;
}.

Definition send (w : world) : world :=
  World (files w) (requests w + 1) (slept w) (stdout w).
Definition store (path content : string) (w : world) : world :=
  World (<[path := content]> (files w)) (requests w) (slept w) (stdout w).
Definition unlink (path : string) (w : world) : world :=
  World (delete path (files w)) (requests w) (slept w) (stdout w).
Definition sleep (seconds : nat) (w : world) : world :=
  World (files w) (requests w) (slept w ++ [seconds]) (stdout w).
Definition print (m : message) (w : world) : world :=
  World (files w) (requests w) (slept w) (stdout w ++ [m]).
Definition exists_ (path : string) (w : world) : bool :=
  bool_decide (is_Some (files w !! path)).

Section Fetch.
Variable net : network.

(** The handler [except Exception] of [download_file]. *)
Definition on_exception (attempt max_retries : nat) (w : world) : world :=
  let w := print (AttemptFailed (attempt + 1) max_retries) w in
  if attempt <? max_retries - 1 then sleep (2 ^ attempt) w else w.

(** [for attempt in range(max_retries)] of [download_file], for the
    values of [attempt] that are still to come. *)
Fixpoint attempts (url save_path : string) (max_retries : nat)
         (todo : list nat) (w : world) : bool * world :=
  match todo with
  | [] => (false, w)
  | attempt :: todo' =>
      match net url (requests w) with
      | Served content => (true, store save_path content (send w))
      | Truncated partial =>
          attempts url save_path max_retries todo'
            (on_exception attempt max_retries
               (store save_path partial (send w)))
      | HttpError code =>
          if (code =? 404)%Z then (false, send w)
          else attempts url save_path max_retries todo'
                 (print (HttpErrorLine code) (send w))
      | Transport =>
          attempts url save_path max_retries todo'
            (on_exception attempt max_retries (send w))
      end
  end.

(** [download_file(url, save_path, max_retries)] *)
Definition download_file (url save_path : string) (max_retries : nat)
           (w : world) : bool * world :=
  attempts url save_path max_retries (seq 0 max_retries) w.

(** [str(n)] for a natural number, and [f"{n:02d}"] *)
Definition str (n : nat) : string :=
  DecimalString.NilEmpty.string_of_uint (Nat.to_uint n).
Definition two_digits (n : nat) : string :=
  if n <? 10 then "0" +:+ str n else str n.

Definition BASE_URL : string := "https://data.binance.vision/".
Definition OUTPUT_DIR : string := "/home/davirain/dev/zigQuant/data/binance_raw".
Definition YEARS : list nat := seq 2017 9.
Definition MONTHS : list nat := seq 1 12.

Definition filename_of (timeframe : string) (year month : nat) : string :=
  "BTCUSDT-" +:+ timeframe +:+ "-" +:+ str year +:+ "-"
  +:+ two_digits month +:+ ".zip".
Definition save_path_of (timeframe filename : string) : string :=
  OUTPUT_DIR +:+ "/data/spot/monthly/klines/BTCUSDT/" +:+ timeframe
  +:+ "/" +:+ filename.
Definition url_of (timeframe filename : string) : string :=
  BASE_URL +:+ "data/spot/monthly/klines/BTCUSDT/" +:+ timeframe
  +:+ "/" +:+ filename.

(** The counters of [download_timeframe]. *)
Record counts : Type := Counts {
  downloaded : nat;
  skipped : nat;
  failed : nat;
}.

(** The body of [for month in MONTHS] for the file at [save_path]. *)
Definition fetch (url save_path filename : string) (c : counts) (w : world)
  : counts * world :=
  if exists_ save_path w then
    (Counts (downloaded c) (skipped c + 1) (failed c), w)
  else
    let w := print (Downloading filename) w in
    match download_file url save_path 3 w with
    | (true, w) =>
        (Counts (downloaded c + 1) (skipped c) (failed c), print Ok w)
    | (false, w) =>
        let w := if exists_ save_path w then unlink save_path w else w in
        (Counts (downloaded c) (skipped c) (failed c + 1), print NotFound w)
    end.

Definition fetch_month (timeframe : string) (year : nat)
           (cw : counts * world) (month : nat) : counts * world :=
  let filename := filename_of timeframe year month in
  fetch (url_of timeframe filename) (save_path_of timeframe filename)
        filename cw.1 cw.2.

(** [download_timeframe(timeframe, years)] *)
Definition download_timeframe (timeframe : string) (years : list nat)
           (w : world) : counts * world :=
  let cw :=
    foldl (fun cw year => foldl (fetch_month timeframe year) cw MONTHS)
          (Counts 0 0 0, w) years in
  (cw.1, print (Summary (downloaded cw.1) (skipped cw.1) (failed cw.1)) cw.2).
End Fetch.

Definition TIMEFRAMES : list string :=
  ["1s"; "1m"; "3m"; "5m"; "15m"; "30m"; "1h"; "2h"; "4h"; "6h"; "8h"; "12h";
   "1d"].

(** How [main] ends: with [sys.exit(1)] on the first name that is no
    timeframe, or after the downloads with the three totals. *)
Inductive ending : Type :=
| Invalid (timeframe : string)
| Complete (total_downloaded total_skipped total_failed : nat).

(** The first element of [timeframes] that is not in [TIMEFRAMES]. *)
Fixpoint validate (timeframes : list string) : option string :=
  match timeframes with
  | [] => None
  | tf :: rest =>
      if decide (tf ∈ TIMEFRAMES) then validate rest else Some tf
  end.

(** The loop [for tf in timeframes] of [main], on the pair of the totals
    and the world. *)
Definition run_timeframes (net : network) (timeframes : list string)
    (tw : counts * world) : counts * world :=
  foldl (fun tw tf =>
           let '(c, w') := download_timeframe net tf YEARS tw.2 in
           (Counts (downloaded tw.1 + downloaded c)
                   (skipped tw.1 + skipped c)
                   (failed tw.1 + failed c), w'))
        tw timeframes.

Definition complete (tw : counts * world) : ending * world :=
  (Complete (downloaded tw.1) (skipped tw.1) (failed tw.1), tw.2).

(** [main()], for the command line arguments [args] ([sys.argv[1:]]).  Of
    the lines it prints itself only the exit is kept. *)
Definition main (net : network) (args : list string) (w : world)
  : ending * world :=
  match args with
  | [] => complete (run_timeframes net TIMEFRAMES (Counts 0 0 0, w))
  | _ =>
      match validate args with
      | Some tf => (Invalid tf, w)
      | None => complete (run_timeframes net args (Counts 0 0 0, w))
      end
  end.

End Download.

(** * Vocabulary of the statements *)

Section TextVocabulary.
Implicit Types (s : string) (c sep : ascii).

(** [sep] does not occur in [s]. *)
Fixpoint free_of sep s : Prop :=
  match s with
  | EmptyString => True
  | String c s' => c <> sep /\ free_of sep s'
  end.

(** A text made of blanks only, for a given notion of blank. *)
Fixpoint all_blank (blank : ascii -> bool) s : Prop :=
  match s with
  | EmptyString => True
  | String c s' => blank c = true /\ all_blank blank s'
  end.

(** The last character of [s], if there is one, is not a blank. *)
Fixpoint ends_solid (blank : ascii -> bool) s : Prop :=
  match s with
  | EmptyString => True
  | String c EmptyString => blank c = false
  | String _ s' => ends_solid blank s'
  end.

(** [c] is a decimal digit; [s] consists of decimal digits. *)
Definition is_digit (c : ascii) : bool :=
  match Py.digit_val c with Some _ => true | None => false end.

Fixpoint all_digits (s : string) : bool :=
  match s with
  | EmptyString => true
  | String c s' => is_digit c && all_digits s'
  end.

(** The number written by the digits of [s], read after [acc]. *)
Fixpoint digits_value (acc : Z) (s : string) : Z :=
  match s with
  | EmptyString => acc
  | String c s' => digits_value (10 * acc + default 0%Z (Py.digit_val c)) s'
  end.

End TextVocabulary.

(** ** The streaming engine in the words of the specification

    The engine keeps the last emitted timestamp as its only state.  A
    record whose timestamp equals it is dropped and counted as a
    duplicate; any other record is emitted and becomes the last emitted
    one.  ([emitted] and [dropped] are the output and the counter.) *)

Module Engine.

Record engine : Type := Make {
  last_emitted : option string;
  emitted : list (list string);
  dropped : nat;
}.

Definition start : engine := Make None [] 0.

Definition step (e : engine) (record : list string) : engine :=
  if decide (Some (record !!! 0) = last_emitted e)
  then Make (last_emitted e) (emitted e) (dropped e + 1)
  else Make (Some (record !!! 0)) (emitted e ++ [record]) (dropped e).

Definition run (e : engine) (records : list (list string)) : engine :=
  foldl step e records.

End Engine.

Section StreamVocabulary.
Import Zip.

(** The member of an archive that the converters read, if any. *)
Definition chosen_member (a : archive) : option member :=
  match zip_body a with
  | Corrupt => None
  | Members ms =>
      match csv_files ms with
      | [] => None
      | first :: _ => open ms first
      end
  end.

(** The lines of a member up to the first one that does not decode. *)
Fixpoint decoded_prefix (ls : list raw_line) : list string :=
  match ls with
  | Text s :: ls' => s :: decoded_prefix ls'
  | _ => []
  end.

Definition is_text (l : raw_line) : bool :=
  match l with Text _ => true | Undecodable => false end.

(** The decoded lines that the streaming loop meets in an archive, and
    whether it meets all the lines of the member it reads. *)
Definition lines_seen (a : archive) : list string :=
  match chosen_member a with
  | Some m => decoded_prefix (member_lines m)
  | None => []
  end.

Definition decodes (a : archive) : bool :=
  match chosen_member a with
  | Some m => forallb is_text (member_lines m)
  | None => true
  end.

(** The record of a decoded line: its fields, when there are six or more. *)
Definition record_of (decoded : string) : option (list string) :=
  let parts := Py.split "," (Py.strip decoded) in
  if 6 <=? length parts then Some parts else None.

(** The records that the archives deliver, in the order of the visit. *)
Definition records (zs : list archive) : list (list string) :=
  omap record_of (zs ≫= lines_seen).

(** What a decoded line does to the engine. *)
Definition feed (e : Engine.engine) (decoded : string) : Engine.engine :=
  match record_of decoded with
  | Some r => Engine.step e r
  | None => e
  end.

(** The written file and the remembered timestamp agree with the engine. *)
Definition sync (st : Streaming.state) (e : Engine.engine) : Prop :=
  Streaming.last_timestamp st = Engine.last_emitted e
  /\ Streaming.outfile st = Streaming.header :: (Streaming.format_candle <$> Engine.emitted e).

(** The counters agree with the engine, inside a file and between files. *)
Definition counting (st : Streaming.state) (e : Engine.engine) : Prop :=
  Streaming.total_candles st + Streaming.file_candles st = length (Engine.emitted e)
  /\ Streaming.duplicates_skipped st + Streaming.file_duplicates st = Engine.dropped e.

Definition counted (st : Streaming.state) (e : Engine.engine) : Prop :=
  Streaming.total_candles st = length (Engine.emitted e)
  /\ Streaming.duplicates_skipped st = Engine.dropped e.

End StreamVocabulary.

(** ** Sample archives *)

Section Samples.
Import Zip.

(** A line with the given timestamp; the other five fields are stand-ins. *)
Definition candle_line (timestamp : string) : raw_line :=
  Text (timestamp +:+ ",o,h,l,c,v" +:+ Py.nl).

(** An archive with one data file holding one line per timestamp. *)
Definition month_of (zip csv : string) (timestamps : list string) : archive :=
  Archive zip (Members [Member csv (candle_line <$> timestamps)]).

Definition august : archive :=
  month_of "BTCUSDT-1s-2017-08.zip" "BTCUSDT-1s-2017-08.csv" ["1"; "1"; "2"].

Definition september : archive :=
  month_of "BTCUSDT-1s-2017-09.zip" "BTCUSDT-1s-2017-09.csv"
           ["2"; "3"; "3"; "4"].

End Samples.

(** An archive whose only line has three fields, and an archive with two
    data files. *)
Definition short_line_archive : Zip.archive :=
  Zip.Archive "BTCUSDT-1s-2017-08.zip"
    (Zip.Members [Zip.Member "BTCUSDT-1s-2017-08.csv"
                    [Zip.Text ("1502942428000,4261.48,4261.48" +:+ Py.nl)]]).

Definition two_data_files : Zip.archive :=
  Zip.Archive "BTCUSDT-1s-2017-08.zip"
    (Zip.Members [Zip.Member "first.csv" [candle_line "1"];
                  Zip.Member "second.csv" [candle_line "2"]]).

(** ** Vocabulary of the download statements *)

(** An attempt that ends in the handler [except Exception]. *)
Definition transient (a : Download.attempt) : bool :=
  match a with
  | Download.Truncated _ | Download.Transport => true
  | Download.Served _ | Download.HttpError _ => false
  end.

(** A remote side without the file, and one that cannot be reached. *)
Definition absent_upstream : Download.network :=
  fun _ _ => Download.HttpError 404.
Definition unreachable : Download.network :=
  fun _ _ => Download.Transport.

(** A world with no file, before the first request. *)
Definition fresh : Download.world := Download.World ∅ 0 [] [].

(** January 2017 of the one-second candles: its file name, address and
    local path. *)
Definition january : string := Download.filename_of "1s" 2017 1.
Definition january_url : string := Download.url_of "1s" january.
Definition january_path : string := Download.save_path_of "1s" january.

(** ** Vocabulary of the bulk statements *)

(** The timestamp of a row, as text and as the integer it is sorted by
    (0 when the text is no integer). *)
Definition timestamp_of (r : list string) : string := r !!! 0.
Definition key_of (r : list string) : Z := default 0%Z (Bulk.sort_key r).

(** The duplicate removal in the words of the specification: a record is
    removed when its timestamp equals the timestamp of the immediately
    preceding kept record.  [stamp] tells what the timestamp of a record
    is, [kept] is the timestamp of the last kept record. *)
Fixpoint remove_adjacent {T : Type} `{!EqDecision T}
    (stamp : list string -> T) (kept : option T) (rows : list (list string))
  : list (list string) :=
  match rows with
  | [] => []
  | r :: rows' =>
      if decide (Some (stamp r) = kept) then remove_adjacent stamp kept rows'
      else r :: remove_adjacent stamp (Some (stamp r)) rows'
  end.

(** The rows of a list whose timestamp text is neither in [seen] nor
    carried by an earlier row of the list. *)
Fixpoint first_seen (seen : gset string) (rows : list (list string))
  : list (list string) :=
  match rows with
  | [] => []
  | r :: rows' =>
      if decide (timestamp_of r ∈ seen) then first_seen seen rows'
      else r :: first_seen ({[timestamp_of r]} ∪ seen) rows'
  end.

(** A row with the given timestamp and stand-ins for the other fields; an
    archive whose timestamps are out of order and repeated. *)
Definition row_of (timestamp : string) : list string :=
  [timestamp; "o"; "h"; "l"; "c"; "v"].

Definition shuffled : Zip.archive :=
  month_of "BTCUSDT-1m-2017-08.zip" "BTCUSDT-1m-2017-08.csv"
           ["5"; "3"; "5"; "1"; "3"].

(** Archives in which one instant is written in two ways: with a leading
    zero, and in milliseconds and in microseconds. *)
Definition leading_zero : Zip.archive :=
  month_of "BTCUSDT-1m-2017-08.zip" "BTCUSDT-1m-2017-08.csv" ["5"; "05"; "5"].

Definition two_spellings : Zip.archive :=
  month_of "BTCUSDT-1m-2017-08.zip" "BTCUSDT-1m-2017-08.csv" ["5"; "05"].

Definition two_units : Zip.archive :=
  month_of "BTCUSDT-1s-2025-01.zip" "BTCUSDT-1s-2025-01.csv"
           ["1735689600000"; "1735689600000000"].

(** ** Vocabulary of the further download statements *)

(** An attempt after which [download_file] goes on to the next round. *)
Definition retriable (a : Download.attempt) : bool :=
  match a with
  | Download.Served _ => false
  | Download.HttpError code => negb (code =? 404)%Z
  | Download.Truncated _ | Download.Transport => true
  end.

(** The files of one run of [download_timeframe], in the order of the
    loops: address, local path and file name of every month. *)
Definition jobs (timeframe : string) (years : list nat)
  : list (string * string * string) :=
  year ← years;
  month ← Download.MONTHS;
  [(Download.url_of timeframe (Download.filename_of timeframe year month),
    Download.save_path_of timeframe (Download.filename_of timeframe year month),
    Download.filename_of timeframe year month)].

(** Fetching a list of files one after the other. *)
Definition run_jobs (net : Download.network)
    (js : list (string * string * string))
    (cw : Download.counts * Download.world) : Download.counts * Download.world :=
  foldl (fun cw j => Download.fetch net j.1.1 j.1.2 j.2 cw.1 cw.2) cw js.

(** The number of files handled, and the files of a list that are there. *)
Definition handled (c : Download.counts) : nat :=
  Download.downloaded c + Download.skipped c + Download.failed c.

Definition present (w : Download.world) (js : list (string * string * string))
  : list (string * string * string) :=
  filter (fun j => Download.exists_ j.1.2 w = true) js.

(** ** Vocabulary of the fixer statements *)

(** The text that the fixer writes for a line after the first, and whether
    it counts the line as fixed. *)
Definition fixed_text (line : string) : string :=
  let parts := Py.split "," (Py.strip line) in
  if 6 <=? length parts
  then Py.join "," (<[0 := Fix.reconcile (parts !!! 0)]> parts) +:+ Py.nl
  else line.

Definition needs_fix (line : string) : bool :=
  let parts := Py.split "," (Py.strip line) in
  (6 <=? length parts) && (String.length (parts !!! 0) =? 16).

(** The first character of [s], if there is one, is not a blank. *)
Definition starts_solid (blank : ascii -> bool) (s : string) : Prop :=
  match s with
  | EmptyString => True
  | String c _ => blank c = false
  end.

(** A line as a text file holds it: a body without a line feed, and the
    line feed that ends it. *)
Definition terminated (line : string) : Prop :=
  exists body, free_of Py.newline body /\ line = body +:+ Py.nl.

(** A record after the fixer: the timestamp reconciled. *)
Definition fix_record (r : list string) : list string :=
  <[0 := Fix.reconcile (r !!! 0)]> r.

(** ** Vocabulary of the further streaming statements *)

(** No record of the list carries the timestamp of the record before it,
    and the first one does not carry [kept]. *)
Fixpoint no_repeat (kept : option string) (rows : list (list string)) : Prop :=
  match rows with
  | [] => True
  | r :: rows' =>
      Some (timestamp_of r) <> kept /\ no_repeat (Some (timestamp_of r)) rows'
  end.

(** What a run of the streaming converter leaves behind of a state: the
    totals, the remembered timestamp and the written file. *)
Definition data (st : Streaming.state)
  : nat * option string * nat * list string :=
  (Streaming.total_candles st, Streaming.last_timestamp st,
   Streaming.duplicates_skipped st, Streaming.outfile st).

(** Two states inside a file that differ in the printed lines only. *)
Definition same_file (st st' : Streaming.state) : Prop :=
  data st = data st'
  /\ Streaming.file_candles st = Streaming.file_candles st'
  /\ Streaming.file_duplicates st = Streaming.file_duplicates st'.

(** An archive without a line, and one that is no archive. *)
Definition broken : Zip.archive := Zip.Archive "BTCUSDT-1s-2017-10.zip" Zip.Corrupt.

(** ** Vocabulary of the further bulk statements *)

(** The text that the bulk converters read from an archive, if they can
    read it to its end, and the rows that [convert_timeframe] takes from
    the archive. *)
Definition content_of (a : Zip.archive) : option string :=
  m ← chosen_member a; Zip.read_decode (Zip.member_lines m).

Definition rows_of (a : Zip.archive) : list (list string) :=
  match content_of a with
  | Some content => Bulk.collect_content [] content
  | None => []
  end.

(** The integer that the older converter sorts a line by (0 when the
    first field is no integer), and the text it writes for a row. *)
Definition line_key (x : string) : Z := default 0%Z (Legacy.sort_key x).

(** A row as the bulk converters collect it: six fields without a comma. *)
Definition six_fields (r : list string) : Prop :=
  length r = 6 /\ Forall (free_of ",") r.

(** An archive whose data file opens with a heading. *)
Definition headed : Zip.archive :=
  Zip.Archive "BTCUSDT-1m-2025-01.zip"
    (Zip.Members
       [Zip.Member "BTCUSDT-1m-2025-01.csv"
          [Zip.Text ("open_time,open,high,low,close,volume" +:+ Py.nl);
           candle_line "1735689600000"]]).

(** An archive whose data file holds a line that does not decode. *)
Definition garbled : Zip.archive :=
  Zip.Archive "BTCUSDT-1m-2017-09.zip"
    (Zip.Members
       [Zip.Member "BTCUSDT-1m-2017-09.csv" [candle_line "7"; Zip.Undecodable]]).

(** ** Vocabulary of the statements on the two programs *)

(** The candles that a result adds to the total of the summary, and
    whether the summary counts it as a success. *)
Definition candles_of (r : Bulk.result) : nat :=
  match r with Bulk.Success _ candles _ => candles | _ => 0 end.

Definition succeeded (r : Bulk.result) : bool :=
  match r with Bulk.Success _ _ _ => true | _ => false end.

(** A tree of directories in which only the 3m candles are there, in an
    archive with a heading line. *)
Definition only_3m (tf : string) : option (list Zip.archive) :=
  if String.eqb tf "3m" then Some [headed] else None.

(** ** Vocabulary of the statements on well-formed data *)

(** A record as the exchange writes it, without blanks at its ends; the
    line that holds it; an archive whose data file consists of such
    lines. *)
Definition clean_body (body : string) : Prop :=
  body <> "" /\ free_of Py.newline body
  /\ starts_solid Py.is_space body /\ ends_solid Py.is_space body.

Definition line_text (body : string) : Zip.raw_line :=
  Zip.Text (body +:+ Py.nl).

Definition clean_line (l : Zip.raw_line) : Prop :=
  exists body, l = line_text body /\ clean_body body.

Definition clean (a : Zip.archive) : Prop :=
  match chosen_member a with
  | Some m => Forall clean_line (Zip.member_lines m)
  | None => True
  end.

(** A well-formed archive with three records in ascending order. *)
Definition tidy : Zip.archive :=
  Zip.Archive "BTCUSDT-1s-2017-08.zip"
    (Zip.Members
       [Zip.Member "BTCUSDT-1s-2017-08.csv"
          (line_text <$> ["1,o,h,l,c,v"; "2,o,h,l,c,v"; "3,o,h,l,c,v"])]).

(** ** Vocabulary of the statement on the progress lines *)

(** The number and the archive that a printed line of the streaming
    converter names, and whether it is a line of progress. *)
Definition message_index (m : Streaming.message) : nat :=
  match m with
  | Streaming.NoCsvFound i _ | Streaming.Progress i _ _ _
  | Streaming.ArchiveError i _ => i
  end.

Definition message_zip (m : Streaming.message) : string :=
  match m with
  | Streaming.NoCsvFound _ zip | Streaming.Progress _ zip _ _
  | Streaming.ArchiveError _ zip => zip
  end.

Definition is_progress (m : Streaming.message) : bool :=
  match m with Streaming.Progress _ _ _ _ => true | _ => false end.

(** * Properties *)

Set Warnings "-clear-no-such-hyp".

(** ** Text primitives *)

Example split_fields : Py.split "," "1,2,,3," = ["1"; "2"; ""; "3"; ""].
Proof. reflexivity. Qed.

Example split_empty : Py.split "," "" = [""].
Proof. reflexivity. Qed.

Example strip_blanks :
  Py.strip (String "009" " 1,2 " +:+ String "013" Py.nl) = "1,2".
Proof. reflexivity. Qed.

Example int_literals :
  Py.int "05" = Some 5%Z /\ Py.int " -1_000 " = Some (-1000)%Z
  /\ Py.int "1__0" = None /\ Py.int "" = None /\ Py.int "5.0" = None
  /\ Py.int (String "028" "5") = None /\ Py.strip (String "028" "5") = "5".
Proof. repeat split; reflexivity. Qed.

Example endswith_csv :
  Py.endswith "BTCUSDT-1s-2017-08.csv" ".csv" = true
  /\ Py.endswith "csv" ".csv" = false /\ Py.endswith "a.csv.bak" ".csv" = false.
Proof. repeat split; reflexivity. Qed.

Section TextFacts.
Implicit Types (s t : string) (c sep : ascii) (n : nat).

Lemma append_cons c s t : String c s +:+ t = String c (s +:+ t).
Proof. reflexivity. Qed.

Lemma append_nil_l s : "" +:+ s = s.
Proof. reflexivity. Qed.

Lemma append_assoc s t u : (s +:+ t) +:+ u = s +:+ t +:+ u.
Proof. induction s as [|c s IH]; [done|]. by rewrite !append_cons, IH. Qed.

Lemma append_length s t :
  String.length (s +:+ t) = String.length s + String.length t.
Proof.
  induction s as [|c s IH]; [done|]. rewrite append_cons. simpl. by rewrite IH.
Qed.

Lemma take_chars_length n s :
  String.length (Py.take_chars n s) = n `min` String.length s.
Proof.
  revert s; induction n as [|n IH]; intros [|c s]; simpl; try done.
  by rewrite IH.
Qed.

Lemma take_chars_app s t : Py.take_chars (String.length s) (s +:+ t) = s.
Proof.
  induction s as [|c s IH]; [by destruct t|].
  rewrite append_cons. simpl. by rewrite IH.
Qed.

(** A text is its first [n] characters followed by the rest. *)
Lemma take_chars_split n s :
  n <= String.length s ->
  exists tail, s = Py.take_chars n s +:+ tail
               /\ String.length tail = String.length s - n.
Proof.
  revert s; induction n as [|n IH]; intros s Hn.
  - exists s. split; [by destruct s|]. lia.
  - destruct s as [|c s]; simpl in *; [lia|].
    destruct (IH s) as (tail & Hs & Hl); [lia|].
    exists tail. split; [|done]. rewrite append_cons. by f_equal.
Qed.

(** [split] never returns the empty list. *)
Lemma split_cons sep s : exists f fs, Py.split sep s = f :: fs.
Proof.
  induction s as [|c s (f & fs & IH)]; simpl; [by eauto|].
  destruct (Ascii.eqb c sep); [by eauto|]. rewrite IH. eauto.
Qed.

(** Joining the fields gives the text back. *)
Lemma join_cons sep f g fs :
  Py.join sep (f :: g :: fs) = f +:+ String sep (Py.join sep (g :: fs)).
Proof. reflexivity. Qed.

Lemma join_split sep s : Py.join sep (Py.split sep s) = s.
Proof.
  induction s as [|c s IH]; [done|]. simpl.
  destruct (split_cons sep s) as (f & fs & Hs). rewrite Hs in IH |- *.
  destruct (Ascii.eqb_spec c sep) as [->|Hc].
  - by rewrite join_cons, append_nil_l, IH.
  - destruct fs as [|g fs].
    + simpl in *. by rewrite IH.
    + rewrite join_cons, append_cons. rewrite join_cons in IH. by rewrite IH.
Qed.

Lemma split_free sep s : Forall (free_of sep) (Py.split sep s).
Proof.
  induction s as [|c s IH]; simpl; [by repeat constructor|].
  destruct (Ascii.eqb_spec c sep) as [->|Hc]; [by constructor|].
  destruct (split_cons sep s) as (f & fs & Hs). rewrite Hs in IH |- *.
  inversion IH; subst. by constructor.
Qed.

Lemma split_free_id sep s : free_of sep s -> Py.split sep s = [s].
Proof.
  induction s as [|c s IH]; [done|]. intros [Hc Hs]. simpl.
  destruct (Ascii.eqb_spec c sep); [done|]. by rewrite IH.
Qed.

Lemma split_app_sep sep f s :
  free_of sep f -> Py.split sep (f +:+ String sep s) = f :: Py.split sep s.
Proof.
  induction f as [|c f IH].
  - intros _. rewrite append_nil_l. simpl. by rewrite Ascii.eqb_refl.
  - intros [Hc Hf]. rewrite append_cons. simpl.
    destruct (Ascii.eqb_spec c sep); [done|]. by rewrite IH.
Qed.

(** Splitting a join of separator-free fields gives the fields back. *)
Lemma split_join sep fs :
  fs <> [] -> Forall (free_of sep) fs -> Py.split sep (Py.join sep fs) = fs.
Proof.
  induction fs as [|f fs IH]; [done|]. intros _ Hfs.
  inversion Hfs as [|? ? Hf Hfs']; subst.
  destruct fs as [|g fs]; [by apply split_free_id|].
  rewrite join_cons, split_app_sep; [|done]. by rewrite IH.
Qed.

Lemma rstrip_empty blank s : Py.rstrip blank s = "" -> all_blank blank s.
Proof.
  induction s as [|c s IH]; [done|]. simpl.
  destruct (Py.rstrip blank s); [|done].
  destruct (blank c) eqn:Hc; [|done]. auto.
Qed.

Lemma lstrip_blank blank s :
  all_blank blank (Py.lstrip blank s) -> all_blank blank s.
Proof.
  induction s as [|c s IH]; [done|]. simpl.
  destruct (blank c) eqn:Hc; [by auto|]. intros [? _]. congruence.
Qed.

Lemma strip_empty s : Py.strip s = "" -> all_blank Py.is_space s.
Proof. intros H. by apply lstrip_blank, rstrip_empty. Qed.

Lemma blank_free blank s c :
  blank c = false -> all_blank blank s -> free_of c s.
Proof.
  intros Hc. induction s as [|d s IH]; [done|]. intros [Hd Hs].
  split; [congruence|auto].
Qed.

(** A line that strips to nothing has a single field. *)
Lemma strip_empty_split s :
  Py.strip s = "" -> length (Py.split "," s) = 1.
Proof.
  intros H. rewrite split_free_id; [done|].
  apply (blank_free Py.is_space); [done|]. by apply strip_empty.
Qed.

(** Stripping leaves a text alone when it neither starts nor ends with a
    blank. *)
Lemma rstrip_solid blank s : ends_solid blank s -> Py.rstrip blank s = s.
Proof.
  induction s as [|c s IH]; [done|]. destruct s as [|d s].
  - simpl. by intros ->.
  - intros H. change (Py.rstrip blank (String c (String d s)))
      with (match Py.rstrip blank (String d s) with
            | EmptyString =>
                if blank c then EmptyString else String c EmptyString
            | r => String c r
            end).
    by rewrite IH.
Qed.

Lemma lstrip_solid blank c s :
  blank c = false -> Py.lstrip blank (String c s) = String c s.
Proof. intros H. simpl. by rewrite H. Qed.

End TextFacts.

(** ** Decimal texts and [int] *)

Section Decimal.
Local Open Scope Z_scope.

Lemma parse_digits_value acc b s :
  all_digits s = true -> b = true \/ s <> EmptyString ->
  Py.parse_digits acc b s = Some (digits_value acc s).
Proof.
  revert acc b; induction s as [|c s IH]; intros acc b Hs Hb; simpl in *.
  - destruct Hb as [->|?]; done.
  - apply andb_true_iff in Hs as [Hc Hs]. unfold is_digit in Hc.
    destruct (Py.digit_val c) as [d|]; [|done]. simpl. apply IH; auto.
Qed.

Lemma digit_not_space c : is_digit c = true -> Py.is_int_space c = false.
Proof. destruct c as [[] [] [] [] [] [] [] []]; by vm_compute. Qed.

Lemma digit_not_sign c : is_digit c = true -> c <> "+"%char /\ c <> "-"%char.
Proof. destruct c as [[] [] [] [] [] [] [] []]; by vm_compute. Qed.

Lemma all_digits_ends_solid s :
  all_digits s = true -> ends_solid Py.is_int_space s.
Proof.
  induction s as [|c s IH]; [done|]. simpl.
  intros [Hc Hs]%andb_true_iff. destruct s; [by apply digit_not_space|auto].
Qed.

Lemma strip_digits s :
  all_digits s = true ->
  Py.rstrip Py.is_int_space (Py.lstrip Py.is_int_space s) = s.
Proof.
  intros Hs. destruct s as [|c s]; [done|].
  pose proof Hs as [Hc _]%andb_true_iff.
  rewrite lstrip_solid; [|by apply digit_not_space].
  by apply rstrip_solid, all_digits_ends_solid.
Qed.

(** On a text of digits [int] reads the decimal number. *)
Lemma int_digits s :
  all_digits s = true -> s <> EmptyString ->
  Py.int s = Some (digits_value 0 s).
Proof.
  intros Hs Hne. unfold Py.int. rewrite strip_digits; [|done].
  destruct s as [|c s]; [done|].
  pose proof Hs as [Hc _]%andb_true_iff.
  destruct (digit_not_sign c Hc) as [Hp Hm].
  transitivity (Py.parse_digits 0 false (String c s)).
  - destruct c as [[] [] [] [] [] [] [] []]; done.
  - apply parse_digits_value; auto.
Qed.

Lemma digits_value_app acc s t :
  digits_value acc (s +:+ t) = digits_value (digits_value acc s) t.
Proof.
  revert acc; induction s as [|c s IH]; intros acc; [done|].
  rewrite append_cons. simpl. by rewrite IH.
Qed.

Lemma all_digits_app s t :
  all_digits (s +:+ t) = all_digits s && all_digits t.
Proof.
  induction s as [|c s IH]; [done|]. rewrite append_cons. simpl.
  by rewrite IH, andb_assoc.
Qed.

Lemma digit_val_range c : 0 <= default 0 (Py.digit_val c) <= 9.
Proof. destruct c as [[] [] [] [] [] [] [] []]; vm_compute; split; congruence. Qed.

(** The digits read after [acc] shift it to the left. *)
Lemma digits_value_shift acc s :
  exists low, digits_value acc s = acc * 10 ^ Z.of_nat (String.length s) + low
              /\ 0 <= low < 10 ^ Z.of_nat (String.length s).
Proof.
  revert acc; induction s as [|c s IH]; intros acc.
  - exists 0. simpl. lia.
  - destruct (IH (10 * acc + default 0 (Py.digit_val c))) as (low & Hv & Hlow).
    pose proof (digit_val_range c) as Hc.
    change (digits_value acc (String c s))
      with (digits_value (10 * acc + default 0 (Py.digit_val c)) s).
    rewrite Hv.
    change (String.length (String c s)) with (S (String.length s)).
    rewrite Nat2Z.inj_succ, Z.pow_succ_r by lia.
    set (p := 10 ^ Z.of_nat (String.length s)) in *.
    exists (default 0 (Py.digit_val c) * p + low). split; [lia|]. nia.
Qed.

End Decimal.

(** ** The timestamp fixer *)

Section Reconcile.
Import Fix.

Lemma reconcile_16 ts :
  String.length ts = 16 -> reconcile ts = Py.take_chars 13 ts.
Proof. intros H. unfold reconcile, Py.drop_last. by rewrite H. Qed.

Lemma reconcile_other ts : String.length ts <> 16 -> reconcile ts = ts.
Proof.
  intros H. unfold reconcile.
  by destruct (Nat.eqb_spec (String.length ts) 16).
Qed.

Lemma reconcile_tail ts :
  String.length ts = 16 ->
  exists tail, String.length tail = 3 /\ ts = reconcile ts +:+ tail.
Proof.
  intros H. rewrite (reconcile_16 _ H).
  destruct (take_chars_split 13 ts) as (tail & Hts & Hl); [lia|].
  exists tail. split; [lia|done].
Qed.

(** On a 16-digit number the fixer divides by 1000, rounding down. *)
Lemma reconcile_div ts v :
  all_digits ts = true -> String.length ts = 16 -> Py.int ts = Some v ->
  Py.int (reconcile ts) = Some (v `div` 1000)%Z.
Proof.
  intros Hd Hl Hv.
  destruct (reconcile_tail ts Hl) as (tail & Htl & Hts).
  assert (String.length (reconcile ts) = 13) as Hrl.
  { rewrite (reconcile_16 _ Hl), take_chars_length. lia. }
  set (r := reconcile ts) in *. clearbody r. subst ts.
  rewrite all_digits_app in Hd. apply andb_true_iff in Hd as [Hr Ht].
  rewrite int_digits in Hv;
    [|by rewrite all_digits_app, Hr, Ht|by destruct r].
  rewrite int_digits; [|done|by destruct r].
  injection Hv as <-. f_equal. rewrite digits_value_app.
  destruct (digits_value_shift (digits_value 0 r) tail) as (low & -> & Hlow).
  rewrite Htl in *. change (10 ^ Z.of_nat 3)%Z with 1000%Z in *.
  rewrite Z.div_add_l by lia. rewrite Z.div_small by lia. lia.
Qed.

Lemma insert_head_same (parts : list string) :
  <[0 := parts !!! 0]> parts = parts.
Proof. by destruct parts. Qed.

(** What the fixer writes for a data line: the fields of the stripped
    line, the first one reconciled. *)
Lemma fix_line_reconcile st line :
  1 <= total_lines st -> 6 <= length (Py.split "," (Py.strip line)) ->
  outfile (fix_line st line)
  = outfile st ++
      [Py.join "," (<[0 := reconcile (Py.split "," (Py.strip line) !!! 0)]>
                      (Py.split "," (Py.strip line))) +:+ Py.nl].
Proof.
  intros Ht Hp. unfold fix_line.
  destruct (Nat.eqb_spec (total_lines st + 1) 1) as [?|_]; [lia|].
  destruct (Nat.leb_spec 6 (length (Py.split "," (Py.strip line)))); [|lia].
  unfold reconcile.
  destruct (String.length (Py.split "," (Py.strip line) !!! 0) =? 16);
    [done|]. simpl. by rewrite insert_head_same.
Qed.

End Reconcile.

(** C3.  The timestamp fixer cuts the last three characters off a timestamp
    of exactly 16 characters, which divides a 16-digit number by 1000
    rounding down, and leaves a timestamp of any other width as it is; this
    is what it writes in place of the first field of every data line.
    [1735689600000000] becomes [1735689600000], [1706147569000] stays. *)
Theorem reconcile_correct :
  (forall ts, String.length ts = 16 ->
     String.length (Fix.reconcile ts) = 13
     /\ exists tail, String.length tail = 3 /\ ts = Fix.reconcile ts +:+ tail)
  /\ (forall ts v, all_digits ts = true -> String.length ts = 16 ->
        Py.int ts = Some v -> Py.int (Fix.reconcile ts) = Some (v `div` 1000)%Z)
  /\ (forall ts, String.length ts <> 16 -> Fix.reconcile ts = ts)
  /\ (forall st line,
        1 <= Fix.total_lines st -> 6 <= length (Py.split "," (Py.strip line)) ->
        Fix.outfile (Fix.fix_line st line)
        = Fix.outfile st ++
            [Py.join "," (<[0 := Fix.reconcile (Py.split "," (Py.strip line) !!! 0)]>
                            (Py.split "," (Py.strip line))) +:+ Py.nl])
  /\ Fix.reconcile "1735689600000000" = "1735689600000"
  /\ Fix.reconcile "1706147569000" = "1706147569000".
Proof.
  split; [|split; [|split; [|split; [|split]]]].
  - intros ts H. split; [|by apply reconcile_tail].
    rewrite (reconcile_16 _ H), take_chars_length. lia.
  - apply reconcile_div.
  - apply reconcile_other.
  - apply fix_line_reconcile.
  - reflexivity.
  - reflexivity.
Qed.

Lemma reconcile_correct_witness :
  String.length (Fix.reconcile "1735689600000000") = 13
  /\ Py.int (Fix.reconcile "1735689600000000") = Some 1735689600000%Z
  /\ Fix.reconcile "1706147569000" = "1706147569000"
  /\ Fix.outfile (Fix.fix_line (Fix.State 1 0 ["h"])
                    "1735689600000999,1,2,3,4,5,6")
     = ["h"; "1735689600000,1,2,3,4,5,6" +:+ Py.nl].
Proof.
  pose proof reconcile_correct as (H16 & Hdiv & Hother & Hline & _).
  split; [|split; [|split]].
  - apply (H16 "1735689600000000"). reflexivity.
  - apply (Hdiv "1735689600000000" 1735689600000000%Z); reflexivity.
  - apply (Hother "1706147569000"). simpl. lia.
  - apply (Hline (Fix.State 1 0 ["h"]) "1735689600000999,1,2,3,4,5,6");
      simpl; lia.
Defined.

(** C9.  Fixing a timestamp twice is fixing it once; a timestamp of 13
    characters is not changed at all. *)
Theorem reconcile_idempotent (ts : string) :
  Fix.reconcile (Fix.reconcile ts) = Fix.reconcile ts
  /\ (String.length ts = 13 -> Fix.reconcile ts = ts).
Proof.
  split.
  - destruct (Nat.eq_dec (String.length ts) 16) as [H|H].
    + apply reconcile_other. rewrite (reconcile_16 _ H), take_chars_length. lia.
    + by rewrite !(reconcile_other _ H).
  - intros H. apply reconcile_other. lia.
Qed.

Lemma reconcile_idempotent_witness :
  Fix.reconcile (Fix.reconcile "1735689600000000") = Fix.reconcile "1735689600000000"
  /\ Fix.reconcile "1706147569000" = "1706147569000".
Proof.
  split.
  - apply (reconcile_idempotent "1735689600000000").
  - apply (reconcile_idempotent "1706147569000"). reflexivity.
Defined.

(** ** The six kept fields *)

Section Projection.

Lemma first_six (parts : list string) :
  6 <= length parts ->
  [parts !!! 0; parts !!! 1; parts !!! 2; parts !!! 3; parts !!! 4; parts !!! 5]
  = take 6 parts.
Proof.
  intros H. do 6 (destruct parts as [|? parts]; [simpl in H; lia|]). done.
Qed.

Lemma format_candle_join (parts : list string) :
  6 <= length parts ->
  Streaming.format_candle parts = Py.join "," (take 6 parts) +:+ Py.nl.
Proof.
  intros H. rewrite <- (first_six _ H). unfold Streaming.format_candle.
  rewrite !join_cons. simpl Py.join.
  repeat (rewrite append_assoc || rewrite append_cons). reflexivity.
Qed.

Lemma many_fields_not_blank (line : string) :
  2 <= length (Py.split "," line) -> Py.strip line <> "".
Proof. intros H Hs. apply strip_empty_split in Hs. lia. Qed.

End Projection.

(** C4.  A line that splits into at least six fields is turned into
    exactly its first six fields, in order and character for character:
    as the row of [convert_timeframe], as the joined text of the older
    converter (which splits back into the same six fields) and as the line
    that the streaming converter writes.  Fields after the sixth do not
    appear. *)
Theorem canonical_projection (line : string) (rows : list (list string))
    (acc : list string) :
  6 <= length (Py.split "," line) ->
  let parts := Py.split "," line in
  length (take 6 parts) = 6
  /\ (forall i, i < 6 -> take 6 parts !! i = parts !! i)
  /\ Bulk.collect_line rows line = rows ++ [take 6 parts]
  /\ Legacy.collect_line acc line = acc ++ [Py.join "," (take 6 parts)]
  /\ Py.split "," (Py.join "," (take 6 parts)) = take 6 parts
  /\ Streaming.format_candle parts = Py.join "," (take 6 parts) +:+ Py.nl.
Proof.
  intros H parts. subst parts.
  split; [|split; [|split; [|split; [|split]]]].
  - rewrite length_take. lia.
  - intros i Hi. by apply lookup_take_lt.
  - unfold Bulk.collect_line.
    destruct (String.eqb_spec line "") as [->|_]; [simpl in H; lia|].
    destruct (Nat.leb_spec 6 (length (Py.split "," line))); [|lia].
    by rewrite first_six.
  - unfold Legacy.collect_line.
    destruct (String.eqb_spec (Py.strip line) "") as [Hs|_].
    { exfalso. revert Hs. apply many_fields_not_blank. lia. }
    by destruct (Nat.leb_spec 6 (length (Py.split "," line))); [|lia].
  - apply split_join.
    + intros Hnil. apply (f_equal length) in Hnil.
      rewrite length_take in Hnil. change (length (@nil string)) with 0 in Hnil.
      lia.
    + apply Forall_take, split_free.
  - by apply format_candle_join.
Qed.

Lemma canonical_projection_witness :
  Bulk.collect_line [] "1,2,3,4,5,6,7,8,9,10,11,12" = [["1"; "2"; "3"; "4"; "5"; "6"]]
  /\ Legacy.collect_line [] "1,2,3,4,5,6,7,8,9,10,11,12" = ["1,2,3,4,5,6"].
Proof.
  assert (6 <= length (Py.split "," "1,2,3,4,5,6,7,8,9,10,11,12")) as H
    by (simpl; lia).
  pose proof (canonical_projection "1,2,3,4,5,6,7,8,9,10,11,12" [] [] H)
    as (_ & _ & Hb & Hl & _).
  split; [exact Hb | exact Hl].
Defined.

(** ** The streaming converter *)

Section StreamingFacts.
Import Zip Streaming.

Lemma run_feed e ds :
  Engine.run e (omap record_of ds) = foldl feed e ds.
Proof.
  revert e; induction ds as [|d ds IH]; intros e; [done|].
  simpl. unfold feed at 2. destruct (record_of d); simpl; apply IH.
Qed.

(** One line, seen from the three sides: the line is skipped, dropped as
    a duplicate, or written. *)
Lemma process_line_cases st d :
  match record_of d with
  | None => process_line st d = st
  | Some parts =>
      if decide (Some (parts !!! 0) = last_timestamp st)
      then process_line st d
           = State (total_candles st) (last_timestamp st)
               (duplicates_skipped st) (file_candles st)
               (file_duplicates st + 1) (outfile st) (stdout st)
      else process_line st d
           = State (total_candles st) (Some (parts !!! 0))
               (duplicates_skipped st) (file_candles st + 1)
               (file_duplicates st) (outfile st ++ [format_candle parts])
               (stdout st)
  end.
Proof.
  unfold record_of, process_line.
  destruct (String.eqb_spec (Py.strip d) "") as [->|_]; [done|].
  destruct (6 <=? length (Py.split "," (Py.strip d))); [|done].
  by destruct (decide _).
Qed.

Lemma sync_process_line st e d :
  sync st e -> sync (process_line st d) (feed e d).
Proof.
  intros [Hl Ho]. pose proof (process_line_cases st d) as H.
  unfold feed, Engine.step. destruct (record_of d) as [parts|]; [|by rewrite H].
  rewrite <- Hl.
  destruct (decide _); rewrite H; split; simpl; try done.
  by rewrite Ho, fmap_app.
Qed.

Lemma counting_process_line st e d :
  sync st e -> counting st e -> counting (process_line st d) (feed e d).
Proof.
  intros [Hl Ho] [Hc Hd]. pose proof (process_line_cases st d) as H.
  unfold feed, Engine.step. destruct (record_of d) as [parts|]; [|by rewrite H].
  rewrite <- Hl.
  destruct (decide _); rewrite H; split; simpl; rewrite ?length_app; simpl; lia.
Qed.

(** The loop over the lines of a member processes the decodable prefix. *)
Lemma process_lines_prefix st ls :
  process_lines st ls
  = (if forallb is_text ls then Completed else Raised)
      (foldl process_line st (decoded_prefix ls)).
Proof.
  revert st; induction ls as [|[s|] ls IH]; intros st; simpl; try done.
Qed.

Lemma sync_foldl st e ds :
  sync st e -> sync (foldl process_line st ds) (foldl feed e ds).
Proof.
  revert st e; induction ds as [|d ds IH]; intros st e H; [done|].
  simpl. by apply IH, sync_process_line.
Qed.

Lemma counting_foldl st e ds :
  sync st e -> counting st e ->
  counting (foldl process_line st ds) (foldl feed e ds).
Proof.
  revert st e; induction ds as [|d ds IH]; intros st e H Hc; [done|].
  simpl. apply IH; [by apply sync_process_line|by apply counting_process_line].
Qed.

Lemma sync_start_file st e : sync st e -> sync (start_file st) e.
Proof. done. Qed.

(** An archive feeds the lines met in it to the engine. *)
Lemma sync_process_archive st e i a :
  sync st e -> sync (process_archive st i a) (foldl feed e (lines_seen a)).
Proof.
  intros H. unfold process_archive, lines_seen, chosen_member.
  destruct (zip_body a) as [|ms]; [done|].
  destruct (csv_files ms) as [|first others]; [done|].
  destruct (open ms first) as [m|]; [|done].
  rewrite process_lines_prefix.
  pose proof (sync_foldl (start_file st) e (decoded_prefix (member_lines m))
                (sync_start_file _ _ H)) as Hs.
  by destruct (forallb is_text (member_lines m)).
Qed.

Lemma counted_process_archive st e i a :
  sync st e -> counted st e -> decodes a = true ->
  counted (process_archive st i a) (foldl feed e (lines_seen a)).
Proof.
  intros H [Hc Hd]. unfold process_archive, lines_seen, decodes, chosen_member.
  destruct (zip_body a) as [|ms]; [done|].
  destruct (csv_files ms) as [|first others]; [done|].
  destruct (open ms first) as [m|]; [|done].
  rewrite process_lines_prefix. intros ->.
  destruct (counting_foldl (start_file st) e (decoded_prefix (member_lines m)))
    as [Hc' Hd']; [done|split; simpl; lia|].
  split; simpl; lia.
Qed.

Lemma sync_process_archives zs st e i :
  sync st e ->
  sync (process_archives st i zs) (foldl feed e (zs ≫= lines_seen)).
Proof.
  revert st e i; induction zs as [|a zs IH]; intros st e i H; [done|].
  simpl. rewrite foldl_app. by apply IH, sync_process_archive.
Qed.

Lemma counted_process_archives zs st e i :
  sync st e -> counted st e -> Forall (fun a => decodes a = true) zs ->
  counted (process_archives st i zs) (foldl feed e (zs ≫= lines_seen)).
Proof.
  revert st e i; induction zs as [|a zs IH]; intros st e i H Hc Hz; [done|].
  apply Forall_cons in Hz as [Ha Hz]. simpl. rewrite foldl_app.
  apply IH; [by apply sync_process_archive| |done].
  by apply counted_process_archive.
Qed.

End StreamingFacts.

(** ** Sorting *)

Section SortFacts.
Context {A K : Type} (leb : K -> K -> bool) (key : A -> K).

Lemma insert_sorted_Permutation x l : Py.insert_sorted leb key x l ≡ₚ x :: l.
Proof.
  induction l as [|y l IH]; [done|]. simpl.
  destruct (leb (key x) (key y)); [done|]. by rewrite IH, Permutation_swap.
Qed.

Lemma sorted_by_Permutation l : Py.sorted_by leb key l ≡ₚ l.
Proof.
  induction l as [|x l IH]; [done|]. simpl.
  by rewrite insert_sorted_Permutation, IH.
Qed.

(** The sort is stable: elements with the same key keep their order. *)
Lemma insert_sorted_filter `{!EqDecision K} k x l :
  (forall k', leb k' k' = true) ->
  filter (fun y => key y = k) (Py.insert_sorted leb key x l)
  = filter (fun y => key y = k) (x :: l).
Proof.
  intros Hrefl. induction l as [|y l IH]; [done|]. simpl.
  destruct (leb (key x) (key y)) eqn:Hxy; [done|].
  rewrite (filter_cons _ y), IH, !(filter_cons _ x), (filter_cons _ y).
  destruct (decide (key y = k)) as [Hy|]; [|done].
  destruct (decide (key x = k)) as [Hx|]; [|done].
  rewrite Hx, Hy, Hrefl in Hxy. done.
Qed.

Lemma sorted_by_stable `{!EqDecision K} k l :
  (forall k', leb k' k' = true) ->
  filter (fun y => key y = k) (Py.sorted_by leb key l)
  = filter (fun y => key y = k) l.
Proof.
  intros Hrefl. induction l as [|x l IH]; [done|]. simpl.
  rewrite insert_sorted_filter by done. by rewrite !filter_cons, IH.
Qed.

(** With a total and transitive comparison the result is in order. *)
Lemma insert_sorted_Sorted x l :
  (forall a b, leb a b = false -> leb b a = true) ->
  (forall a b c, leb a b = true -> leb b c = true -> leb a c = true) ->
  StronglySorted (fun a b => leb (key a) (key b) = true) l ->
  StronglySorted (fun a b => leb (key a) (key b) = true)
                 (Py.insert_sorted leb key x l).
Proof.
  intros Htot Htrans. induction 1 as [|y l Hl IH Hy]; simpl.
  - by repeat constructor.
  - destruct (leb (key x) (key y)) eqn:Hxy.
    + constructor; [by constructor|]. constructor; [done|].
      eapply Forall_impl; [exact Hy|]. intros z Hz. by eapply Htrans.
    + constructor; [done|].
      rewrite insert_sorted_Permutation. constructor; [by apply Htot|done].
Qed.

Lemma sorted_by_Sorted l :
  (forall a b, leb a b = false -> leb b a = true) ->
  (forall a b c, leb a b = true -> leb b c = true -> leb a c = true) ->
  StronglySorted (fun a b => leb (key a) (key b) = true) (Py.sorted_by leb key l).
Proof.
  intros Htot Htrans. induction l as [|x l IH]; simpl; [constructor|].
  by apply insert_sorted_Sorted.
Qed.

End SortFacts.

Section Decorated.
Context {A K : Type} (leb : K -> K -> bool) (key : A -> K).

(** Sorting pairs of key and element by the key is sorting the elements. *)
Lemma insert_sorted_decorated x (kl : list (K * A)) :
  Forall (fun p => p.1 = key p.2) kl ->
  snd <$> Py.insert_sorted leb fst (key x, x) kl
  = Py.insert_sorted leb key x (snd <$> kl).
Proof.
  induction 1 as [|[k y] kl Hy Hkl IH]; [done|]. simpl in Hy. subst k.
  rewrite fmap_cons. simpl.
  destruct (leb (key x) (key y)); [done|]. by rewrite fmap_cons, IH.
Qed.

Lemma sorted_by_decorated l :
  snd <$> Py.sorted_by leb fst ((fun x => (key x, x)) <$> l)
  = Py.sorted_by leb key l.
Proof.
  induction l as [|x l IH]; [done|].
  rewrite fmap_cons.
  change (Py.sorted_by leb key (x :: l))
    with (Py.insert_sorted leb key x (Py.sorted_by leb key l)).
  rewrite <- IH, <- insert_sorted_decorated; [done|].
  rewrite sorted_by_Permutation. by apply Forall_fmap, Forall_true.
Qed.

End Decorated.

(** ** Streaming mode *)

Lemma sync_initial : sync Streaming.initial Engine.start.
Proof. done. Qed.

Lemma counted_initial : counted Streaming.initial Engine.start.
Proof. done. Qed.

(** C1.  The streaming converter behaves as the engine that remembers the
    last emitted timestamp only: over all archives, visited in the order
    of their names, a record is dropped and counted when its timestamp is
    the last emitted one, and written otherwise.  The written file always
    is the header followed by the emitted records; the reported totals are
    those of the engine when every data file decodes to its end.  For the
    archives with timestamps [1,1,2] and [2,3,3,4] the file holds 1, 2, 3, 4
    and 3 duplicates are reported: the state lives across archives. *)
Theorem streaming_dedup :
  (forall found : list Zip.archive,
     Zip.sorted found <> [] ->
     let e := Engine.run Engine.start (records (Zip.sorted found)) in
     let r := Streaming.main (Some found) in
     Streaming.status r = 0%Z
     /\ Streaming.written r
        = Streaming.header :: (Streaming.format_candle <$> Engine.emitted e)
     /\ (Forall (fun a => decodes a = true) found ->
         Streaming.candles r = length (Engine.emitted e)
         /\ Streaming.duplicates r = Engine.dropped e))
  /\ (let e := Engine.run Engine.start (records [august; september]) in
      (fun record => record !!! 0) <$> Engine.emitted e = ["1"; "2"; "3"; "4"]
      /\ Engine.dropped e = 3)
  /\ Streaming.main (Some [september; august])
     = Streaming.Report 0
         [Streaming.header; "1,o,h,l,c,v" +:+ Py.nl; "2,o,h,l,c,v" +:+ Py.nl;
          "3,o,h,l,c,v" +:+ Py.nl; "4,o,h,l,c,v" +:+ Py.nl]
         4 3
         [Streaming.Progress 1 "BTCUSDT-1s-2017-08.zip" 2 2;
          Streaming.Progress 2 "BTCUSDT-1s-2017-09.zip" 2 4].
Proof.
  split; [|split; [by vm_compute|by vm_compute]].
  intros found Hne e r. subst e r. unfold Streaming.main, records.
  rewrite run_feed.
  destruct (Nat.eqb_spec (length (Zip.sorted found)) 0) as [H0|_].
  { by destruct (Zip.sorted found). }
  pose proof (sync_process_archives (Zip.sorted found) _ _ 1 sync_initial)
    as [_ Hout].
  simpl. split; [done|]. split; [exact Hout|].
  intros Hdec.
  apply (counted_process_archives (Zip.sorted found) _ _ 1 sync_initial
           counted_initial).
  unfold Zip.sorted. by rewrite sorted_by_Permutation.
Qed.

Lemma streaming_dedup_witness :
  Streaming.written (Streaming.main (Some [september; august]))
  = Streaming.header
      :: (Streaming.format_candle
            <$> Engine.emitted
                  (Engine.run Engine.start
                     (records (Zip.sorted [september; august]))))
  /\ Streaming.duplicates (Streaming.main (Some [september; august]))
     = Engine.dropped
         (Engine.run Engine.start (records (Zip.sorted [september; august]))).
Proof.
  destruct streaming_dedup as [H _].
  destruct (H [september; august]) as (_ & Hw & Hc); [by vm_compute|].
  split; [exact Hw|].
  apply Hc. repeat constructor.
Defined.

(** ** Lines with fewer than six fields *)

Section Rejection.
Import Zip Streaming.

Lemma process_lines_app st pre ls :
  process_lines st (pre ++ ls)
  = match process_lines st pre with
    | Completed st' => process_lines st' ls
    | Raised st' => Raised st'
    end.
Proof.
  revert st; induction pre as [|[s|] pre IH]; intros st; simpl; done.
Qed.

Lemma short_line_skipped st decoded :
  length (Py.split "," (Py.strip decoded)) < 6 -> process_line st decoded = st.
Proof.
  intros H. pose proof (process_line_cases st decoded) as Hc.
  unfold record_of in Hc.
  by destruct (Nat.leb_spec 6 (length (Py.split "," (Py.strip decoded))));
    [lia|].
Qed.

End Rejection.

(** C5, as the code has it.  A line with fewer than six fields is dropped:
    nothing is written for it and no variable of the converter changes, so
    no count of such lines is kept; the loop goes on with the next line of
    the same data file. *)
Theorem short_line_dropped (st : Streaming.state) (decoded : string)
    (before after : list Zip.raw_line) :
  length (Py.split "," (Py.strip decoded)) < 6 ->
  Streaming.process_line st decoded = st
  /\ Streaming.process_lines st (before ++ Zip.Text decoded :: after)
     = Streaming.process_lines st (before ++ after).
Proof.
  intros H. split; [by apply short_line_skipped|].
  rewrite !process_lines_app.
  destruct (Streaming.process_lines st before) as [st'|st']; [|done].
  simpl. by rewrite short_line_skipped.
Qed.

Lemma short_line_dropped_witness :
  Streaming.process_lines Streaming.initial
    [candle_line "1"; Zip.Text "2,o,h"; candle_line "3"]
  = Streaming.process_lines Streaming.initial [candle_line "1"; candle_line "3"].
Proof.
  apply (short_line_dropped Streaming.initial "2,o,h" [candle_line "1"]
           [candle_line "3"]).
  simpl. lia.
Defined.

(** C5 as stated fails: after a run whose only line was rejected, every
    count that is reported is zero, and a rejected line leaves all the
    counters of the converter as they were. *)
Lemma rejected_line_not_counted :
  Streaming.main (Some [short_line_archive])
  = Streaming.Report 0 [Streaming.header] 0 0
      [Streaming.Progress 1 "BTCUSDT-1s-2017-08.zip" 0 0]
  /\ Streaming.process_line
       (Streaming.State 7 (Some "1") 2 3 1 [Streaming.header] [])
       ("1502942428000,4261.48,4261.48" +:+ Py.nl)
     = Streaming.State 7 (Some "1") 2 3 1 [Streaming.header] [].
Proof. split; reflexivity. Qed.

(** ** The data file of an archive *)

Section DataFile.
Import Zip.

Lemma csv_files_head ms first others :
  csv_files ms = first :: others ->
  Py.endswith first ".csv" = true /\ first ∈ namelist ms.
Proof.
  intros H. assert (first ∈ csv_files ms) as Hin by (rewrite H; left).
  unfold csv_files in Hin. apply list_elem_of_filter in Hin. tauto.
Qed.

Lemma open_listed ms name :
  name ∈ namelist ms ->
  exists m, open ms name = Some m /\ m ∈ ms /\ member_name m = name.
Proof.
  intros Hin. unfold namelist in Hin. apply list_elem_of_fmap in Hin as (m0 & -> & Hm0).
  unfold open.
  assert (m0 ∈ filter (fun m => member_name m = member_name m0) ms) as Hf
    by (by apply list_elem_of_filter).
  destruct (last (filter (fun m => member_name m = member_name m0) ms))
    as [m|] eqn:Hl.
  - exists m. split; [done|].
    apply last_Some_elem_of, list_elem_of_filter in Hl. tauto.
  - apply last_None in Hl. rewrite Hl in Hf. by apply elem_of_nil in Hf.
Qed.

Lemma csv_files_single m :
  Py.endswith (member_name m) ".csv" = true ->
  csv_files [m] = [member_name m] /\ open [m] (member_name m) = Some m.
Proof.
  intros H. unfold csv_files, open, namelist. simpl.
  rewrite !filter_cons, !filter_nil.
  destruct (decide (Py.endswith (member_name m) ".csv" = true)); [|done].
  by destruct (decide (member_name m = member_name m)).
Qed.

(** With several candidates, an archive is read as if it held only the
    member found under the first candidate's name. *)
Lemma chosen_member_first ms first others :
  csv_files ms = first :: others ->
  exists m, m ∈ ms /\ member_name m = first
            /\ open ms first = Some m
            /\ csv_files [m] = [first] /\ open [m] first = Some m.
Proof.
  intros H. destruct (csv_files_head _ _ _ H) as [Hend Hin].
  destruct (open_listed _ _ Hin) as (m & Ho & Hm & Hn).
  exists m. subst first. by destruct (csv_files_single m Hend).
Qed.

End DataFile.

(** C6, as the code has it.  The converters read the member found under
    the first listed name that ends in [.csv].  When an archive lists no
    such name it is skipped and the next archive is processed: the
    streaming and the older converter print a notice, [convert_timeframe]
    passes over it silently.  When it lists several, the first is read as
    if it were the only one and the others are ignored without notice. *)
Theorem first_data_file_read (name : string) (ms : list Zip.member) :
  (Zip.csv_files ms = [] ->
     (forall st i rest,
        Streaming.process_archives st i (Zip.Archive name (Zip.Members ms) :: rest)
        = Streaming.process_archives
            (Streaming.print (Streaming.NoCsvFound i name)
               (Streaming.start_file st)) (S i) rest)
     /\ (forall c, Bulk.collect_archive c (Zip.Archive name (Zip.Members ms)) = c)
     /\ (forall c,
           Legacy.collect_archive c (Zip.Archive name (Zip.Members ms))
           = Legacy.Collected (Legacy.all_lines c)
               ((Legacy.stdout c ++ [Legacy.Processing name])
                  ++ [Legacy.NoCsvWarning name])))
  /\ (forall first others,
        Zip.csv_files ms = first :: others ->
        exists m,
          m ∈ ms /\ Zip.member_name m = first
          /\ (forall st i,
                Streaming.process_archive st i (Zip.Archive name (Zip.Members ms))
                = Streaming.process_archive st i
                    (Zip.Archive name (Zip.Members [m])))
          /\ (forall c,
                Bulk.collect_archive c (Zip.Archive name (Zip.Members ms))
                = Bulk.collect_archive c (Zip.Archive name (Zip.Members [m])))
          /\ (forall c,
                Legacy.collect_archive c (Zip.Archive name (Zip.Members ms))
                = Legacy.collect_archive c
                    (Zip.Archive name (Zip.Members [m])))).
Proof.
  split.
  - intros H. repeat split; intros.
    + simpl. unfold Streaming.process_archive. simpl. by rewrite H.
    + unfold Bulk.collect_archive. simpl. by rewrite H.
    + unfold Legacy.collect_archive. simpl. by rewrite H.
  - intros first others H.
    destruct (chosen_member_first _ _ _ H) as (m & Hm & Hn & Ho & Hc1 & Ho1).
    exists m. repeat split; try done; intros.
    + unfold Streaming.process_archive. simpl. by rewrite H, Hc1, Ho, Ho1.
    + unfold Bulk.collect_archive. simpl. by rewrite H, Hc1, Ho, Ho1.
    + unfold Legacy.collect_archive. simpl. by rewrite H, Hc1, Ho, Ho1.
Qed.

Lemma first_data_file_read_witness :
  exists m,
    m ∈ [Zip.Member "first.csv" [candle_line "1"];
         Zip.Member "second.csv" [candle_line "2"]]
    /\ Zip.member_name m = "first.csv"
    /\ forall st i,
         Streaming.process_archive st i two_data_files
         = Streaming.process_archive st i
             (Zip.Archive "BTCUSDT-1s-2017-08.zip" (Zip.Members [m])).
Proof.
  destruct (first_data_file_read "BTCUSDT-1s-2017-08.zip"
              [Zip.Member "first.csv" [candle_line "1"];
               Zip.Member "second.csv" [candle_line "2"]]) as [_ H].
  destruct (H "first.csv" ["second.csv"]) as (m & Hm & Hn & Hs & _);
    [reflexivity|].
  exists m. split; [exact Hm|]. split; [exact Hn|exact Hs].
Defined.

(** C6 as stated fails: an archive with two data files is neither skipped
    nor reported; all three converters silently take the first one. *)
Lemma several_candidates_first_taken :
  Streaming.main (Some [two_data_files])
  = Streaming.Report 0 [Streaming.header; "1,o,h,l,c,v" +:+ Py.nl] 1 0
      [Streaming.Progress 1 "BTCUSDT-1s-2017-08.zip" 1 1]
  /\ Bulk.convert_timeframe (Some [two_data_files])
     = Bulk.Success 1 1 [Bulk.header_row; ["1"; "o"; "h"; "l"; "c"; "v"]]
  /\ Legacy.convert_binance_to_zigquant [two_data_files]
     = Legacy.ReturnTrue [Legacy.header; "1,o,h,l,c,v" +:+ Py.nl].
Proof. repeat split; by vm_compute. Qed.

(** ** The downloader *)

Section DownloadFacts.
Import Download.
Variable net : network.

Lemma on_exception_requests a n w : requests (on_exception a n w) = requests w.
Proof. unfold on_exception. by destruct (a <? n - 1). Qed.

Lemma on_exception_files a n w : files (on_exception a n w) = files w.
Proof. unfold on_exception. by destruct (a <? n - 1). Qed.

Lemma on_exception_slept a n w :
  slept (on_exception a n w)
  = slept w ++ (if a <? n - 1 then [2 ^ a] else []).
Proof.
  unfold on_exception. destruct (a <? n - 1); simpl; [done|].
  by rewrite app_nil_r.
Qed.

(** No loop sends more requests than it has rounds. *)
Lemma attempts_bound url p n todo w :
  requests (attempts net url p n todo w).2 <= requests w + length todo.
Proof.
  revert w; induction todo as [|a todo IH]; intros w; simpl; [lia|].
  destruct (net url (requests w)) as [content|partial|code|]; simpl.
  - lia.
  - etransitivity; [apply IH|]. rewrite on_exception_requests. simpl. lia.
  - destruct (code =? 404)%Z; simpl; [lia|].
    etransitivity; [apply IH|]. simpl. lia.
  - etransitivity; [apply IH|]. rewrite on_exception_requests. simpl. lia.
Qed.

(** When every round ends in the exception handler, all rounds are used,
    the pauses are those of the rounds before the last, the answer is
    [False], and no file but the destination is touched. *)
Lemma attempts_transient url p n todo w :
  (forall k, k < length todo -> transient (net url (requests w + k)) = true) ->
  (attempts net url p n todo w).1 = false
  /\ requests (attempts net url p n todo w).2 = requests w + length todo
  /\ slept (attempts net url p n todo w).2
     = slept w ++ ((fun a => 2 ^ a) <$> filter (fun a => a < n - 1) todo)
  /\ (forall q, q <> p ->
        files (attempts net url p n todo w).2 !! q = files w !! q).
Proof.
  revert w; induction todo as [|a todo IH]; intros w H.
  - simpl. rewrite app_nil_r. repeat split; try done; lia.
  - pose proof (H 0 ltac:(simpl; lia)) as H0. rewrite Nat.add_0_r in H0.
    simpl. rewrite filter_cons.
    destruct (net url (requests w)) as [content|partial|code|]; try done.
    + destruct (IH (on_exception a n (store p partial (send w))))
        as (Hr & Hq & Hs & Hf).
      { intros k Hk. rewrite on_exception_requests. simpl.
        replace (requests w + 1 + k) with (requests w + S k) by lia.
        apply H. simpl. lia. }
      rewrite Hr, Hq, Hs, on_exception_requests, on_exception_slept. simpl.
      repeat split; [lia| |].
      * destruct (Nat.ltb_spec a (n - 1)); destruct (decide (a < n - 1));
          try lia; by rewrite <- ?app_assoc.
      * intros q Hne. rewrite Hf by done. rewrite on_exception_files. simpl.
        by rewrite lookup_insert_ne.
    + destruct (IH (on_exception a n (send w))) as (Hr & Hq & Hs & Hf).
      { intros k Hk. rewrite on_exception_requests. simpl.
        replace (requests w + 1 + k) with (requests w + S k) by lia.
        apply H. simpl. lia. }
      rewrite Hr, Hq, Hs, on_exception_requests, on_exception_slept. simpl.
      repeat split; [lia| |].
      * destruct (Nat.ltb_spec a (n - 1)); destruct (decide (a < n - 1));
          try lia; by rewrite <- ?app_assoc.
      * intros q Hne. rewrite Hf by done. by rewrite on_exception_files.
Qed.

Lemma filter_all {A} (P : A -> Prop) `{!forall x, Decision (P x)} (l : list A) :
  Forall P l -> filter P l = l.
Proof.
  induction 1 as [|x l Hx Hl IH]; [done|].
  rewrite filter_cons_True by done. by f_equal.
Qed.

Lemma filter_lt_seq n : filter (fun a => a < n - 1) (seq 0 n) = seq 0 (n - 1).
Proof.
  destruct n as [|n]; [done|].
  replace (S n - 1) with n by lia.
  replace (S n) with (n + 1) by lia. rewrite seq_app, filter_app. simpl.
  rewrite filter_cons, filter_nil.
  destruct (decide (n < n)); [lia|]. rewrite app_nil_r.
  apply filter_all, Forall_forall. intros a Ha.
  apply elem_of_seq in Ha. lia.
Qed.

(** [download_file] when all its rounds end in the exception handler. *)
Lemma download_file_transient url p n w :
  (forall k, k < n -> transient (net url (requests w + k)) = true) ->
  (download_file net url p n w).1 = false
  /\ requests (download_file net url p n w).2 = requests w + n
  /\ slept (download_file net url p n w).2
     = slept w ++ ((fun a => 2 ^ a) <$> seq 0 (n - 1))
  /\ (forall q, q <> p ->
        files (download_file net url p n w).2 !! q = files w !! q).
Proof.
  intros H. unfold download_file.
  destruct (attempts_transient url p n (seq 0 n) w) as (Hr & Hq & Hs & Hf).
  { by rewrite length_seq. }
  rewrite length_seq in Hq. by rewrite filter_lt_seq in Hs.
Qed.

(** [download_file] when its first request is answered with 404. *)
Lemma download_file_absent url p n w :
  0 < n -> net url (requests w) = HttpError 404 ->
  download_file net url p n w = (false, send w).
Proof.
  intros Hn H. unfold download_file. destruct n as [|n]; [lia|].
  simpl. by rewrite H.
Qed.

Lemma exists_print m p w : exists_ p (print m w) = exists_ p w.
Proof. done. Qed.

Lemma exists_send p w : exists_ p (send w) = exists_ p w.
Proof. done. Qed.

Lemma exists_false p w : exists_ p w = false <-> files w !! p = None.
Proof.
  unfold exists_. rewrite bool_decide_eq_false, <- eq_None_not_Some. done.
Qed.

(** After an unsuccessful [download_file] the caller leaves no file. *)
Lemma cleanup_no_file p w :
  files (if exists_ p w then unlink p w else w) !! p = None.
Proof.
  destruct (exists_ p w) eqn:He.
  - simpl. apply lookup_delete_eq.
  - by apply exists_false.
Qed.

Lemma cleanup_other p q w :
  q <> p -> files (if exists_ p w then unlink p w else w) !! q = files w !! q.
Proof.
  intros Hne. destruct (exists_ p w); [|done]. simpl.
  by apply lookup_delete_ne.
Qed.

Lemma cleanup_requests p w :
  requests (if exists_ p w then unlink p w else w) = requests w
  /\ slept (if exists_ p w then unlink p w else w) = slept w
  /\ stdout (if exists_ p w then unlink p w else w) = stdout w.
Proof. by destruct (exists_ p w). Qed.

End DownloadFacts.

Section FetchFacts.
Import Download.
Variable net : network.

(** One month for which every round of the download ends in the handler. *)
Lemma fetch_transient url p filename c w :
  exists_ p w = false ->
  (forall k, k < 3 -> transient (net url (requests w + k)) = true) ->
  (fetch net url p filename c w).1
  = Counts (downloaded c) (skipped c) (failed c + 1)
  /\ requests (fetch net url p filename c w).2 = requests w + 3
  /\ slept (fetch net url p filename c w).2 = slept w ++ [1; 2]
  /\ files (fetch net url p filename c w).2 !! p = None
  /\ (forall q, q <> p ->
        files (fetch net url p filename c w).2 !! q = files w !! q)
  /\ last (stdout (fetch net url p filename c w).2) = Some NotFound.
Proof.
  intros He H. unfold fetch. rewrite He.
  destruct (download_file_transient net url p 3 (print (Downloading filename) w))
    as (Hr & Hq & Hs & Hf); [done|].
  destruct (download_file net url p 3 (print (Downloading filename) w))
    as [b w1]. simpl in Hr, Hq, Hs, Hf. subst b. simpl.
  destruct (cleanup_requests p w1) as (Cq & Cs & Co).
  rewrite Cq, Cs, Hq, Hs. repeat split; try done.
  - apply cleanup_no_file.
  - intros q Hne. rewrite cleanup_other by done. by apply Hf.
  - apply last_snoc.
Qed.

(** One month whose file is answered with 404. *)
Lemma fetch_absent url p filename c w :
  exists_ p w = false -> net url (requests w) = HttpError 404 ->
  fetch net url p filename c w
  = (Counts (downloaded c) (skipped c) (failed c + 1),
     print NotFound (send (print (Downloading filename) w))).
Proof.
  intros He H. unfold fetch. rewrite He.
  rewrite download_file_absent; [|lia|done].
  by rewrite exists_send, exists_print, He.
Qed.

End FetchFacts.

(** [download_file] itself returns with the partial file still in place;
    it is the caller that removes it. *)
Example download_file_leaves_partial :
  (Download.download_file (fun _ _ => Download.Truncated "PK")
     january_url january_path 3 fresh).1 = false
  /\ Download.files
       (Download.download_file (fun _ _ => Download.Truncated "PK")
          january_url january_path 3 fresh).2 !! january_path = Some "PK".
Proof. split; by vm_compute. Qed.

(** C8.  A download never sends more requests than its budget.  When all
    rounds end in an exception other than an HTTP error, the budget is used
    up, the pauses between the rounds are 1, 2, 4, ... seconds, each the
    double of the one before, and the answer is [False].  With the budget
    of three that [download_timeframe] uses, the month is counted as
    failed after three requests and pauses of 1 and 2 seconds, and no file
    is left at the destination; other files are not touched. *)
Theorem transient_errors_exhaust_budget (net : Download.network) :
  (forall url p n w,
     Download.requests (Download.download_file net url p n w).2
     <= Download.requests w + n)
  /\ (forall url p n w,
        (forall k, k < n ->
           transient (net url (Download.requests w + k)) = true) ->
        (Download.download_file net url p n w).1 = false
        /\ Download.requests (Download.download_file net url p n w).2
           = Download.requests w + n
        /\ Download.slept (Download.download_file net url p n w).2
           = Download.slept w ++ ((fun a => 2 ^ a) <$> seq 0 (n - 1)))
  /\ (forall url p filename c w,
        Download.exists_ p w = false ->
        (forall k, k < 3 ->
           transient (net url (Download.requests w + k)) = true) ->
        (Download.fetch net url p filename c w).1
        = Download.Counts (Download.downloaded c) (Download.skipped c)
            (Download.failed c + 1)
        /\ Download.requests (Download.fetch net url p filename c w).2
           = Download.requests w + 3
        /\ Download.slept (Download.fetch net url p filename c w).2
           = Download.slept w ++ [1; 2]
        /\ Download.files (Download.fetch net url p filename c w).2 !! p = None
        /\ (forall q, q <> p ->
              Download.files (Download.fetch net url p filename c w).2 !! q
              = Download.files w !! q)).
Proof.
  split; [|split].
  - intros url p n w. unfold Download.download_file.
    etransitivity; [apply attempts_bound|]. by rewrite length_seq.
  - intros url p n w H.
    destruct (download_file_transient net url p n w H) as (? & ? & ? & _).
    done.
  - intros url p filename c w He H.
    destruct (fetch_transient net url p filename c w He H)
      as (? & ? & ? & ? & ? & _).
    done.
Qed.

Lemma transient_errors_exhaust_budget_witness :
  Download.files
    (Download.fetch (fun _ _ => Download.Truncated "PK")
       january_url january_path january (Download.Counts 0 0 0) fresh).2
    !! january_path = None
  /\ Download.slept
       (Download.fetch (fun _ _ => Download.Truncated "PK")
          january_url january_path january (Download.Counts 0 0 0) fresh).2
     = [1; 2].
Proof.
  destruct (transient_errors_exhaust_budget (fun _ _ => Download.Truncated "PK"))
    as (_ & _ & H).
  destruct (H january_url january_path january (Download.Counts 0 0 0) fresh)
    as (_ & _ & Hs & Hf & _); [reflexivity|reflexivity|].
  split; [exact Hf|exact Hs].
Defined.

(** C7, as the code has it.  When the first request is answered with 404,
    [download_file] returns [False] after this one request, without a pause
    and without touching a file, and [download_timeframe] counts the month
    as failed and prints "Not found".  After a download that used up its
    budget on other errors the caller sees the same: the same return value,
    the same counters and the same last line. *)
Theorem absent_resource_single_attempt (net : Download.network)
    (url p filename : string) (c : Download.counts) (w : Download.world) :
  net url (Download.requests w) = Download.HttpError 404 ->
  Download.exists_ p w = false ->
  (forall n, 0 < n ->
     Download.download_file net url p n w = (false, Download.send w))
  /\ Download.fetch net url p filename c w
     = (Download.Counts (Download.downloaded c) (Download.skipped c)
          (Download.failed c + 1),
        Download.print Download.NotFound
          (Download.send (Download.print (Download.Downloading filename) w)))
  /\ (forall net' : Download.network,
        (forall k, k < 3 ->
           transient (net' url (Download.requests w + k)) = true) ->
        (Download.download_file net' url p 3 w).1
        = (Download.download_file net url p 3 w).1
        /\ (Download.fetch net' url p filename c w).1
           = (Download.fetch net url p filename c w).1
        /\ last (Download.stdout (Download.fetch net' url p filename c w).2)
           = last (Download.stdout (Download.fetch net url p filename c w).2)).
Proof.
  intros H He. split; [|split].
  - intros n Hn. by apply download_file_absent.
  - by apply fetch_absent.
  - intros net' H'.
    rewrite (fetch_absent net url p filename c w He H).
    rewrite (download_file_absent net url p 3 w) by (done || lia).
    destruct (download_file_transient net' url p 3 w H') as (-> & _).
    destruct (fetch_transient net' url p filename c w He H')
      as (-> & _ & _ & _ & _ & ->).
    simpl. by rewrite last_snoc.
Qed.

Lemma absent_resource_single_attempt_witness :
  Download.download_file absent_upstream january_url january_path 3 fresh
  = (false, Download.send fresh).
Proof.
  destruct (absent_resource_single_attempt absent_upstream january_url
              january_path january (Download.Counts 0 0 0) fresh)
    as (H & _); [reflexivity|reflexivity|].
  apply H. lia.
Defined.

(** C7 as stated fails: a file that is absent upstream and a server that
    cannot be reached give the same return value and the same counters,
    although the first costs one request and the second three. *)
Lemma absent_and_failed_look_alike :
  (Download.download_file absent_upstream january_url january_path 3 fresh).1
  = (Download.download_file unreachable january_url january_path 3 fresh).1
  /\ Download.requests
       (Download.download_file absent_upstream january_url january_path 3 fresh).2
     = 1
  /\ Download.requests
       (Download.download_file unreachable january_url january_path 3 fresh).2
     = 3
  /\ (Download.fetch absent_upstream january_url january_path january
        (Download.Counts 0 0 0) fresh).1
     = Download.Counts 0 0 1
  /\ (Download.fetch unreachable january_url january_path january
        (Download.Counts 0 0 0) fresh).1
     = Download.Counts 0 0 1
  /\ last (Download.stdout
             (Download.fetch absent_upstream january_url january_path january
                (Download.Counts 0 0 0) fresh).2)
     = Some Download.NotFound
  /\ last (Download.stdout
             (Download.fetch unreachable january_url january_path january
                (Download.Counts 0 0 0) fresh).2)
     = Some Download.NotFound.
Proof. repeat split; by vm_compute. Qed.

(** ** Bulk mode *)

Section BulkFacts.
Import Bulk.

Lemma Zleb_refl k : (k <=? k)%Z = true.
Proof. apply Z.leb_refl. Qed.

Lemma Zleb_total (a b : Z) : (a <=? b)%Z = false -> (b <=? a)%Z = true.
Proof. rewrite Z.leb_gt, Z.leb_le. lia. Qed.

Lemma Zleb_trans (a b c : Z) :
  (a <=? b)%Z = true -> (b <=? c)%Z = true -> (a <=? c)%Z = true.
Proof. rewrite !Z.leb_le. lia. Qed.

(** The sort succeeds when every timestamp is an integer, and then is the
    stable sort by that integer. *)
Lemma sort_rows_Some rows sorted_rows :
  sort_rows rows = Some sorted_rows ->
  Forall (fun r => is_Some (sort_key r)) rows
  /\ sorted_rows = Py.sorted_by Z.leb key_of rows.
Proof.
  unfold sort_rows. intros H.
  destruct (mapM _ rows) as [keyed|] eqn:Hm; [|done]. simpl in H.
  injection H as <-. apply mapM_Some in Hm.
  assert (Forall (fun r => is_Some (sort_key r)) rows
          /\ keyed = (fun x => (key_of x, x)) <$> rows) as [HF ->].
  { induction Hm as [|r [k r'] rows keyed Hr Hm [IH1 IH2]]; [done|].
    unfold key_of. destruct (sort_key r) as [k'|] eqn:Hk; [|done].
    simpl in Hr. injection Hr as -> ->. split; [by constructor|].
    rewrite fmap_cons, Hk. simpl. by f_equal. }
  split; [done|]. apply sorted_by_decorated.
Qed.

Lemma sort_rows_is_Some rows :
  Forall (fun r => is_Some (sort_key r)) rows ->
  sort_rows rows = Some (Py.sorted_by Z.leb key_of rows).
Proof.
  intros HF. unfold sort_rows.
  assert (mapM (fun x => k ← sort_key x; Some (k, x)) rows
          = Some ((fun x => (key_of x, x)) <$> rows)) as ->.
  { apply mapM_Some. induction HF as [|r rows [k Hk] HF IH]; [constructor|].
    rewrite fmap_cons. constructor; [|done].
    unfold key_of. by rewrite Hk. }
  simpl. by rewrite sorted_by_decorated.
Qed.

(** The removal loop, by the rows it keeps. *)
Lemma foldl_unique_step seen acc rows :
  foldl unique_step (seen, acc) rows
  = (list_to_set (timestamp_of <$> rows) ∪ seen, acc ++ first_seen seen rows).
Proof.
  revert seen acc; induction rows as [|r rows IH]; intros seen acc.
  - simpl. f_equal; [set_solver|by rewrite app_nil_r].
  - simpl. unfold unique_step at 2. simpl. fold (timestamp_of r).
    destruct (decide (timestamp_of r ∈ seen)) as [Hin|Hin].
    + rewrite IH. f_equal. set_solver.
    + rewrite IH. rewrite <- app_assoc. f_equal. set_solver.
Qed.

Lemma unique_rows_first_seen rows : unique_rows rows = first_seen ∅ rows.
Proof. unfold unique_rows. by rewrite foldl_unique_step. Qed.

(** Kept rows are rows of the list, in the order of the list. *)
Lemma first_seen_sublist seen rows : sublist (first_seen seen rows) rows.
Proof.
  revert seen; induction rows as [|r rows IH]; intros seen; simpl; [done|].
  destruct (decide _); [by apply sublist_cons|by apply sublist_skip].
Qed.

Lemma first_seen_fresh seen rows r :
  r ∈ first_seen seen rows -> timestamp_of r ∉ seen.
Proof.
  revert seen; induction rows as [|r' rows IH]; intros seen; simpl.
  - by intros ?%elem_of_nil.
  - destruct (decide _) as [Hin|Hin]; [by apply IH|].
    intros [->|Hr]%elem_of_cons; [done|].
    apply IH in Hr. intros Hs. apply Hr. apply elem_of_union. by right.
Qed.

(** No timestamp text is kept twice. *)
Lemma first_seen_NoDup seen rows :
  NoDup (timestamp_of <$> first_seen seen rows).
Proof.
  revert seen; induction rows as [|r rows IH]; intros seen; simpl.
  - constructor.
  - destruct (decide _) as [Hin|Hin]; [by apply IH|].
    rewrite fmap_cons. constructor; [|by apply IH].
    intros (r' & Heq & Hr')%list_elem_of_fmap.
    apply first_seen_fresh in Hr'. apply Hr'. rewrite <- Heq.
    apply elem_of_union. left. by apply elem_of_singleton.
Qed.

(** Every timestamp text of the list was seen before or is kept. *)
Lemma first_seen_covers seen rows r :
  r ∈ rows ->
  timestamp_of r ∈ seen
  \/ timestamp_of r ∈ timestamp_of <$> first_seen seen rows.
Proof.
  revert seen; induction rows as [|r' rows IH]; intros seen.
  - by intros ?%elem_of_nil.
  - simpl. intros [->|Hr]%elem_of_cons.
    + destruct (decide _) as [Hin|Hin]; [by left|].
      right. rewrite fmap_cons. by left.
    + destruct (decide (timestamp_of r' ∈ seen)) as [Hin|Hin]; [by apply IH|].
      destruct (IH ({[timestamp_of r']} ∪ seen) Hr) as [Hs|Hk].
      * apply elem_of_union in Hs as [->%elem_of_singleton|Hs]; [|by left].
        right. rewrite fmap_cons. by left.
      * right. rewrite fmap_cons. by right.
Qed.

(** The last row of a list is kept exactly when no earlier row carries its
    timestamp text. *)
Lemma first_seen_snoc seen rows r :
  first_seen seen (rows ++ [r])
  = first_seen seen rows
    ++ (if decide (timestamp_of r ∈ seen
                   \/ timestamp_of r ∈ timestamp_of <$> rows)
        then [] else [r]).
Proof.
  revert seen; induction rows as [|r' rows IH]; intros seen.
  - simpl. destruct (decide (timestamp_of r ∈ seen)) as [Hin|Hin].
    + by rewrite decide_True by (by left).
    + rewrite decide_False; [done|]. intros [?|?%elem_of_nil]; done.
  - change ((r' :: rows) ++ [r]) with (r' :: (rows ++ [r])).
    cbn [first_seen]. destruct (decide (timestamp_of r' ∈ seen)) as [Hin|Hin].
    + rewrite IH. f_equal. rewrite fmap_cons.
      apply decide_ext. rewrite elem_of_cons.
      split; [tauto|]. intros [?|[->|?]]; tauto.
    + rewrite IH. rewrite <- app_comm_cons. do 2 f_equal. rewrite fmap_cons.
      apply decide_ext. rewrite elem_of_cons, elem_of_union, elem_of_singleton.
      tauto.
Qed.

(** Rows with pairwise different timestamp texts are all kept. *)
Lemma first_seen_all seen rows :
  NoDup (timestamp_of <$> rows) ->
  (forall r, r ∈ rows -> timestamp_of r ∉ seen) ->
  first_seen seen rows = rows.
Proof.
  revert seen; induction rows as [|r rows IH]; intros seen Hnd Hfresh; [done|].
  rewrite fmap_cons in Hnd. apply NoDup_cons in Hnd as [Hr Hnd].
  simpl. rewrite decide_False by (apply Hfresh; by left).
  f_equal. apply IH; [done|]. intros r' Hr' Hin.
  apply elem_of_union in Hin as [Heq%elem_of_singleton|Hin].
  - apply Hr. rewrite <- Heq. by apply list_elem_of_fmap_2.
  - revert Hin. apply Hfresh. by right.
Qed.

Lemma first_seen_app seen rows1 rows2 :
  first_seen seen (rows1 ++ rows2)
  = first_seen seen rows1
    ++ first_seen (list_to_set (timestamp_of <$> rows1) ∪ seen) rows2.
Proof.
  revert seen; induction rows1 as [|r rows1 IH]; intros seen.
  - simpl. f_equal. set_solver.
  - change ((r :: rows1) ++ rows2) with (r :: (rows1 ++ rows2)).
    cbn [first_seen]. rewrite fmap_cons, list_to_set_cons.
    destruct (decide (timestamp_of r ∈ seen)) as [Hin|Hin].
    + rewrite IH. do 2 f_equal. set_solver.
    + rewrite IH, <- app_comm_cons. do 3 f_equal. set_solver.
Qed.

(** A row is kept when no row before it carries its timestamp text. *)
Lemma first_seen_keeps before r after :
  timestamp_of r ∉ timestamp_of <$> before ->
  r ∈ first_seen ∅ (before ++ r :: after).
Proof.
  intros Hr. rewrite first_seen_app. apply elem_of_app. right.
  cbn [first_seen]. rewrite decide_False; [by left|].
  rewrite elem_of_union, elem_of_list_to_set.
  intros [?|?%not_elem_of_empty]; done.
Qed.

Lemma key_of_timestamp r1 r2 :
  timestamp_of r1 = timestamp_of r2 -> key_of r1 = key_of r2.
Proof. unfold key_of, sort_key, timestamp_of. by intros ->. Qed.

(** In a list sorted by the integer in which equal integers are written
    with equal text, the seen texts are those of the last kept row: the
    removal loop removes what equals the immediately preceding kept row.
    [pre] are the rows already passed. *)
Lemma first_seen_adjacent pre rows seen :
  (forall s, s ∈ seen <-> s ∈ timestamp_of <$> pre) ->
  StronglySorted (fun a b => (key_of a <=? key_of b)%Z = true) (pre ++ rows) ->
  (forall r1 r2, r1 ∈ pre ++ rows -> r2 ∈ pre ++ rows ->
     key_of r1 = key_of r2 -> timestamp_of r1 = timestamp_of r2) ->
  first_seen seen rows
  = remove_adjacent timestamp_of (timestamp_of <$> last pre) rows.
Proof.
  revert pre seen; induction rows as [|r rows IH]; intros pre seen Hseen Hs Hc;
    [done|].
  simpl. destruct (decide (timestamp_of r ∈ seen)) as [Hin|Hin].
  - (* the text was seen: it is the text of the last row passed *)
    apply Hseen, list_elem_of_fmap in Hin as (r' & Heq & Hr').
    destruct (last pre) as [z|] eqn:Hz;
      [|apply last_None in Hz; subst pre; by apply elem_of_nil in Hr'].
    assert (z ∈ pre) as Hzin by (by eapply last_Some_elem_of).
    assert ((key_of r' <=? key_of z)%Z = true) as H1.
    { apply last_Some in Hz as [pre' ->].
      apply elem_of_app in Hr' as [Hr'|Hr'];
        [|apply list_elem_of_singleton in Hr'; subst r'; apply Z.leb_refl].
      rewrite <- app_assoc in Hs.
      eapply (StronglySorted_app_1_elem_of _ _ _ r' z) in Hs; [done|done|].
      by left. }
    assert ((key_of z <=? key_of r)%Z = true) as H2.
    { eapply (StronglySorted_app_1_elem_of _ _ _ z r) in Hs; [done|done|].
      by left. }
    assert (timestamp_of z = timestamp_of r) as Hzr.
    { apply Hc; [set_solver|set_solver|].
      apply key_of_timestamp in Heq. apply Z.leb_le in H1, H2. lia. }
    simpl. rewrite decide_True by (by rewrite Hzr).
    rewrite (IH pre seen); [by rewrite Hz|done| |].
    + apply StronglySorted_app in Hs as (H12 & Hp & Hr).
      apply StronglySorted_app. split; [|split; [done|by inversion Hr]].
      intros x1 x2 Hx1 Hx2. apply H12; [done|by right].
    + intros r1 r2 Hr1 Hr2. apply Hc; set_solver.
  - (* a new text: it differs from the text of the last row passed *)
    assert (Some (timestamp_of r) <> timestamp_of <$> last pre) as Hne.
    { intros Heq. apply Hin, Hseen.
      destruct (last pre) as [z|] eqn:Hz; [|done].
      simpl in Heq. injection Heq as ->.
      apply list_elem_of_fmap_2. by eapply last_Some_elem_of. }
    rewrite decide_False by done. f_equal. rewrite (IH (pre ++ [r]) ({[timestamp_of r]} ∪ seen)).
    + by rewrite last_snoc.
    + intros s'. rewrite fmap_app, elem_of_app, elem_of_union, Hseen.
      rewrite elem_of_singleton. simpl. rewrite list_elem_of_singleton. tauto.
    + by rewrite <- app_assoc.
    + by rewrite <- app_assoc.
Qed.

End BulkFacts.

Lemma StronglySorted_weaken {A} (R R' : relation A) (l : list A) :
  (forall a b, R a b -> R' a b) -> StronglySorted R l -> StronglySorted R' l.
Proof.
  intros HR. induction 1 as [|x l Hl IH Hx]; constructor; [done|].
  eapply Forall_impl; [exact Hx|]. intros y. apply HR.
Qed.

(** C2, as the code has it.  [convert_timeframe] sorts the collected rows
    by the integer value of the timestamp, ascending and stably, and then
    keeps a row exactly when no earlier row of the sorted list carries the
    same timestamp text (the first occurrence wins): the kept rows are in
    sorted order, no text occurs twice and every text of the input occurs.
    When equal integers are always written with the same text, this is
    the removal of every row that equals the immediately preceding kept
    row.  For the timestamps 5, 3, 5, 1, 3 the rows written are those of
    1, 3, 5, and the result reports 3 candles. *)
Theorem bulk_sort_then_first_seen :
  (forall rows sorted_rows,
     Bulk.sort_rows rows = Some sorted_rows ->
     sorted_rows ≡ₚ rows
     /\ StronglySorted (fun a b => (key_of a <= key_of b)%Z) sorted_rows
     /\ (forall k, filter (fun r => key_of r = k) sorted_rows
                   = filter (fun r => key_of r = k) rows)
     /\ sublist (Bulk.unique_rows sorted_rows) sorted_rows
     /\ NoDup (timestamp_of <$> Bulk.unique_rows sorted_rows)
     /\ (forall r, r ∈ rows ->
           timestamp_of r ∈ timestamp_of <$> Bulk.unique_rows sorted_rows)
     /\ ((forall r1 r2, r1 ∈ rows -> r2 ∈ rows ->
            key_of r1 = key_of r2 -> timestamp_of r1 = timestamp_of r2) ->
         Bulk.unique_rows sorted_rows
         = remove_adjacent timestamp_of None sorted_rows))
  /\ (forall before r,
        Bulk.unique_rows (before ++ [r])
        = Bulk.unique_rows before
          ++ (if decide (timestamp_of r ∈ timestamp_of <$> before)
              then [] else [r]))
  /\ (forall found files candles written,
        Bulk.convert_timeframe (Some found) = Bulk.Success files candles written ->
        exists sorted_rows,
          Bulk.sort_rows (Bulk.all_rows (Bulk.collect (Zip.sorted found)))
          = Some sorted_rows
          /\ written = Bulk.header_row :: Bulk.unique_rows sorted_rows
          /\ candles = length (Bulk.unique_rows sorted_rows))
  /\ Bulk.convert_timeframe (Some [shuffled])
     = Bulk.Success 1 3 [Bulk.header_row; row_of "1"; row_of "3"; row_of "5"].
Proof.
  split; [|split; [|split]].
  - intros rows sorted_rows [Hkeys ->]%sort_rows_Some.
    pose proof (sorted_by_Permutation Z.leb key_of rows) as Hperm.
    pose proof (sorted_by_Sorted Z.leb key_of rows Zleb_total Zleb_trans)
      as Hsorted.
    rewrite !unique_rows_first_seen.
    split; [done|]. split.
    { eapply StronglySorted_weaken; [|exact Hsorted]. intros a b.
      apply Z.leb_le. }
    split; [intros k; by apply sorted_by_stable, Zleb_refl|].
    split; [apply first_seen_sublist|].
    split; [apply first_seen_NoDup|].
    split.
    + intros r Hr. rewrite <- Hperm in Hr.
      destruct (first_seen_covers ∅ _ r Hr) as [Hin|Hin]; [|done].
      by apply not_elem_of_empty in Hin.
    + intros Hc. apply (first_seen_adjacent []); [|done|].
      * intros s. rewrite fmap_nil. split; [by intros ?%not_elem_of_empty|].
        by intros ?%elem_of_nil.
      * intros r1 r2 Hr1 Hr2. simpl in Hr1, Hr2.
        rewrite Hperm in Hr1, Hr2. by apply Hc.
  - intros before r. rewrite !unique_rows_first_seen, first_seen_snoc.
    f_equal. apply decide_ext. split; [|tauto].
    intros [Hin|Hin]; [|done]. by apply not_elem_of_empty in Hin.
  - intros found files candles written. unfold Bulk.convert_timeframe.
    destruct (Zip.sorted found) as [|a zs]; [done|].
    destruct (Bulk.all_rows (Bulk.collect (a :: zs))) as [|r rows]; [done|].
    destruct (Bulk.sort_rows (r :: rows)) as [sorted_rows|]; [|done].
    intros [= <- <- <-]. by exists sorted_rows.
  - by vm_compute.
Qed.

Lemma bulk_sort_then_first_seen_witness :
  Bulk.unique_rows [row_of "1"; row_of "3"; row_of "3"; row_of "5"; row_of "5"]
  = remove_adjacent timestamp_of None
      [row_of "1"; row_of "3"; row_of "3"; row_of "5"; row_of "5"].
Proof.
  destruct bulk_sort_then_first_seen as [H _].
  destruct (H [row_of "5"; row_of "3"; row_of "5"; row_of "1"; row_of "3"]
              [row_of "1"; row_of "3"; row_of "3"; row_of "5"; row_of "5"])
    as (_ & _ & _ & _ & _ & _ & Hadj); [reflexivity|].
  apply Hadj. intros r1 r2 Hr1 Hr2.
  repeat (apply elem_of_cons in Hr1 as [->|Hr1]);
    try (by apply elem_of_nil in Hr1);
    repeat (apply elem_of_cons in Hr2 as [->|Hr2]);
    try (by apply elem_of_nil in Hr2); by vm_compute.
Defined.

(** C2 as stated fails.  Of three rows with the timestamps 5, 05 and 5
    the third is removed although the kept row before it carries another
    text, and the second is kept although it has the integer of the kept
    row before it; and the older converter, on the timestamps 5, 3, 5, 1,
    3, writes all five lines. *)
Lemma bulk_removal_not_adjacent :
  Bulk.sort_rows [row_of "5"; row_of "05"; row_of "5"]
  = Some [row_of "5"; row_of "05"; row_of "5"]
  /\ Bulk.unique_rows [row_of "5"; row_of "05"; row_of "5"]
     = [row_of "5"; row_of "05"]
  /\ remove_adjacent timestamp_of None [row_of "5"; row_of "05"; row_of "5"]
     = [row_of "5"; row_of "05"; row_of "5"]
  /\ remove_adjacent key_of None [row_of "5"; row_of "05"; row_of "5"]
     = [row_of "5"]
  /\ Bulk.convert_timeframe (Some [leading_zero])
     = Bulk.Success 1 2 [Bulk.header_row; row_of "5"; row_of "05"]
  /\ Legacy.convert_binance_to_zigquant [shuffled]
     = Legacy.ReturnTrue
         [Legacy.header; "1,o,h,l,c,v" +:+ Py.nl; "3,o,h,l,c,v" +:+ Py.nl;
          "3,o,h,l,c,v" +:+ Py.nl; "5,o,h,l,c,v" +:+ Py.nl;
          "5,o,h,l,c,v" +:+ Py.nl].
Proof. repeat split; by vm_compute. Qed.

(** ** Timestamps are compared as text *)

Section TextComparison.
Import Streaming.

(** A record is written when its timestamp text is not the remembered
    one. *)
Lemma new_text_written st d p :
  record_of d = Some p -> last_timestamp st <> Some (p !!! 0) ->
  outfile (process_line st d) = outfile st ++ [format_candle p]
  /\ file_duplicates (process_line st d) = file_duplicates st.
Proof.
  intros H Hlast. pose proof (process_line_cases st d) as C.
  rewrite H in C. rewrite decide_False in C by congruence. by rewrite C.
Qed.

(** Two records in a row with different timestamp texts: the second is
    always written, the first unless it repeats the text before it. *)
Lemma two_records_written st d1 d2 p1 p2 :
  record_of d1 = Some p1 -> record_of d2 = Some p2 ->
  p1 !!! 0 <> p2 !!! 0 -> last_timestamp st <> Some (p1 !!! 0) ->
  outfile (process_line (process_line st d1) d2)
  = outfile st ++ [format_candle p1; format_candle p2]
  /\ file_duplicates (process_line (process_line st d1) d2)
     = file_duplicates st.
Proof.
  intros H1 H2 Hne Hlast.
  pose proof (process_line_cases st d1) as C1. rewrite H1 in C1.
  rewrite decide_False in C1 by congruence. rewrite C1.
  match goal with |- context [process_line ?st1 d2] =>
    pose proof (process_line_cases st1 d2) as C2 end.
  rewrite H2 in C2. simpl in C2.
  rewrite decide_False in C2 by congruence.
  rewrite C2. simpl. by rewrite <- app_assoc.
Qed.

End TextComparison.

(** C10.  Duplicates are recognised by the text of the timestamp field.
    In streaming mode a record is written whenever its text differs from
    the remembered one, whatever integers the texts denote; so of two
    records in a row whose texts differ both are written, unless the first
    repeats the text before it.  In bulk mode a row is kept whenever no
    earlier row of the sorted list carries its text; rows with pairwise
    different texts are all kept, so two rows with one integer and two
    texts are both written.  A timestamp with and without
    a leading zero gives two records in both modes; a timestamp in
    milliseconds and its microsecond form give two records in streaming
    mode, which the fixer then writes with the same timestamp. *)
Theorem duplicates_compared_as_text :
  (forall st d p,
     record_of d = Some p ->
     Streaming.last_timestamp st <> Some (p !!! 0) ->
     Streaming.outfile (Streaming.process_line st d)
     = Streaming.outfile st ++ [Streaming.format_candle p]
     /\ Streaming.file_duplicates (Streaming.process_line st d)
        = Streaming.file_duplicates st)
  /\ (forall before r after,
        timestamp_of r ∉ timestamp_of <$> before ->
        r ∈ Bulk.unique_rows (before ++ r :: after))
  /\ (forall st d1 d2 p1 p2,
     record_of d1 = Some p1 -> record_of d2 = Some p2 ->
     p1 !!! 0 <> p2 !!! 0 ->
     Streaming.last_timestamp st <> Some (p1 !!! 0) ->
     Streaming.outfile (Streaming.process_line (Streaming.process_line st d1) d2)
     = Streaming.outfile st
       ++ [Streaming.format_candle p1; Streaming.format_candle p2]
     /\ Streaming.file_duplicates
          (Streaming.process_line (Streaming.process_line st d1) d2)
        = Streaming.file_duplicates st)
  /\ (forall rows sorted_rows,
        Bulk.sort_rows rows = Some sorted_rows ->
        NoDup (timestamp_of <$> rows) ->
        Bulk.unique_rows sorted_rows = sorted_rows)
  /\ (forall r1 r2 k,
        Bulk.sort_key r1 = Some k -> Bulk.sort_key r2 = Some k ->
        timestamp_of r1 <> timestamp_of r2 ->
        Bulk.sort_rows [r1; r2] = Some [r1; r2]
        /\ Bulk.unique_rows [r1; r2] = [r1; r2])
  /\ Streaming.written (Streaming.main (Some [two_spellings]))
     = [Streaming.header; "5,o,h,l,c,v" +:+ Py.nl; "05,o,h,l,c,v" +:+ Py.nl]
  /\ Bulk.convert_timeframe (Some [two_spellings])
     = Bulk.Success 1 2 [Bulk.header_row; row_of "5"; row_of "05"]
  /\ Streaming.written (Streaming.main (Some [two_units]))
     = [Streaming.header; "1735689600000,o,h,l,c,v" +:+ Py.nl;
        "1735689600000000,o,h,l,c,v" +:+ Py.nl]
  /\ Fix.outfile (Fix.main (Streaming.written (Streaming.main (Some [two_units]))))
     = [Streaming.header; "1735689600000,o,h,l,c,v" +:+ Py.nl;
        "1735689600000,o,h,l,c,v" +:+ Py.nl].
Proof.
  split; [|split; [|split; [|split; [|split; [|repeat split; by vm_compute]]]]].
  - apply new_text_written.
  - intros before r after Hr. rewrite unique_rows_first_seen.
    by apply first_seen_keeps.
  - apply two_records_written.
  - intros rows sorted_rows [_ ->]%sort_rows_Some Hnd.
    rewrite unique_rows_first_seen. apply first_seen_all.
    + by rewrite sorted_by_Permutation.
    + intros r _. apply not_elem_of_empty.
  - intros r1 r2 k H1 H2 Hne.
    assert (Bulk.sort_rows [r1; r2] = Some [r1; r2]) as Hs.
    { rewrite sort_rows_is_Some.
      - simpl. unfold key_of. rewrite H1, H2. simpl. by rewrite Z.leb_refl.
      - repeat constructor; by eexists. }
    split; [done|]. rewrite unique_rows_first_seen. apply first_seen_all.
    + repeat constructor; [|by intros ?%elem_of_nil].
      intros Hin%list_elem_of_singleton. done.
    + intros r _. apply not_elem_of_empty.
Qed.

Lemma duplicates_compared_as_text_witness :
  Bulk.sort_rows [row_of "5"; row_of "05"] = Some [row_of "5"; row_of "05"]
  /\ Bulk.unique_rows [row_of "5"; row_of "05"] = [row_of "5"; row_of "05"]
  /\ Streaming.outfile
       (Streaming.process_line
          (Streaming.process_line Streaming.initial "5,o,h,l,c,v")
          "05,o,h,l,c,v")
     = Streaming.outfile Streaming.initial
       ++ [Streaming.format_candle (row_of "5");
           Streaming.format_candle (row_of "05")].
Proof.
  destruct duplicates_compared_as_text as (_ & _ & Hstream & _ & Hbulk & _).
  destruct (Hbulk (row_of "5") (row_of "05") 5%Z) as [Hs Hu];
    [reflexivity|reflexivity|by vm_compute|].
  split; [exact Hs|]. split; [exact Hu|].
  apply (Hstream Streaming.initial "5,o,h,l,c,v" "05,o,h,l,c,v"
           (row_of "5") (row_of "05")); by vm_compute.
Defined.

(** * Further properties *)

(** ** The downloader: single files *)

Section DownloadMore.
Import Download.
Variable net : network.

Lemma retriable_cases a :
  retriable a = true ->
  (exists partial, a = Truncated partial) \/ a = Transport
  \/ (exists code, a = HttpError code /\ (code =? 404)%Z = false).
Proof.
  destruct a as [content|partial|code|]; simpl; try done; eauto.
  intros H%negb_true_iff. eauto.
Qed.

(** One round that does not decide: the loop goes on after one request. *)
Lemma attempts_retry url p n a todo w :
  retriable (net url (requests w)) = true ->
  exists w1, attempts net url p n (a :: todo) w = attempts net url p n todo w1
             /\ requests w1 = requests w + 1.
Proof.
  intros H. simpl.
  destruct (retriable_cases _ H) as [[partial ->]|[->|(code & -> & ->)]].
  - eexists. split; [done|]. by rewrite on_exception_requests.
  - eexists. split; [done|]. by rewrite on_exception_requests.
  - eexists. split; [done|]. done.
Qed.

(** The loop stops at the first answer that is a body or a 404. *)
Lemma attempts_decisive url p n todo w k :
  k < length todo ->
  (forall j, j < k -> retriable (net url (requests w + j)) = true) ->
  (forall content,
     net url (requests w + k) = Served content ->
     (attempts net url p n todo w).1 = true
     /\ requests (attempts net url p n todo w).2 = requests w + k + 1
     /\ files (attempts net url p n todo w).2 !! p = Some content)
  /\ (net url (requests w + k) = HttpError 404 ->
      (attempts net url p n todo w).1 = false
      /\ requests (attempts net url p n todo w).2 = requests w + k + 1).
Proof.
  revert todo w; induction k as [|k IH]; intros todo w Hk Hre.
  - destruct todo as [|a todo]; [simpl in Hk; lia|].
    rewrite Nat.add_0_r. split.
    + intros content H. simpl. rewrite H. simpl.
      split; [done|]. split; [lia|]. apply lookup_insert_eq.
    + intros H. simpl. rewrite H. simpl. split; [done|lia].
  - destruct todo as [|a todo]; [simpl in Hk; lia|].
    destruct (attempts_retry url p n a todo w) as (w1 & -> & Hw1).
    { specialize (Hre 0 ltac:(lia)). by rewrite Nat.add_0_r in Hre. }
    replace (requests w + S k) with (requests w1 + k) by lia.
    replace (requests w + S k + 1) with (requests w1 + k + 1) by lia.
    apply IH; [simpl in Hk; lia|].
    intros j Hj. replace (requests w1 + j) with (requests w + S j) by lia.
    apply Hre. lia.
Qed.

(** Whatever the answers, [download_file] leaves all other files alone. *)
Lemma attempts_frame url p n todo w q :
  q <> p -> files (attempts net url p n todo w).2 !! q = files w !! q.
Proof.
  intros Hq. revert w; induction todo as [|a todo IH]; intros w; [done|].
  simpl. destruct (net url (requests w)) as [content|partial|code|]; simpl.
  - by rewrite lookup_insert_ne.
  - rewrite IH, on_exception_files. simpl. by rewrite lookup_insert_ne.
  - destruct (code =? 404)%Z; [done|]. by rewrite IH.
  - by rewrite IH, on_exception_files.
Qed.

(** A download that returns [True] has stored a body that was served to
    one of its requests. *)
Lemma attempts_true url p n todo w :
  (attempts net url p n todo w).1 = true ->
  exists content k,
    requests w <= k < requests (attempts net url p n todo w).2
    /\ net url k = Served content
    /\ files (attempts net url p n todo w).2 !! p = Some content.
Proof.
  revert w; induction todo as [|a todo IH]; intros w; [done|].
  simpl. destruct (net url (requests w)) as [content|partial|code|] eqn:Hn.
  - intros _. exists content, (requests w). simpl.
    split; [lia|]. split; [done|]. apply lookup_insert_eq.
  - intros H. destruct (IH _ H) as (content & k & Hk & Hs & Hf).
    rewrite on_exception_requests in Hk. simpl in Hk.
    exists content, k. split; [lia|done].
  - destruct (code =? 404)%Z; [done|].
    intros H. destruct (IH _ H) as (content & k & Hk & Hs & Hf).
    simpl in Hk. exists content, k. split; [lia|done].
  - intros H. destruct (IH _ H) as (content & k & Hk & Hs & Hf).
    rewrite on_exception_requests in Hk. simpl in Hk.
    exists content, k. split; [lia|done].
Qed.

(** HTTP errors other than 404 are tried again at once: no pause. *)
Lemma attempts_http_errors url p n todo w :
  (forall k, k < length todo ->
     exists code, net url (requests w + k) = HttpError code
                  /\ (code =? 404)%Z = false) ->
  (attempts net url p n todo w).1 = false
  /\ requests (attempts net url p n todo w).2 = requests w + length todo
  /\ slept (attempts net url p n todo w).2 = slept w
  /\ files (attempts net url p n todo w).2 = files w.
Proof.
  revert w; induction todo as [|a todo IH]; intros w H.
  - simpl. repeat split; lia.
  - destruct (H 0 ltac:(simpl; lia)) as (code & Hc & Hne).
    rewrite Nat.add_0_r in Hc. simpl. rewrite Hc, Hne.
    destruct (IH (print (HttpErrorLine code) (send w))) as (Hr & Hq & Hs & Hf).
    { intros k Hk. simpl.
      replace (requests w + 1 + k) with (requests w + S k) by lia.
      apply H. simpl. lia. }
    rewrite Hr, Hq, Hs, Hf. simpl. repeat split; lia.
Qed.

End DownloadMore.

Section FetchMore.
Import Download.
Variable net : network.

(** What one pass of the month loop can do to the destination and to the
    counters. *)
Lemma fetch_cases url p filename c w :
  (exists_ p w = true
   /\ fetch net url p filename c w
      = (Counts (downloaded c) (skipped c + 1) (failed c), w))
  \/ (exists_ p w = false
      /\ (fetch net url p filename c w).1
         = Counts (downloaded c + 1) (skipped c) (failed c)
      /\ exists content k,
           net url k = Served content
           /\ files (fetch net url p filename c w).2 !! p = Some content)
  \/ (exists_ p w = false
      /\ (fetch net url p filename c w).1
         = Counts (downloaded c) (skipped c) (failed c + 1)
      /\ files (fetch net url p filename c w).2 !! p = None).
Proof.
  unfold fetch. destruct (exists_ p w) eqn:He; [by left|]. right.
  pose proof (attempts_true net url p 3 (seq 0 3)
                (print (Downloading filename) w)) as Ht.
  unfold download_file.
  destruct (attempts net url p 3 (seq 0 3) (print (Downloading filename) w))
    as [[|] w1]; simpl in *.
  - destruct Ht as (content & k & _ & Hs & Hf); [done|].
    left. split; [done|]. split; [done|]. by exists content, k.
  - right. split; [done|]. split; [done|]. apply cleanup_no_file.
Qed.

Lemma fetch_frame url p filename c w q :
  q <> p -> files (fetch net url p filename c w).2 !! q = files w !! q.
Proof.
  intros Hq. unfold fetch. destruct (exists_ p w); [done|].
  pose proof (attempts_frame net url p 3 (seq 0 3)
                (print (Downloading filename) w) q Hq) as Hf.
  unfold download_file.
  destruct (attempts net url p 3 (seq 0 3) (print (Downloading filename) w))
    as [[|] w1]; simpl in *; [done|].
  by rewrite cleanup_other.
Qed.

Lemma attempts_lower url p n todo w :
  requests w <= requests (attempts net url p n todo w).2.
Proof.
  revert w; induction todo as [|a todo IH]; intros w; simpl; [lia|].
  destruct (net url (requests w)) as [content|partial|code|]; simpl.
  - lia.
  - etransitivity; [|apply IH]. rewrite on_exception_requests. simpl. lia.
  - destruct (code =? 404)%Z; simpl; [lia|].
    etransitivity; [|apply IH]. simpl. lia.
  - etransitivity; [|apply IH]. rewrite on_exception_requests. simpl. lia.
Qed.

Lemma fetch_requests url p filename c w :
  requests w <= requests (fetch net url p filename c w).2 <= requests w + 3.
Proof.
  unfold fetch. destruct (exists_ p w); [simpl; lia|].
  pose proof (attempts_bound net url p 3 (seq 0 3)
                (print (Downloading filename) w)) as Hb.
  pose proof (attempts_lower url p 3 (seq 0 3)
                (print (Downloading filename) w)) as Hlow.
  unfold download_file. rewrite length_seq in Hb.
  destruct (attempts net url p 3 (seq 0 3) (print (Downloading filename) w))
    as [[|] w1]; simpl in *; [lia|].
  destruct (cleanup_requests p w1) as (-> & _). lia.
Qed.

End FetchMore.

(** ** The downloader: whole runs *)

Section RunFacts.
Import Download.

Lemma foldl_bind {A B C} (f : A -> C -> A) (g : B -> list C) (a : A)
    (l : list B) :
  foldl f a (l ≫= g) = foldl (fun a x => foldl f a (g x)) a l.
Proof.
  revert a; induction l as [|x l IH]; intros a; [done|].
  simpl. by rewrite foldl_app, IH.
Qed.

(** [download_timeframe] fetches the files of [jobs] in order. *)
Lemma download_timeframe_jobs net timeframe years w :
  download_timeframe net timeframe years w
  = ((run_jobs net (jobs timeframe years) (Counts 0 0 0, w)).1,
     print (Summary
              (downloaded (run_jobs net (jobs timeframe years) (Counts 0 0 0, w)).1)
              (skipped (run_jobs net (jobs timeframe years) (Counts 0 0 0, w)).1)
              (failed (run_jobs net (jobs timeframe years) (Counts 0 0 0, w)).1))
       (run_jobs net (jobs timeframe years) (Counts 0 0 0, w)).2).
Proof.
  unfold download_timeframe, run_jobs, jobs.
  generalize (Counts 0 0 0, w) as cw. generalize MONTHS as months.
  intros months cw.
  assert (forall cw,
            foldl (fun cw year => foldl (fetch_month net timeframe year) cw months)
                  cw years
            = foldl (fun cw j => fetch net j.1.1 j.1.2 j.2 cw.1 cw.2) cw
                (year ← years;
                 month ← months;
                 [(url_of timeframe (filename_of timeframe year month),
                   save_path_of timeframe (filename_of timeframe year month),
                   filename_of timeframe year month)])) as ->; [|done].
  clear cw. induction years as [|y ys IH]; intros cw; [done|].
  rewrite bind_cons, foldl_app, <- IH. cbn [foldl]. f_equal.
  clear IH. revert cw. induction months as [|m ms IH]; intros cw; [done|].
  rewrite bind_cons, foldl_app, <- IH. done.
Qed.

Lemma jobs_length timeframe years :
  length (jobs timeframe years) = 12 * length years.
Proof.
  unfold jobs. induction years as [|y ys IH]; [done|].
  rewrite bind_cons, length_app, IH.
  assert (forall months : list nat,
            length (month ← months;
                    [(url_of timeframe (filename_of timeframe y month),
                      save_path_of timeframe (filename_of timeframe y month),
                      filename_of timeframe y month)]) = length months) as ->.
  { induction months as [|m ms IHm]; [done|].
    rewrite bind_cons, length_app, IHm. done. }
  unfold MONTHS. rewrite length_seq. simpl length. lia.
Qed.

Section Run.
Variable net : network.

Lemma run_jobs_cons j js cw :
  run_jobs net (j :: js) cw
  = run_jobs net js (fetch net j.1.1 j.1.2 j.2 cw.1 cw.2).
Proof. done. Qed.

(** Every file moves exactly one counter. *)
Lemma fetch_handled url p filename c w :
  handled (fetch net url p filename c w).1 = handled c + 1.
Proof.
  unfold handled.
  destruct (fetch_cases net url p filename c w)
    as [[_ ->]|[(_ & -> & _)|(_ & -> & _)]]; simpl; lia.
Qed.

Lemma run_jobs_handled js cw :
  handled (run_jobs net js cw).1 = handled cw.1 + length js.
Proof.
  revert cw; induction js as [|j js IH]; intros cw; [simpl; lia|].
  rewrite run_jobs_cons, IH, fetch_handled. simpl. lia.
Qed.

Lemma run_jobs_requests js cw :
  requests cw.2 <= requests (run_jobs net js cw).2
  <= requests cw.2 + 3 * length js.
Proof.
  revert cw; induction js as [|j js IH]; intros cw; [simpl; lia|].
  rewrite run_jobs_cons.
  pose proof (IH (fetch net j.1.1 j.1.2 j.2 cw.1 cw.2)) as H.
  pose proof (fetch_requests net j.1.1 j.1.2 j.2 cw.1 cw.2) as H'.
  simpl length. lia.
Qed.

(** A file that is there stays there, with its content. *)
Lemma fetch_keeps url p filename c w q content :
  files w !! q = Some content ->
  files (fetch net url p filename c w).2 !! q = Some content.
Proof.
  intros Hq. destruct (decide (q = p)) as [->|Hne].
  - destruct (fetch_cases net url p filename c w)
      as [[_ ->]|[(He & _)|(He & _)]]; [done| |];
      apply exists_false in He; congruence.
  - by rewrite fetch_frame.
Qed.

Lemma run_jobs_keeps js cw q content :
  files cw.2 !! q = Some content ->
  files (run_jobs net js cw).2 !! q = Some content.
Proof.
  revert cw; induction js as [|j js IH]; intros cw Hq; [done|].
  rewrite run_jobs_cons. apply IH. by apply fetch_keeps.
Qed.

End Run.

End RunFacts.
Section Rerun.
Import Download.

Lemma present_cons w j js :
  present w (j :: js)
  = if decide (exists_ j.1.2 w = true) then j :: present w js
    else present w js.
Proof. unfold present. by rewrite filter_cons. Qed.

(** The files that are there are still there after one more fetch. *)
Lemma present_fetch net url p filename c w js :
  length (present w js)
  <= length (present (fetch net url p filename c w).2 js).
Proof.
  induction js as [|j js IH]; [done|]. rewrite !present_cons.
  destruct (decide (exists_ j.1.2 w = true)) as [Hj|Hj].
  - rewrite decide_True; [simpl; lia|].
    unfold exists_ in Hj |- *. apply bool_decide_eq_true in Hj as [content Hj].
    apply bool_decide_eq_true. exists content. by apply fetch_keeps.
  - destruct (decide _); simpl; lia.
Qed.

Lemma present_run_jobs net js' cw js :
  length (present cw.2 js) <= length (present (run_jobs net js' cw).2 js).
Proof.
  revert cw; induction js' as [|j js' IH]; intros cw; [done|].
  rewrite run_jobs_cons. etransitivity; [|apply IH]. apply present_fetch.
Qed.



End Rerun.

(** X1.  [download_file] stops at the first answer that is a body or a
    404: when the rounds before round [k] end in an error that is tried
    again, a body served in round [k] is stored whole (over any partial
    file of the earlier rounds) and the result is [True]; a 404 in round
    [k] gives [False].  In both cases exactly [k + 1] requests are sent. *)
Theorem download_stops_at_first_answer (net : Download.network)
    (url p : string) (n k : nat) (w : Download.world) :
  k < n ->
  (forall j, j < k -> retriable (net url (Download.requests w + j)) = true) ->
  (forall content,
     net url (Download.requests w + k) = Download.Served content ->
     (Download.download_file net url p n w).1 = true
     /\ Download.requests (Download.download_file net url p n w).2
        = Download.requests w + k + 1
     /\ Download.files (Download.download_file net url p n w).2 !! p
        = Some content)
  /\ (net url (Download.requests w + k) = Download.HttpError 404 ->
      (Download.download_file net url p n w).1 = false
      /\ Download.requests (Download.download_file net url p n w).2
         = Download.requests w + k + 1).
Proof.
  intros Hk Hre. unfold Download.download_file.
  apply attempts_decisive; [by rewrite length_seq|done].
Qed.

Lemma download_stops_at_first_answer_witness :
  (Download.download_file
     (fun _ r => if r =? 2 then Download.Served "PK-whole"
                 else Download.Truncated "PK")
     january_url january_path 3 fresh).1 = true
  /\ Download.files
       (Download.download_file
          (fun _ r => if r =? 2 then Download.Served "PK-whole"
                      else Download.Truncated "PK")
          january_url january_path 3 fresh).2 !! january_path
     = Some "PK-whole".
Proof.
  destruct (download_stops_at_first_answer
              (fun _ r => if r =? 2 then Download.Served "PK-whole"
                          else Download.Truncated "PK")
              january_url january_path 3 2 fresh) as [H _].
  - lia.
  - intros j Hj. destruct j as [|[|j]]; [reflexivity|reflexivity|lia].
  - destruct (H "PK-whole") as (Hr & _ & Hf); [reflexivity|].
    split; [exact Hr|exact Hf].
Defined.

(** X2.  HTTP errors other than 404 are tried again at once: when every
    round is answered with such an error, the budget is used up without a
    single pause, the result is [False] and no file is touched. *)
Theorem http_errors_retried_without_pause (net : Download.network)
    (url p : string) (n : nat) (w : Download.world) :
  (forall k, k < n ->
     exists code, net url (Download.requests w + k) = Download.HttpError code
                  /\ (code =? 404)%Z = false) ->
  (Download.download_file net url p n w).1 = false
  /\ Download.requests (Download.download_file net url p n w).2
     = Download.requests w + n
  /\ Download.slept (Download.download_file net url p n w).2 = Download.slept w
  /\ Download.files (Download.download_file net url p n w).2 = Download.files w.
Proof.
  intros H. unfold Download.download_file.
  destruct (attempts_http_errors net url p n (seq 0 n) w) as (? & Hq & ? & ?).
  { by rewrite length_seq. }
  rewrite length_seq in Hq. done.
Qed.

Lemma http_errors_retried_without_pause_witness :
  Download.requests
    (Download.download_file (fun _ _ => Download.HttpError 503)
       january_url january_path 3 fresh).2 = 3
  /\ Download.slept
       (Download.download_file (fun _ _ => Download.HttpError 503)
          january_url january_path 3 fresh).2 = [].
Proof.
  destruct (http_errors_retried_without_pause
              (fun _ _ => Download.HttpError 503)
              january_url january_path 3 fresh) as (_ & Hq & Hs & _).
  - intros k Hk. exists 503%Z. split; reflexivity.
  - split; [exact Hq|exact Hs].
Defined.





(** X5.  Fetching is safe to repeat: after a pass that counted the month
    as downloaded or skipped, a second pass for the same destination,
    whatever the remote side now answers, sends no request, changes
    nothing and counts the month as skipped. *)
Theorem fetch_again_skips (net net' : Download.network)
    (url p filename : string) (c : Download.counts) (w : Download.world) :
  Download.failed (Download.fetch net url p filename c w).1 = Download.failed c ->
  Download.fetch net' url p filename
    (Download.fetch net url p filename c w).1
    (Download.fetch net url p filename c w).2
  = (Download.Counts
       (Download.downloaded (Download.fetch net url p filename c w).1)
       (Download.skipped (Download.fetch net url p filename c w).1 + 1)
       (Download.failed (Download.fetch net url p filename c w).1),
     (Download.fetch net url p filename c w).2).
Proof.
  intros Hfail.
  assert (Download.exists_ p (Download.fetch net url p filename c w).2 = true)
    as He.
  { destruct (fetch_cases net url p filename c w)
      as [[He ->]|[(_ & _ & content & k & _ & Hf)|(_ & Hc & _)]].
    - done.
    - apply bool_decide_eq_true. by exists content.
    - rewrite Hc in Hfail. simpl in Hfail. lia. }
  destruct (fetch_cases net' url p filename
              (Download.fetch net url p filename c w).1
              (Download.fetch net url p filename c w).2)
    as [[_ ->]|[(He' & _)|(He' & _)]]; [done| |]; congruence.
Qed.

Lemma fetch_again_skips_witness :
  Download.fetch unreachable january_url january_path january
    (Download.fetch (fun _ _ => Download.Served "PK") january_url january_path
       january (Download.Counts 0 0 0) fresh).1
    (Download.fetch (fun _ _ => Download.Served "PK") january_url january_path
       january (Download.Counts 0 0 0) fresh).2
  = (Download.Counts 1 1 0,
     (Download.fetch (fun _ _ => Download.Served "PK") january_url january_path
        january (Download.Counts 0 0 0) fresh).2).
Proof.
  apply (fetch_again_skips (fun _ _ => Download.Served "PK") unreachable
           january_url january_path january (Download.Counts 0 0 0) fresh).
  reflexivity.
Defined.

Lemma download_timeframe_handled (net : Download.network)
    (timeframe : string) (years : list nat) (w : Download.world) :
  handled (Download.download_timeframe net timeframe years w).1
  = 12 * length years.
Proof.
  rewrite download_timeframe_jobs. simpl.
  pose proof (run_jobs_handled net (jobs timeframe years)
                (Download.Counts 0 0 0, w)) as Hh.
  rewrite jobs_length in Hh. exact Hh.
Qed.

(** X6.  [download_timeframe], called for some years (on an empty list
    its heading raises, from [min(years)]), handles every month of every
    year exactly once: the three counters add up to twelve times the
    number of years.  It sends at most three requests per month, and every
    file that was there before the run is still there with its content. *)
Theorem download_timeframe_accounts (net : Download.network)
    (timeframe : string) (years : list nat) (w : Download.world) :
  years <> [] ->
  handled (Download.download_timeframe net timeframe years w).1
  = 12 * length years
  /\ Download.requests (Download.download_timeframe net timeframe years w).2
     <= Download.requests w + 36 * length years
  /\ (forall q content,
        Download.files w !! q = Some content ->
        Download.files (Download.download_timeframe net timeframe years w).2 !! q
        = Some content).
Proof.
  intros _. rewrite download_timeframe_jobs. simpl.
  pose proof (run_jobs_handled net (jobs timeframe years)
                (Download.Counts 0 0 0, w)) as Hh.
  pose proof (run_jobs_requests net (jobs timeframe years)
                (Download.Counts 0 0 0, w)) as Hr.
  rewrite jobs_length in Hh, Hr. simpl in Hh, Hr.
  split; [exact Hh|]. split; [lia|].
  intros q content Hq.
  by apply (run_jobs_keeps net (jobs timeframe years)
              (Download.Counts 0 0 0, w)).
Qed.

Lemma download_timeframe_accounts_witness :
  Download.files
    (Download.download_timeframe unreachable "1h" [2017]
       (Download.World {["other.zip" := "PK"]} 0 [] [])).2 !! "other.zip"
  = Some "PK".
Proof.
  destruct (download_timeframe_accounts unreachable "1h" [2017]
              (Download.World {["other.zip" := "PK"]} 0 [] []))
    as (_ & _ & H); [discriminate|].
  apply H. reflexivity.
Defined.



Section MainFacts.
Import Download.

Lemma validate_Some args tf :
  validate args = Some tf -> tf ∈ args /\ tf ∉ TIMEFRAMES.
Proof.
  induction args as [|a args IH]; [done|]. simpl.
  destruct (decide (a ∈ TIMEFRAMES)) as [Ha|Ha].
  - intros [? ?]%IH. split; [by right|done].
  - intros [= ->]. split; [by left|done].
Qed.

Lemma validate_None args :
  validate args = None <-> Forall (fun tf => tf ∈ TIMEFRAMES) args.
Proof.
  induction args as [|a args IH]; simpl; [by split|].
  destruct (decide (a ∈ TIMEFRAMES)) as [Ha|Ha].
  - rewrite IH. split; [by constructor|by inversion 1].
  - split; [done|]. by inversion 1.
Qed.

Lemma run_timeframes_cons net tf tfs tw :
  run_timeframes net (tf :: tfs) tw
  = run_timeframes net tfs
      (Counts (downloaded tw.1 + downloaded (download_timeframe net tf YEARS tw.2).1)
              (skipped tw.1 + skipped (download_timeframe net tf YEARS tw.2).1)
              (failed tw.1 + failed (download_timeframe net tf YEARS tw.2).1),
       (download_timeframe net tf YEARS tw.2).2).
Proof.
  unfold run_timeframes. cbn [foldl].
  by destruct (download_timeframe net tf YEARS tw.2).
Qed.

(** The loop of [main] over the timeframes handles 108 months for each. *)
Lemma run_timeframes_accounts net timeframes tw :
  handled (run_timeframes net timeframes tw).1
  = handled tw.1 + 108 * length timeframes.
Proof.
  revert tw; induction timeframes as [|tf tfs IH]; intros tw.
  - unfold run_timeframes. cbn [foldl length]. lia.
  - rewrite run_timeframes_cons, IH.
    pose proof (download_timeframe_handled net tf YEARS tw.2) as Hh.
    assert (length YEARS = 9) as HY by (unfold YEARS; apply length_seq).
    rewrite HY in Hh. revert Hh.
    generalize (download_timeframe net tf YEARS tw.2). intros [c' w'] Hh.
    destruct tw as [[d s f] w]. unfold handled in *.
    cbn [fst snd downloaded skipped failed length] in *. lia.
Qed.

End MainFacts.

(** X8.  [main] checks all names before it downloads anything: when one
    argument is no timeframe, it exits with status 1 naming an argument
    that is none, without a request and without touching a file, even when
    valid names come first.  When all arguments are timeframes (or there
    is none, which stands for all thirteen) it runs to the end, and the
    three totals add up to 108 months for every timeframe of the run. *)
Theorem main_checks_names_first (net : Download.network)
    (args : list string) (w : Download.world) :
  (forall tf, tf ∈ args -> tf ∉ Download.TIMEFRAMES ->
     exists tf', tf' ∈ args /\ (tf' ∉ Download.TIMEFRAMES)
                 /\ Download.main net args w = (Download.Invalid tf', w))
  /\ (Forall (fun tf => tf ∈ Download.TIMEFRAMES) args ->
      (forall tf, (Download.main net args w).1 <> Download.Invalid tf)
      /\ forall d s f,
           (Download.main net args w).1 = Download.Complete d s f ->
           d + s + f
           = 108 * length (match args with
                           | [] => Download.TIMEFRAMES
                           | _ => args
                           end)).
Proof.
  unfold Download.main. split.
  - intros tf Hin Hbad.
    destruct args as [|a args]; [by apply elem_of_nil in Hin|].
    destruct (Download.validate (a :: args)) as [tf'|] eqn:Hv.
    + apply validate_Some in Hv as [Hin' Hbad']. by exists tf'.
    + apply validate_None in Hv. rewrite Forall_forall in Hv.
      by destruct (Hbad (Hv _ Hin)).
  - intros Hall. apply validate_None in Hall.
    destruct args as [|a args].
    + pose proof (run_timeframes_accounts net Download.TIMEFRAMES
                    (Download.Counts 0 0 0, w)) as H.
      revert H.
      generalize (Download.run_timeframes net Download.TIMEFRAMES
                    (Download.Counts 0 0 0, w)).
      intros [[d' s' f'] w'] H. unfold Download.complete, handled in *.
      cbn [fst snd Download.downloaded Download.skipped Download.failed] in *.
      split; [done|]. intros d s f [= <- <- <-]. lia.
    + rewrite Hall.
      pose proof (run_timeframes_accounts net (a :: args)
                    (Download.Counts 0 0 0, w)) as H.
      revert H.
      generalize (Download.run_timeframes net (a :: args)
                    (Download.Counts 0 0 0, w)).
      intros [[d' s' f'] w'] H. unfold Download.complete, handled in *.
      cbn [fst snd Download.downloaded Download.skipped Download.failed] in *.
      split; [done|]. intros d s f [= <- <- <-]. lia.
Qed.

Lemma main_checks_names_first_witness :
  exists tf', tf' ∈ ["1h"; "2 h"; "1d"] /\ (tf' ∉ Download.TIMEFRAMES)
              /\ Download.main unreachable ["1h"; "2 h"; "1d"] fresh
                 = (Download.Invalid tf', fresh).
Proof.
  destruct (main_checks_names_first unreachable ["1h"; "2 h"; "1d"] fresh)
    as [H _].
  apply (H "2 h").
  - right. left.
  - intros Hin. vm_compute in Hin.
    repeat (apply elem_of_cons in Hin as [Hin|Hin]; [discriminate Hin|]).
    by apply elem_of_nil in Hin.
Defined.

(** ** The fixer, line by line *)

Section FixerText.
Implicit Types (s t : string) (c sep : ascii) (blank : ascii -> bool).

Lemma append_nil_r s : s +:+ "" = s.
Proof. induction s as [|c s IH]; [done|]. by rewrite append_cons, IH. Qed.

Lemma lstrip_starts_solid blank s : starts_solid blank (Py.lstrip blank s).
Proof.
  induction s as [|c s IH]; [done|]. simpl.
  destruct (blank c) eqn:Hc; [done|]. simpl. done.
Qed.

Lemma rstrip_ends_solid blank s : ends_solid blank (Py.rstrip blank s).
Proof.
  induction s as [|c s IH]; [done|]. simpl.
  destruct (Py.rstrip blank s) as [|d r] eqn:Hr.
  - by destruct (blank c) eqn:Hc.
  - done.
Qed.

Lemma rstrip_starts_solid blank s :
  starts_solid blank s -> starts_solid blank (Py.rstrip blank s).
Proof.
  destruct s as [|c s]; [done|]. simpl. intros Hc.
  destruct (Py.rstrip blank s); [by rewrite Hc|done].
Qed.

Lemma strip_starts_solid s : starts_solid Py.is_space (Py.strip s).
Proof. apply rstrip_starts_solid, lstrip_starts_solid. Qed.

Lemma strip_ends_solid s : ends_solid Py.is_space (Py.strip s).
Proof. apply rstrip_ends_solid. Qed.

(** Blanks at the end of a text do not survive [rstrip]. *)
Lemma rstrip_blank blank s : all_blank blank s -> Py.rstrip blank s = "".
Proof.
  induction s as [|c s IH]; [done|]. intros [Hc Hs]. simpl.
  by rewrite IH, Hc.
Qed.

Lemma rstrip_app_blank blank s t :
  all_blank blank t -> Py.rstrip blank (s +:+ t) = Py.rstrip blank s.
Proof.
  intros Ht. induction s as [|c s IH].
  - rewrite append_nil_l. by apply rstrip_blank.
  - rewrite append_cons. simpl. by rewrite IH.
Qed.

Lemma lstrip_app_solid blank s t :
  s <> "" -> starts_solid blank s -> Py.lstrip blank (s +:+ t) = s +:+ t.
Proof.
  destruct s as [|c s]; [done|]. intros _ Hc. rewrite append_cons.
  by apply lstrip_solid.
Qed.

(** A text without blanks at its ends is what [strip] makes of the line
    that it is written as. *)
Lemma strip_line s :
  starts_solid Py.is_space s -> ends_solid Py.is_space s ->
  Py.strip (s +:+ Py.nl) = s.
Proof.
  intros Hs He. destruct s as [|c s]; [done|]. unfold Py.strip.
  rewrite lstrip_app_solid; [|done|done].
  rewrite rstrip_app_blank; [|done]. by apply rstrip_solid.
Qed.

Lemma starts_solid_app blank s t :
  s <> "" -> starts_solid blank s -> starts_solid blank (s +:+ t).
Proof. by destruct s. Qed.

Lemma ends_solid_app blank s t :
  t <> "" -> ends_solid blank (s +:+ t) <-> ends_solid blank t.
Proof.
  intros Ht. induction s as [|c s IH]; [done|].
  rewrite append_cons. rewrite <- IH.
  destruct (s +:+ t) as [|d u] eqn:Hu; [|done].
  destruct s; [|done]. rewrite append_nil_l in Hu. done.
Qed.

Lemma take_chars_free sep n s : free_of sep s -> free_of sep (Py.take_chars n s).
Proof.
  revert s; induction n as [|n IH]; intros [|c s]; simpl; try done.
  intros [? ?]. auto.
Qed.

Lemma take_chars_starts blank n s :
  starts_solid blank s -> starts_solid blank (Py.take_chars n s).
Proof. destruct n, s; done. Qed.

End FixerText.

Section FixerLines.
Import Fix.

Lemma reconcile_free sep ts : free_of sep ts -> free_of sep (reconcile ts).
Proof.
  intros H. unfold reconcile, Py.drop_last.
  destruct (String.length ts =? 16); [by apply take_chars_free|done].
Qed.

Lemma reconcile_starts blank ts :
  starts_solid blank ts -> starts_solid blank (reconcile ts).
Proof.
  intros H. unfold reconcile, Py.drop_last.
  destruct (String.length ts =? 16); [by apply take_chars_starts|done].
Qed.

Lemma reconcile_length ts : String.length (reconcile ts) <> 16.
Proof.
  destruct (Nat.eq_dec (String.length ts) 16) as [H|H].
  - rewrite (reconcile_16 _ H), take_chars_length. lia.
  - by rewrite (reconcile_other _ H).
Qed.

Lemma reconcile_twice ts : reconcile (reconcile ts) = reconcile ts.
Proof. apply reconcile_other, reconcile_length. Qed.

(** The text written for the fields of a stripped line, the first one
    reconciled, has no blank at its ends and no field with a comma. *)
Lemma reconciled_join (p0 p1 : string) (ps : list string) :
  starts_solid Py.is_space (Py.join "," (p0 :: p1 :: ps)) ->
  ends_solid Py.is_space (Py.join "," (p0 :: p1 :: ps)) ->
  starts_solid Py.is_space (Py.join "," (reconcile p0 :: p1 :: ps))
  /\ ends_solid Py.is_space (Py.join "," (reconcile p0 :: p1 :: ps)).
Proof.
  rewrite !join_cons. intros Hs He. split.
  - destruct (reconcile p0) as [|c r] eqn:Hr; [done|].
    rewrite <- Hr. apply starts_solid_app; [by rewrite Hr|].
    apply reconcile_starts. by destruct p0.
  - apply ends_solid_app; [done|]. by apply ends_solid_app in He.
Qed.

Lemma fixed_text_short line :
  length (Py.split "," (Py.strip line)) < 6 -> fixed_text line = line.
Proof.
  intros H. unfold fixed_text.
  by destruct (Nat.leb_spec 6 (length (Py.split "," (Py.strip line)))); [lia|].
Qed.

Lemma fixed_text_long line :
  6 <= length (Py.split "," (Py.strip line)) ->
  fixed_text line
  = Py.join "," (<[0 := reconcile (Py.split "," (Py.strip line) !!! 0)]>
                   (Py.split "," (Py.strip line))) +:+ Py.nl.
Proof.
  intros H. unfold fixed_text.
  by destruct (Nat.leb_spec 6 (length (Py.split "," (Py.strip line)))); [|lia].
Qed.

(** Reading back a written data line: the fields of the line, the first
    one reconciled. *)
Lemma fixed_text_fields line :
  6 <= length (Py.split "," (Py.strip line)) ->
  Py.strip (fixed_text line)
  = Py.join "," (<[0 := reconcile (Py.split "," (Py.strip line) !!! 0)]>
                   (Py.split "," (Py.strip line)))
  /\ Py.split "," (Py.strip (fixed_text line))
     = <[0 := reconcile (Py.split "," (Py.strip line) !!! 0)]>
         (Py.split "," (Py.strip line)).
Proof.
  intros H. rewrite (fixed_text_long _ H).
  pose proof (split_free "," (Py.strip line)) as Hfree.
  pose proof (join_split "," (Py.strip line)) as Hjoin.
  pose proof (strip_starts_solid line) as Hs.
  pose proof (strip_ends_solid line) as He.
  rewrite <- Hjoin in Hs, He.
  destruct (Py.split "," (Py.strip line)) as [|p0 [|p1 ps]];
    [simpl in H; lia|simpl in H; lia|].
  change (<[0:=?x]> (p0 :: p1 :: ps)) with (x :: p1 :: ps).
  change ((p0 :: p1 :: ps) !!! 0) with p0.
  destruct (reconciled_join p0 p1 ps Hs He) as [Hs' He'].
  rewrite strip_line; [|done|done]. split; [done|].
  apply split_join; [done|].
  inversion Hfree; subst. constructor; [by apply reconcile_free|done].
Qed.

Lemma fixed_text_twice line : fixed_text (fixed_text line) = fixed_text line.
Proof.
  destruct (Nat.leb_spec 6 (length (Py.split "," (Py.strip line)))) as [H|H].
  - destruct (fixed_text_fields line H) as [_ Hf].
    rewrite (fixed_text_long (fixed_text line)).
    + rewrite Hf. rewrite (fixed_text_long _ H).
      destruct (Py.split "," (Py.strip line)) as [|p0 ps]; [simpl in H; lia|].
      simpl. by rewrite reconcile_twice.
    + rewrite Hf, length_insert. done.
  - by rewrite !(fixed_text_short _ H).
Qed.

Lemma needs_fix_fixed line : needs_fix (fixed_text line) = false.
Proof.
  unfold needs_fix.
  destruct (Nat.leb_spec 6 (length (Py.split "," (Py.strip line)))) as [H|H].
  - destruct (fixed_text_fields line H) as [_ ->].
    apply andb_false_iff. right. apply Nat.eqb_neq.
    destruct (Py.split "," (Py.strip line)) as [|p0 ps]; [simpl in H; lia|].
    simpl. apply reconcile_length.
  - rewrite (fixed_text_short _ H). apply andb_false_iff. left.
    apply Nat.leb_gt. done.
Qed.

(** The loop of the fixer after its first line. *)
Lemma fix_line_later st line :
  1 <= total_lines st ->
  fix_line st line
  = State (total_lines st + 1)
          (fixed_lines st + (if needs_fix line then 1 else 0))
          (outfile st ++ [fixed_text line]).
Proof.
  intros Ht. unfold fix_line, fixed_text, needs_fix, reconcile.
  destruct (Nat.eqb_spec (total_lines st + 1) 1) as [?|_]; [lia|].
  destruct (6 <=? length (Py.split "," (Py.strip line))); simpl.
  - destruct (String.length (Py.split "," (Py.strip line) !!! 0) =? 16);
      [done|]. by rewrite insert_head_same, Nat.add_0_r.
  - by rewrite Nat.add_0_r.
Qed.

Lemma foldl_fix_line lines st :
  1 <= total_lines st ->
  foldl fix_line st lines
  = State (total_lines st + length lines)
          (fixed_lines st + length (filter (fun l => needs_fix l = true) lines))
          (outfile st ++ (fixed_text <$> lines)).
Proof.
  revert st; induction lines as [|l lines IH]; intros st Ht.
  - simpl. rewrite !Nat.add_0_r, app_nil_r. by destruct st.
  - cbn [foldl]. rewrite IH, (fix_line_later _ _ Ht); [|rewrite (fix_line_later _ _ Ht); simpl; lia].
    cbn [total_lines fixed_lines outfile length fmap list_fmap].
    rewrite filter_cons. rewrite <- app_assoc. simpl.
    destruct (needs_fix l) eqn:Hn.
    + rewrite decide_True by done. simpl. f_equal; lia.
    + rewrite decide_False by done. f_equal; lia.
Qed.

Lemma main_cons first rest :
  main (first :: rest)
  = State (S (length rest))
          (length (filter (fun l => needs_fix l = true) rest))
          (first :: (fixed_text <$> rest)).
Proof.
  unfold main. cbn [foldl]. rewrite foldl_fix_line; [|simpl; lia]. done.
Qed.

Lemma no_fix_left lines :
  filter (fun l => needs_fix l = true) (fixed_text <$> lines) = [].
Proof.
  induction lines as [|l lines IH]; [done|]. rewrite fmap_cons, filter_cons.
  rewrite decide_False; [done|]. by rewrite needs_fix_fixed.
Qed.

End FixerLines.

Section LineStructure.
Implicit Types (s t : string) (c sep : ascii) (blank : ascii -> bool).

Lemma free_of_app sep s t :
  free_of sep (s +:+ t) <-> free_of sep s /\ free_of sep t.
Proof.
  induction s as [|c s IH]; [rewrite append_nil_l; simpl; tauto|].
  rewrite append_cons. simpl. rewrite IH. tauto.
Qed.

Lemma lstrip_free blank sep s : free_of sep s -> free_of sep (Py.lstrip blank s).
Proof.
  induction s as [|c s IH]; [done|]. simpl. intros [Hc Hs].
  destruct (blank c); [auto|done].
Qed.

Lemma rstrip_free blank sep s : free_of sep s -> free_of sep (Py.rstrip blank s).
Proof.
  induction s as [|c s IH]; [done|]. simpl. intros [Hc Hs].
  destruct (Py.rstrip blank s) as [|d r] eqn:Hr.
  - by destruct (blank c).
  - split; [done|]. by apply IH.
Qed.

Lemma split_free_other c sep s :
  free_of c s -> Forall (free_of c) (Py.split sep s).
Proof.
  induction s as [|d s IH]; simpl; [by repeat constructor|]. intros [Hd Hs].
  specialize (IH Hs).
  destruct (Ascii.eqb d sep); [by constructor|].
  destruct (split_cons sep s) as (f & fs & Hf). rewrite Hf in IH |- *.
  inversion IH; subst. by constructor.
Qed.

Lemma join_free c sep fs :
  c <> sep -> Forall (free_of c) fs -> free_of c (Py.join sep fs).
Proof.
  intros Hc. induction fs as [|f fs IH]; [done|]. intros Hfs.
  inversion Hfs as [|? ? Hf Hfs']; subst.
  destruct fs as [|g fs]; [done|].
  rewrite join_cons. apply free_of_app. split; [done|].
  split; [congruence|auto].
Qed.

Lemma lstrip_all_blank blank s : all_blank blank s -> Py.lstrip blank s = "".
Proof.
  induction s as [|c s IH]; [done|]. intros [Hc Hs]. simpl. rewrite Hc. auto.
Qed.

(** Blanks at the end of a text, such as the line feed of a line, are
    nothing to [strip]. *)
Lemma strip_app_blank s t : all_blank Py.is_space t -> Py.strip (s +:+ t) = Py.strip s.
Proof.
  intros Ht. unfold Py.strip. induction s as [|c s IH].
  - rewrite append_nil_l. by rewrite lstrip_all_blank.
  - rewrite append_cons. simpl Py.lstrip. destruct (Py.is_space c); [done|].
    rewrite <- append_cons. by apply rstrip_app_blank.
Qed.

Lemma strip_free sep s : free_of sep s -> free_of sep (Py.strip s).
Proof. intros H. by apply rstrip_free, lstrip_free. Qed.

(** The text written for a data line is a terminated line, whenever the
    line it is made from holds no line feed before its end. *)
Lemma fixed_text_terminated body line :
  free_of Py.newline body -> line = body \/ line = body +:+ Py.nl ->
  6 <= length (Py.split "," (Py.strip line)) ->
  terminated (fixed_text line).
Proof.
  intros Hb Hl H. rewrite (fixed_text_long _ H).
  assert (Py.strip line = Py.strip body) as ->.
  { destruct Hl as [->| ->]; [done|]. by apply strip_app_blank. }
  eexists. split; [|done].
  pose proof (split_free_other Py.newline "," _ (strip_free _ _ Hb)) as Hf.
  apply join_free; [done|].
  destruct (Py.split "," (Py.strip body)) as [|p0 ps]; [done|].
  inversion Hf; subst. constructor; [|done].
  by apply reconcile_free.
Qed.

End LineStructure.

Section AfterStreaming.
Import Fix.




Lemma split_starts_solid s :
  starts_solid Py.is_space s -> starts_solid Py.is_space (Py.split "," s !!! 0).
Proof.
  destruct s as [|c s]; [done|]. simpl. intros Hc.
  destruct (Ascii.eqb c ","); [done|].
  by destruct (split_cons "," s) as (f & fs & ->).
Qed.


Lemma record_of_shape d parts :
  record_of d = Some parts ->
  Forall (free_of ",") parts /\ 6 <= length parts
  /\ starts_solid Py.is_space (parts !!! 0).
Proof.
  unfold record_of.
  destruct (Nat.leb_spec 6 (length (Py.split "," (Py.strip d)))); [|done].
  intros [= <-]. split; [apply split_free|]. split; [done|].
  apply split_starts_solid, strip_starts_solid.
Qed.

End AfterStreaming.

(** X9.  The fixer works line by line.  It writes one text for every line
    it reads, in the order of the lines.  The first line is copied as it
    is, whatever it holds: a file without a heading keeps the timestamp of
    its first record.  Every later line is written as [fixed_text] has it,
    and the number of fixed lines that is reported is the number of later
    lines with six fields or more and a timestamp of 16 characters. *)
Theorem fix_main_linewise (first : string) (rest : list string) :
  Fix.outfile (Fix.main (first :: rest)) = first :: (fixed_text <$> rest)
  /\ Fix.total_lines (Fix.main (first :: rest)) = length (first :: rest)
  /\ length (Fix.outfile (Fix.main (first :: rest))) = length (first :: rest)
  /\ Fix.fixed_lines (Fix.main (first :: rest))
     = length (filter (fun l => needs_fix l = true) rest)
  /\ Fix.fixed_lines (Fix.main (first :: rest)) < length (first :: rest).
Proof.
  rewrite main_cons. cbn [Fix.outfile Fix.total_lines Fix.fixed_lines length].
  rewrite length_fmap. repeat split.
  pose proof (length_filter (fun l => needs_fix l = true) rest). lia.
Qed.

(** X10.  A data line that the fixer wrote reads back as the fields of the
    line it was made from: as many fields, the first one reconciled, all
    the others character for character. *)
Theorem fix_keeps_fields (line : string) :
  6 <= length (Py.split "," (Py.strip line)) ->
  Py.split "," (Py.strip (fixed_text line))
  = fix_record (Py.split "," (Py.strip line))
  /\ length (Py.split "," (Py.strip (fixed_text line)))
     = length (Py.split "," (Py.strip line))
  /\ forall i, 0 < i ->
       Py.split "," (Py.strip (fixed_text line)) !! i
       = Py.split "," (Py.strip line) !! i.
Proof.
  intros H. destruct (fixed_text_fields line H) as [_ Hf].
  rewrite Hf. split; [done|]. split; [by rewrite length_insert|].
  intros i Hi. apply list_lookup_insert_ne. lia.
Qed.

Lemma fix_keeps_fields_witness :
  Py.split "," (Py.strip (fixed_text (" 1735689600000999,1,2,3,4,5,6" +:+ Py.nl)))
  = fix_record (Py.split "," (Py.strip (" 1735689600000999,1,2,3,4,5,6" +:+ Py.nl))).
Proof.
  apply (fix_keeps_fields (" 1735689600000999,1,2,3,4,5,6" +:+ Py.nl)).
  vm_compute. lia.
Defined.

(** X11.  Running the fixer on what it wrote changes nothing: the second
    run writes the same texts and reports no fixed line. *)
Theorem fix_main_idempotent (infile : list string) :
  Fix.outfile (Fix.main (Fix.outfile (Fix.main infile)))
  = Fix.outfile (Fix.main infile)
  /\ Fix.fixed_lines (Fix.main (Fix.outfile (Fix.main infile))) = 0.
Proof.
  destruct infile as [|first rest]; [done|].
  rewrite main_cons. cbn [Fix.outfile]. rewrite main_cons.
  cbn [Fix.outfile Fix.fixed_lines]. rewrite no_fix_left. split; [|done].
  f_equal. rewrite <- list_fmap_compose. apply list_fmap_ext.
  intros i l _. apply fixed_text_twice.
Qed.

(** X12.  The fixer keeps the lines of the file apart: a line that ends
    with its only line feed is written as such a line, and a last line
    without a line feed is either copied or written with one.  So the
    written texts are again the lines of the written file. *)
Theorem fix_keeps_line_structure :
  (forall line, terminated line -> terminated (fixed_text line))
  /\ (forall line, free_of Py.newline line ->
        fixed_text line = line \/ terminated (fixed_text line))
  /\ (forall infile, Forall terminated infile ->
        Forall terminated (Fix.outfile (Fix.main infile))).
Proof.
  assert (forall line, terminated line -> terminated (fixed_text line)) as Ht.
  { intros line (body & Hb & ->).
    destruct (Nat.leb_spec 6 (length (Py.split "," (Py.strip (body +:+ Py.nl)))))
      as [H|H].
    - apply (fixed_text_terminated body); auto.
    - rewrite (fixed_text_short _ H). by exists body. }
  split; [exact Ht|]. split.
  - intros line Hb.
    destruct (Nat.leb_spec 6 (length (Py.split "," (Py.strip line)))) as [H|H].
    + right. apply (fixed_text_terminated line); auto.
    + left. by apply fixed_text_short.
  - intros [|first rest] Hin; [done|]. rewrite main_cons. cbn [Fix.outfile].
    apply Forall_cons in Hin as [Hf Hr]. constructor; [done|].
    apply Forall_fmap. eapply Forall_impl; [exact Hr|]. intros l Hl.
    by apply Ht.
Qed.

Lemma fix_keeps_line_structure_witness :
  terminated (fixed_text ("1735689600000999,1,2,3,4,5" +:+ Py.nl)).
Proof.
  destruct fix_keeps_line_structure as [H _].
  apply (H ("1735689600000999,1,2,3,4,5" +:+ Py.nl)).
  exists "1735689600000999,1,2,3,4,5". split; [|reflexivity].
  repeat split; discriminate.
Defined.

(** ** The streaming converter: order, isolation, totals *)

Section EngineFacts.

Lemma run_emitted e rs :
  Engine.emitted (Engine.run e rs)
  = Engine.emitted e ++ remove_adjacent timestamp_of (Engine.last_emitted e) rs.
Proof.
  revert e; induction rs as [|r rs IH]; intros e.
  - simpl. by rewrite app_nil_r.
  - unfold Engine.run in *. cbn [foldl remove_adjacent]. rewrite IH.
    unfold Engine.step, timestamp_of.
    destruct (decide (Some (r !!! 0) = Engine.last_emitted e)); [done|].
    simpl. by rewrite <- app_assoc.
Qed.

Lemma run_dropped e rs :
  Engine.dropped (Engine.run e rs)
  + length (remove_adjacent timestamp_of (Engine.last_emitted e) rs)
  = Engine.dropped e + length rs.
Proof.
  revert e; induction rs as [|r rs IH]; intros e.
  - simpl. lia.
  - unfold Engine.run in *. cbn [foldl remove_adjacent length].
    specialize (IH (Engine.step e r)). revert IH.
    unfold Engine.step, timestamp_of.
    destruct (decide (Some (r !!! 0) = Engine.last_emitted e)); simpl; lia.
Qed.

Lemma remove_adjacent_no_repeat kept rs :
  no_repeat kept (remove_adjacent timestamp_of kept rs).
Proof.
  revert kept; induction rs as [|r rs IH]; intros kept; [done|]. simpl.
  destruct (decide (Some (timestamp_of r) = kept)); [apply IH|].
  split; [done|apply IH].
Qed.

Lemma remove_adjacent_id kept rs :
  no_repeat kept rs -> remove_adjacent timestamp_of kept rs = rs.
Proof.
  revert kept; induction rs as [|r rs IH]; intros kept; [done|].
  intros [Hr Hrs]. simpl. rewrite decide_False by done. by rewrite IH.
Qed.

Lemma remove_adjacent_sublist kept rs :
  remove_adjacent timestamp_of kept rs `sublist_of` rs.
Proof.
  revert kept; induction rs as [|r rs IH]; intros kept; [done|]. simpl.
  destruct (decide _); [by apply sublist_cons|by apply sublist_skip].
Qed.

Lemma no_repeat_neighbours kept rs i r1 r2 :
  no_repeat kept rs -> rs !! i = Some r1 -> rs !! S i = Some r2 ->
  timestamp_of r1 <> timestamp_of r2.
Proof.
  revert kept i; induction rs as [|r rs IH]; intros kept i; [done|].
  intros [_ Hrs]. destruct i as [|i].
  - intros [= <-]. destruct rs as [|r' rs]; [done|]. intros [= <-].
    destruct Hrs as [Hne _]. congruence.
  - simpl. by apply (IH (Some (timestamp_of r))).
Qed.

End EngineFacts.

Section WrittenFile.
Import Zip Streaming.

Lemma main_written found :
  sorted found <> [] ->
  written (main (Some found))
  = header :: (format_candle
                 <$> remove_adjacent timestamp_of None (records (sorted found))).
Proof.
  intros Hne. unfold main.
  destruct (Nat.eqb_spec (length (sorted found)) 0) as [H0|_].
  { by destruct (sorted found). }
  pose proof (sync_process_archives (sorted found) _ _ 1 sync_initial)
    as [_ Hout].
  cbn [written]. rewrite Hout. rewrite <- run_feed.
  fold (records (sorted found)). by rewrite run_emitted.
Qed.

Lemma main_counted found :
  sorted found <> [] -> Forall (fun a => decodes a = true) found ->
  candles (main (Some found))
  = length (remove_adjacent timestamp_of None (records (sorted found)))
  /\ duplicates (main (Some found))
     + length (remove_adjacent timestamp_of None (records (sorted found)))
     = length (records (sorted found)).
Proof.
  intros Hne Hdec. unfold main.
  destruct (Nat.eqb_spec (length (sorted found)) 0) as [H0|_].
  { by destruct (sorted found). }
  destruct (counted_process_archives (sorted found) _ _ 1 sync_initial
              counted_initial) as [Hc Hd].
  { unfold sorted. by rewrite sorted_by_Permutation. }
  cbn [candles duplicates]. rewrite Hc, Hd. rewrite <- run_feed.
  fold (records (sorted found)). rewrite run_emitted.
  split; [done|]. apply (run_dropped Engine.start).
Qed.

Lemma main_nothing dir :
  status (main dir) <> 0%Z -> main dir = Report 1 [] 0 0 [].
Proof.
  unfold main. destruct dir as [found|]; [|done].
  by destruct (length (sorted found) =? 0).
Qed.

Lemma records_shape zs r :
  r ∈ records zs -> exists d, record_of d = Some r.
Proof.
  unfold records. intros (d & _ & Hd)%list_elem_of_omap. by exists d.
Qed.

(** The first field of a written line is the timestamp of its record. *)
Lemma format_candle_timestamp parts :
  free_of "," (parts !!! 0) ->
  Py.split "," (format_candle parts) !!! 0 = timestamp_of parts.
Proof.
  intros H. unfold format_candle.
  change ("," +:+ ?s) with (String "," s). by rewrite split_app_sep.
Qed.

Lemma record_timestamp_free d r :
  record_of d = Some r -> free_of "," (r !!! 0).
Proof.
  intros (Hf & Hl & _)%record_of_shape.
  destruct r as [|p ps]; [simpl in Hl; lia|]. by inversion Hf.
Qed.

End WrittenFile.

Section Isolation.
Import Zip Streaming.

Lemma process_line_same st st' d :
  same_file st st' -> same_file (process_line st d) (process_line st' d).
Proof.
  intros (Hd & Hc & Hf). unfold data in Hd. injection Hd as Ht Hl Hs Ho.
  unfold process_line, same_file, data.
  destruct (String.eqb (Py.strip d) ""); [by rewrite Ht, Hl, Hs, Ho|].
  destruct (6 <=? length (Py.split "," (Py.strip d)));
    [|by rewrite Ht, Hl, Hs, Ho].
  rewrite Hl.
  destruct (decide _); simpl; by rewrite Ht, ?Hl, Hs, Ho, Hc, Hf.
Qed.

Lemma process_lines_same st st' ls :
  same_file st st' ->
  match process_lines st ls, process_lines st' ls with
  | Completed s, Completed s' | Raised s, Raised s' => same_file s s'
  | _, _ => False
  end.
Proof.
  revert st st'; induction ls as [|[d|] ls IH]; intros st st' H; simpl;
    [done| |done].
  by apply IH, process_line_same.
Qed.

(** What an archive does to the totals and to the written file depends
    neither on its number nor on what was printed before. *)
Lemma process_archive_data st st' i i' a :
  data st = data st' ->
  data (process_archive st i a) = data (process_archive st' i' a).
Proof.
  intros Hd.
  assert (same_file (start_file st) (start_file st')) as Hs.
  { unfold data in Hd. injection Hd as Ht Hl Hs Ho. unfold same_file, data.
    simpl. by rewrite Ht, Hl, Hs, Ho. }
  unfold process_archive.
  destruct (zip_body a) as [|ms]; [apply Hs|].
  destruct (csv_files ms) as [|first others]; [apply Hs|].
  destruct (open ms first) as [m|]; [|apply Hs].
  pose proof (process_lines_same _ _ (member_lines m) Hs) as Hl.
  destruct (process_lines (start_file st) (member_lines m)) as [s|s],
    (process_lines (start_file st') (member_lines m)) as [s'|s'];
    try done; destruct Hl as (Hd' & Hc & Hf); unfold data in *;
    injection Hd' as Ht Hl Hs' Ho; simpl; by rewrite ?Ht, ?Hl, ?Hs', ?Ho, ?Hc, ?Hf.
Qed.

Lemma process_archive_unread st i a :
  chosen_member a = None -> data (process_archive st i a) = data st.
Proof.
  unfold chosen_member, process_archive.
  destruct (zip_body a) as [|ms]; [done|].
  destruct (csv_files ms) as [|first others]; [done|].
  by destruct (open ms first).
Qed.

Lemma process_archives_data zs st st' i i' :
  data st = data st' ->
  data (process_archives st i zs) = data (process_archives st' i' zs).
Proof.
  revert st st' i i'; induction zs as [|a zs IH]; intros st st' i i' H;
    [done|].
  simpl. by apply IH, process_archive_data.
Qed.

Lemma process_archives_app zs1 zs2 st i :
  process_archives st i (zs1 ++ zs2)
  = process_archives (process_archives st i zs1) (i + length zs1) zs2.
Proof.
  revert st i; induction zs1 as [|a zs1 IH]; intros st i.
  - simpl. by rewrite Nat.add_0_r.
  - simpl. rewrite IH. f_equal. lia.
Qed.

Lemma process_archives_unread zs1 a zs2 st i :
  chosen_member a = None ->
  data (process_archives st i (zs1 ++ a :: zs2))
  = data (process_archives st i (zs1 ++ zs2)).
Proof.
  intros Ha. rewrite !process_archives_app. simpl.
  apply process_archives_data. by apply process_archive_unread.
Qed.

End Isolation.

Section InsertSplit.
Context {A K : Type} (leb : K -> K -> bool) (key : A -> K).

Lemma insert_sorted_split x l :
  exists l1 l2, l = l1 ++ l2 /\ Py.insert_sorted leb key x l = l1 ++ x :: l2.
Proof.
  induction l as [|y l (l1 & l2 & Hl & Hi)]; [by exists [], []|]. simpl.
  destruct (leb (key x) (key y)).
  - by exists [], (y :: l).
  - exists (y :: l1), l2. split; [by rewrite Hl|by rewrite Hi].
Qed.

End InsertSplit.

Section Counting.
Import Zip Streaming.

Lemma process_line_counted st d :
  total_candles st + file_candles st + 1 <= length (outfile st) ->
  total_candles (process_line st d) + file_candles (process_line st d) + 1
  <= length (outfile (process_line st d)).
Proof.
  intros H. pose proof (process_line_cases st d) as Hc.
  destruct (record_of d); [|by rewrite Hc].
  destruct (decide _); rewrite Hc; simpl; [done|].
  rewrite length_app. simpl. lia.
Qed.

Lemma process_lines_counted st ls :
  total_candles st + file_candles st + 1 <= length (outfile st) ->
  match process_lines st ls with
  | Completed s | Raised s =>
      total_candles s + file_candles s + 1 <= length (outfile s)
      /\ total_candles s = total_candles st
  end.
Proof.
  revert st; induction ls as [|[d|] ls IH]; intros st H; simpl; [done| |done].
  specialize (IH _ (process_line_counted st d H)).
  assert (total_candles (process_line st d) = total_candles st) as Ht.
  { pose proof (process_line_cases st d) as Hc.
    destruct (record_of d); [|by rewrite Hc].
    destruct (decide _); by rewrite Hc. }
  destruct (process_lines (process_line st d) ls); by rewrite <- Ht.
Qed.

Lemma process_archive_counted st i a :
  total_candles st + 1 <= length (outfile st) ->
  total_candles (process_archive st i a) + 1
  <= length (outfile (process_archive st i a)).
Proof.
  intros H. unfold process_archive.
  destruct (zip_body a) as [|ms]; [done|].
  destruct (csv_files ms) as [|first others]; [done|].
  destruct (open ms first) as [m|]; [|done].
  pose proof (process_lines_counted (start_file st) (member_lines m)) as Hl.
  destruct (process_lines (start_file st) (member_lines m)) as [s|s];
    destruct Hl as [Hl Ht]; simpl in *; lia.
Qed.

Lemma process_archives_counted zs st i :
  total_candles st + 1 <= length (outfile st) ->
  total_candles (process_archives st i zs) + 1
  <= length (outfile (process_archives st i zs)).
Proof.
  revert st i; induction zs as [|a zs IH]; intros st i H; [done|].
  simpl. by apply IH, process_archive_counted.
Qed.

End Counting.

Section FixerOnRecords.
Import Fix.


End FixerOnRecords.

(** X13.  The file that the streaming converter writes never holds the
    same timestamp on two lines that follow each other: the first fields
    of two neighbouring data lines differ. *)
Theorem streaming_never_repeats_timestamp (dir : option (list Zip.archive))
    (i : nat) (l1 l2 : string) :
  Streaming.written (Streaming.main dir) !! S i = Some l1 ->
  Streaming.written (Streaming.main dir) !! S (S i) = Some l2 ->
  Py.split "," l1 !!! 0 <> Py.split "," l2 !!! 0.
Proof.
  destruct (decide (Streaming.status (Streaming.main dir) = 0%Z)) as [H0|H0].
  - destruct dir as [found|]; [|done].
    assert (Zip.sorted found <> []) as Hne.
    { intros He. unfold Streaming.main in H0. by rewrite He in H0. }
    rewrite (main_written _ Hne), !lookup_cons. cbv beta iota.
    rewrite !list_lookup_fmap.
    set (kept := remove_adjacent timestamp_of None (records (Zip.sorted found))).
    destruct (kept !! i) as [r1|] eqn:H1; [|done].
    destruct (kept !! S i) as [r2|] eqn:H2; [|done].
    intros [= <-] [= <-].
    assert (forall r, r ∈ kept -> free_of "," (r !!! 0)) as Hfree.
    { intros r Hr.
      apply (fun H => elem_of_sublist _ _ _ H (remove_adjacent_sublist None _)) in Hr.
      apply records_shape in Hr as (d & Hd).
      by apply (record_timestamp_free d). }
    rewrite !format_candle_timestamp
      by (apply Hfree; by eapply list_elem_of_lookup_2).
    eapply no_repeat_neighbours; [|exact H1|exact H2].
    apply remove_adjacent_no_repeat.
  - by rewrite (main_nothing _ H0).
Qed.

Lemma streaming_never_repeats_timestamp_witness :
  Py.split "," ("1,o,h,l,c,v" +:+ Py.nl) !!! 0
  <> Py.split "," ("2,o,h,l,c,v" +:+ Py.nl) !!! 0.
Proof.
  apply (streaming_never_repeats_timestamp (Some [september; august]) 0);
    reflexivity.
Defined.

(** X14.  The streaming converter never changes the order of the records
    and looks one record back only: what it writes is a selection of the
    records in the order in which the archives deliver them, and when no
    record carries the timestamp of the record before it, every record is
    written, also one whose timestamp was written earlier, and no
    duplicate is reported. *)
Theorem streaming_keeps_encounter_order (found : list Zip.archive) :
  Zip.sorted found <> [] ->
  (exists kept,
     kept `sublist_of` records (Zip.sorted found)
     /\ Streaming.written (Streaming.main (Some found))
        = Streaming.header :: (Streaming.format_candle <$> kept))
  /\ (no_repeat None (records (Zip.sorted found)) ->
      Streaming.written (Streaming.main (Some found))
      = Streaming.header
          :: (Streaming.format_candle <$> records (Zip.sorted found))
      /\ (Forall (fun a => decodes a = true) found ->
          Streaming.candles (Streaming.main (Some found))
          = length (records (Zip.sorted found))
          /\ Streaming.duplicates (Streaming.main (Some found)) = 0)).
Proof.
  intros Hne. split.
  - eexists. split; [|by apply main_written]. apply remove_adjacent_sublist.
  - intros Hrep. rewrite (main_written _ Hne).
    rewrite (remove_adjacent_id _ _ Hrep). split; [done|]. intros Hdec.
    destruct (main_counted found Hne Hdec) as [Hc Hd].
    rewrite (remove_adjacent_id _ _ Hrep) in Hc, Hd. split; [done|lia].
Qed.

Lemma streaming_keeps_encounter_order_witness :
  Streaming.written
    (Streaming.main
       (Some [month_of "BTCUSDT-1s-2017-08.zip" "BTCUSDT-1s-2017-08.csv"
                ["2"; "1"; "2"]]))
  = Streaming.header
      :: (Streaming.format_candle
            <$> records
                  (Zip.sorted
                     [month_of "BTCUSDT-1s-2017-08.zip" "BTCUSDT-1s-2017-08.csv"
                        ["2"; "1"; "2"]])).
Proof.
  destruct (streaming_keeps_encounter_order
              [month_of "BTCUSDT-1s-2017-08.zip" "BTCUSDT-1s-2017-08.csv"
                 ["2"; "1"; "2"]]) as [_ H]; [by vm_compute|].
  apply H. vm_compute. repeat split; discriminate.
Defined.

(** X15.  An archive that cannot be read (no archive at all, or without a
    data file) changes nothing but the printed lines: with it in the
    directory the converter ends with the same status, writes the same
    file and reports the same totals as without it. *)
Theorem streaming_unread_archive_isolated (a : Zip.archive)
    (found : list Zip.archive) :
  chosen_member a = None -> found <> [] ->
  Streaming.status (Streaming.main (Some (a :: found)))
  = Streaming.status (Streaming.main (Some found))
  /\ Streaming.written (Streaming.main (Some (a :: found)))
     = Streaming.written (Streaming.main (Some found))
  /\ Streaming.candles (Streaming.main (Some (a :: found)))
     = Streaming.candles (Streaming.main (Some found))
  /\ Streaming.duplicates (Streaming.main (Some (a :: found)))
     = Streaming.duplicates (Streaming.main (Some found)).
Proof.
  intros Ha Hne. unfold Streaming.main.
  change (Zip.sorted (a :: found))
    with (Py.insert_sorted String.leb Zip.zip_name a (Zip.sorted found)).
  destruct (insert_sorted_split String.leb Zip.zip_name a (Zip.sorted found))
    as (l1 & l2 & Hl & ->).
  assert (length (Zip.sorted found) <> 0) as Hlen.
  { unfold Zip.sorted. rewrite sorted_by_Permutation. by destruct found. }
  rewrite Hl in *.
  destruct (Nat.eqb_spec (length (l1 ++ l2)) 0) as [?|_]; [done|].
  destruct (Nat.eqb_spec (length (l1 ++ a :: l2)) 0) as [H0|_].
  { rewrite length_app in H0. simpl in H0. lia. }
  pose proof (process_archives_unread l1 a l2 Streaming.initial 1 Ha) as Hd.
  unfold data in Hd. injection Hd as Ht Hlast Hs Ho. by simpl.
Qed.

Lemma streaming_unread_archive_isolated_witness :
  Streaming.written (Streaming.main (Some [broken; september; august]))
  = Streaming.written (Streaming.main (Some [september; august])).
Proof.
  destruct (streaming_unread_archive_isolated broken [september; august])
    as (_ & H & _); [reflexivity|discriminate|exact H].
Defined.

(** X16.  The total that the streaming converter reports never counts a
    line that was not written: after a conversion the file holds the
    heading and at least as many records as the reported total. *)
Theorem streaming_reports_at_most_written (dir : option (list Zip.archive)) :
  Streaming.status (Streaming.main dir) = 0%Z ->
  Streaming.candles (Streaming.main dir) + 1
  <= length (Streaming.written (Streaming.main dir)).
Proof.
  unfold Streaming.main. destruct dir as [found|]; [|done].
  destruct (length (Zip.sorted found) =? 0); [done|]. intros _.
  cbn [Streaming.candles Streaming.written].
  apply process_archives_counted. simpl. lia.
Qed.

Lemma streaming_reports_at_most_written_witness :
  Streaming.candles (Streaming.main (Some [september; august])) + 1
  <= length (Streaming.written (Streaming.main (Some [september; august]))).
Proof.
  apply (streaming_reports_at_most_written (Some [september; august])).
  reflexivity.
Defined.



(** ** The bulk converters: collection, failure, the two results *)

Section KeyedSort.
Context {A : Type} (key : A -> option Z).

(** Sorting by a key that may fail: the sort of the two bulk converters. *)
Lemma keyed_sort_Some (l sorted_l : list A) :
  (keyed ← mapM (fun x => k ← key x; Some (k, x)) l;
   Some (snd <$> Py.sorted_by Z.leb fst keyed)) = Some sorted_l ->
  Forall (fun x => is_Some (key x)) l
  /\ sorted_l = Py.sorted_by Z.leb (fun x => default 0%Z (key x)) l.
Proof.
  intros H.
  destruct (mapM _ l) as [keyed|] eqn:Hm; [|done]. simpl in H.
  injection H as <-. apply mapM_Some in Hm.
  assert (Forall (fun x => is_Some (key x)) l
          /\ keyed = (fun x => (default 0%Z (key x), x)) <$> l) as [HF ->].
  { induction Hm as [|r [k r'] rows keyed Hr Hm [IH1 IH2]]; [done|].
    destruct (key r) as [k'|] eqn:Hk; [|done].
    simpl in Hr. injection Hr as -> ->. split; [by constructor|].
    rewrite fmap_cons, Hk. simpl. by f_equal. }
  split; [done|]. apply sorted_by_decorated.
Qed.

Lemma keyed_sort_is_Some (l : list A) :
  Forall (fun x => is_Some (key x)) l ->
  (keyed ← mapM (fun x => k ← key x; Some (k, x)) l;
   Some (snd <$> Py.sorted_by Z.leb fst keyed))
  = Some (Py.sorted_by Z.leb (fun x => default 0%Z (key x)) l).
Proof.
  intros HF.
  assert (mapM (fun x => k ← key x; Some (k, x)) l
          = Some ((fun x => (default 0%Z (key x), x)) <$> l)) as ->.
  { apply mapM_Some. induction HF as [|r rows [k Hk] HF IH]; [constructor|].
    rewrite fmap_cons. constructor; [|done]. by rewrite Hk. }
  simpl. by rewrite sorted_by_decorated.
Qed.

(** The sort fails exactly when the key of some element does. *)
Lemma keyed_sort_None (l : list A) :
  (keyed ← mapM (fun x => k ← key x; Some (k, x)) l;
   Some (snd <$> Py.sorted_by Z.leb fst keyed)) = None
  <-> exists x, x ∈ l /\ key x = None.
Proof.
  split.
  - intros H.
    destruct (decide (Forall (fun x => is_Some (key x)) l)) as [HF|HF].
    + by rewrite (keyed_sort_is_Some _ HF) in H.
    + apply not_Forall_Exists in HF; [|apply _].
      apply Exists_exists in HF as (x & Hx & Hk). exists x. split; [done|].
      simpl in Hk. by apply eq_None_not_Some.
  - intros (x & Hx & Hk).
    destruct (_ ≫= _) as [sorted_l|] eqn:H; [|done].
    apply keyed_sort_Some in H as [HF _]. rewrite Forall_forall in HF.
    destruct (HF x Hx) as [k Hk']. congruence.
Qed.

End KeyedSort.

Section SortMap.
Context {A B K : Type} (leb : K -> K -> bool).
Context (key : A -> K) (key' : B -> K) (f : A -> B).



End SortMap.

Section Collection.
Import Zip Bulk.

Lemma collect_line_app rows line :
  collect_line rows line = rows ++ collect_line [] line.
Proof.
  unfold collect_line. destruct (String.eqb line ""); [by rewrite app_nil_r|].
  destruct (6 <=? length (Py.split "," line)); [done|by rewrite app_nil_r].
Qed.

Lemma foldl_collect_line lines rows :
  foldl collect_line rows lines = rows ++ foldl collect_line [] lines.
Proof.
  revert rows; induction lines as [|l lines IH]; intros rows.
  - by rewrite app_nil_r.
  - simpl. rewrite IH, (IH (collect_line [] l)), collect_line_app.
    by rewrite app_assoc.
Qed.

Lemma collect_content_app rows content :
  collect_content rows content = rows ++ collect_content [] content.
Proof. apply foldl_collect_line. Qed.

Lemma collect_line_six line : Forall six_fields (collect_line [] line).
Proof.
  unfold collect_line. destruct (String.eqb line ""); [done|].
  destruct (Nat.leb_spec 6 (length (Py.split "," line))) as [H|H]; [|done].
  constructor; [|done]. split; [done|]. rewrite (first_six _ H).
  apply Forall_take, split_free.
Qed.

Lemma collect_content_six content : Forall six_fields (collect_content [] content).
Proof.
  unfold collect_content.
  induction (Py.split Py.newline (Py.strip content)) as [|l lines IH]; [done|].
  simpl. rewrite foldl_collect_line. apply Forall_app. split; [|done].
  apply collect_line_six.
Qed.

Lemma rows_of_six a : Forall six_fields (rows_of a).
Proof.
  unfold rows_of. destruct (content_of a); [|done]. apply collect_content_six.
Qed.

(** What one archive does to the variables of the collection loop. *)
Lemma collect_archive_rows c a :
  all_rows (collect_archive c a) = all_rows c ++ rows_of a
  /\ processed_files (collect_archive c a)
     = processed_files c + (match content_of a with Some _ => 1 | None => 0 end)
  /\ length (stderr (collect_archive c a))
     + (match content_of a with Some _ => 1 | None => 0 end)
     <= length (stderr c) + 1.
Proof.
  unfold collect_archive, rows_of, content_of, chosen_member.
  destruct (zip_body a) as [|ms]; simpl.
  { rewrite app_nil_r, length_app. simpl. split; [done|]. split; lia. }
  destruct (csv_files ms) as [|first others]; simpl.
  { rewrite app_nil_r. split; [done|]. split; lia. }
  destruct (open ms first) as [m|]; simpl.
  - destruct (read_decode (member_lines m)) as [content|]; simpl.
    + rewrite collect_content_app. split; [done|]. split; lia.
    + rewrite app_nil_r, length_app. simpl. split; [done|]. split; lia.
  - rewrite app_nil_r, length_app. simpl. split; [done|]. split; lia.
Qed.

Lemma foldl_collect_archive zs c :
  all_rows (foldl collect_archive c zs) = all_rows c ++ (zs ≫= rows_of)
  /\ processed_files (foldl collect_archive c zs)
     = processed_files c
       + length (filter (fun a => is_Some (content_of a)) zs)
  /\ length (stderr (foldl collect_archive c zs))
     + length (filter (fun a => is_Some (content_of a)) zs)
     <= length (stderr c) + length zs.
Proof.
  revert c; induction zs as [|a zs IH]; intros c.
  - simpl. rewrite app_nil_r. split; [done|]. split; lia.
  - cbn [foldl]. destruct (IH (collect_archive c a)) as (IH1 & IH2 & IH3).
    destruct (collect_archive_rows c a) as (H1 & H2 & H3).
    rewrite IH1, IH2, H1, H2, filter_cons. cbn [mbind list_bind length].
    rewrite <- app_assoc. split; [done|].
    destruct (content_of a) as [content|].
    + rewrite decide_True by done. simpl. split; lia.
    + rewrite decide_False by (by intros [? ?]). simpl. split; lia.
Qed.

Lemma undecodable_no_content a : decodes a = false -> content_of a = None.
Proof.
  unfold decodes, content_of. destruct (chosen_member a) as [m|]; [|done].
  simpl. induction (member_lines m) as [|[s|] ls IH]; simpl; try done.
  intros H. by rewrite IH.
Qed.

End Collection.

Section BulkResult.
Import Zip Bulk.

Lemma collect_rows zs :
  all_rows (collect zs) = zs ≫= rows_of
  /\ processed_files (collect zs)
     = length (filter (fun a => is_Some (content_of a)) zs)
  /\ length (stderr (collect zs))
     + length (filter (fun a => is_Some (content_of a)) zs)
     <= length zs.
Proof. apply (foldl_collect_archive zs (Collected [] 0 [])). Qed.

Lemma unique_rows_cons r rows :
  exists rest, unique_rows (r :: rows) = r :: rest.
Proof.
  rewrite unique_rows_first_seen. simpl.
  rewrite decide_False by apply not_elem_of_empty. eauto.
Qed.

Lemma rows_need_content zs :
  zs ≫= rows_of <> [] ->
  1 <= length (filter (fun a => is_Some (content_of a)) zs).
Proof.
  induction zs as [|a zs IH]; [done|]. cbn [mbind list_bind].
  rewrite filter_cons. unfold rows_of at 1.
  destruct (content_of a) as [content|].
  - intros _. rewrite decide_True by done. simpl. lia.
  - rewrite decide_False by (by intros [? ?]). simpl. apply IH.
Qed.

End BulkResult.

(** X18.  [convert_timeframe] takes an archive whole or not at all: the
    collected rows are, archive after archive in the order of the names,
    the rows of the data files that can be read to their end and decoded.
    An archive with a line that does not decode gives no row, also none
    of the lines before that one.  [files_processed] counts the archives
    that were read, and every other archive is either reported on the
    error stream or holds no data file. *)
Theorem bulk_reads_whole_files (zs : list Zip.archive) :
  Bulk.all_rows (Bulk.collect zs) = zs ≫= rows_of
  /\ (forall a, decodes a = false -> rows_of a = [])
  /\ Bulk.processed_files (Bulk.collect zs)
     = length (filter (fun a => is_Some (content_of a)) zs)
  /\ Bulk.processed_files (Bulk.collect zs)
     + length (Bulk.stderr (Bulk.collect zs)) <= length zs.
Proof.
  destruct (collect_rows zs) as (H1 & H2 & H3).
  split; [done|]. split.
  - intros a Ha. unfold rows_of. by rewrite undecodable_no_content.
  - split; [done|]. lia.
Qed.

Lemma bulk_reads_whole_files_witness :
  rows_of garbled = [] /\ lines_seen garbled = ["7,o,h,l,c,v" +:+ Py.nl].
Proof.
  destruct (bulk_reads_whole_files [garbled]) as (_ & H & _).
  split; [by apply H|reflexivity].
Defined.

(** X19.  [convert_timeframe] fails with [ValueError] exactly when the
    timestamp of some collected row is no integer, however many good rows
    there are: nothing is written then.  A heading line in a data file is
    such a row. *)
Theorem bulk_value_error_iff (found : list Zip.archive) :
  (Bulk.convert_timeframe (Some found) = Bulk.ValueError
   <-> exists r, r ∈ Bulk.all_rows (Bulk.collect (Zip.sorted found))
                 /\ Py.int (timestamp_of r) = None)
  /\ Bulk.convert_timeframe (Some [shuffled; headed]) = Bulk.ValueError.
Proof.
  split; [|by vm_compute]. unfold Bulk.convert_timeframe.
  destruct (Zip.sorted found) as [|a zs] eqn:Hs.
  { split; [done|]. by intros (r & Hr%elem_of_nil & _). }
  destruct (Bulk.all_rows (Bulk.collect (a :: zs))) as [|r rows] eqn:Hr.
  { split; [done|]. by intros (r & Hr'%elem_of_nil & _). }
  pose proof (keyed_sort_None Bulk.sort_key (r :: rows)) as Hn.
  fold (Bulk.sort_rows (r :: rows)) in Hn. rewrite <- Hn.
  by destruct (Bulk.sort_rows (r :: rows)).
Qed.

(** X20.  When [convert_timeframe] succeeds, at least one archive was
    read and at least one row is written after the heading; the reported
    number of candles is the number of rows written after the heading,
    which is not more than the rows collected; and every written row has
    exactly six fields. *)
Theorem bulk_success_shape (found : list Zip.archive) (files candles : nat)
    (written : list (list string)) :
  Bulk.convert_timeframe (Some found) = Bulk.Success files candles written ->
  1 <= files <= length found
  /\ 1 <= candles <= length (Bulk.all_rows (Bulk.collect (Zip.sorted found)))
  /\ length written = candles + 1
  /\ Forall (fun r => length r = 6) written.
Proof.
  unfold Bulk.convert_timeframe.
  assert (length (Zip.sorted found) = length found) as Hlen.
  { unfold Zip.sorted. by rewrite sorted_by_Permutation. }
  destruct (collect_rows (Zip.sorted found)) as (H1 & H2 & H3).
  pose proof (rows_need_content (Zip.sorted found)) as Hc.
  rewrite <- H1 in Hc.
  assert (Forall six_fields (Bulk.all_rows (Bulk.collect (Zip.sorted found))))
    as Hsix.
  { rewrite H1. apply Forall_bind, Forall_true. apply rows_of_six. }
  destruct (Zip.sorted found) as [|a zs] eqn:Hs; [done|].
  destruct (Bulk.all_rows (Bulk.collect (a :: zs))) as [|r rows] eqn:Hr; [done|].
  destruct (Bulk.sort_rows (r :: rows)) as [sorted_rows|] eqn:Hsort; [|done].
  intros [= <- <- <-].
  apply sort_rows_Some in Hsort as [_ ->].
  pose proof (sorted_by_Permutation Z.leb key_of (r :: rows)) as Hperm.
  pose proof (first_seen_sublist ∅ (Py.sorted_by Z.leb key_of (r :: rows)))
    as Hsub.
  rewrite <- unique_rows_first_seen in Hsub.
  pose proof (sublist_length _ _ Hsub) as Hle.
  rewrite (Permutation_length Hperm) in Hle.
  split; [rewrite H2; split; [by apply Hc|lia]|].
  split.
  - split; [|done].
    destruct (Py.sorted_by Z.leb key_of (r :: rows)) as [|r' rows'] eqn:Hsb.
    { apply Permutation_nil_l in Hperm. done. }
    destruct (unique_rows_cons r' rows') as (rest & ->). simpl. lia.
  - split; [simpl; lia|]. constructor; [done|].
    apply (Forall_impl six_fields); [|by intros ? [? _]].
    rewrite Forall_forall. intros x Hx.
    apply (fun H => elem_of_sublist _ _ _ H Hsub) in Hx.
    rewrite Hperm in Hx. rewrite Forall_forall in Hsix. by apply Hsix.
Qed.

Lemma bulk_success_shape_witness :
  1 <= 3 <= length (Bulk.all_rows (Bulk.collect (Zip.sorted [shuffled]))).
Proof.
  destruct (bulk_success_shape [shuffled] 1 3
              [Bulk.header_row; row_of "1"; row_of "3"; row_of "5"])
    as (_ & H & _); [by vm_compute|exact H].
Defined.

Section LegacyFacts.
Import Zip.

Lemma legacy_collect_line acc line :
  Legacy.collect_line acc line
  = acc ++ (Py.join "," <$> Bulk.collect_line [] line).
Proof.
  unfold Legacy.collect_line, Bulk.collect_line.
  destruct (String.eqb_spec (Py.strip line) "") as [Hs|Hs].
  - apply strip_empty_split in Hs.
    destruct (String.eqb line ""); [by rewrite app_nil_r|].
    destruct (Nat.leb_spec 6 (length (Py.split "," line))); [lia|].
    by rewrite app_nil_r.
  - destruct (String.eqb_spec line "") as [->|_]; [done|].
    destruct (Nat.leb_spec 6 (length (Py.split "," line))) as [H|H];
      [|by rewrite app_nil_r].
    by rewrite (first_six _ H).
Qed.

Lemma legacy_foldl_collect_line lines acc :
  foldl Legacy.collect_line acc lines
  = acc ++ (Py.join "," <$> foldl Bulk.collect_line [] lines).
Proof.
  revert acc; induction lines as [|l lines IH]; intros acc.
  - by rewrite app_nil_r.
  - simpl. rewrite IH, legacy_collect_line, (foldl_collect_line lines (_ [] l)).
    by rewrite fmap_app, app_assoc.
Qed.

Lemma legacy_collect_archive c a :
  Legacy.all_lines (Legacy.collect_archive c a)
  = Legacy.all_lines c ++ (Py.join "," <$> rows_of a).
Proof.
  unfold Legacy.collect_archive, rows_of, content_of, chosen_member.
  destruct (zip_body a) as [|ms]; simpl; [by rewrite app_nil_r|].
  destruct (csv_files ms) as [|first others]; simpl; [by rewrite app_nil_r|].
  destruct (open ms first) as [m|]; simpl; [|by rewrite app_nil_r].
  destruct (read_decode (member_lines m)) as [content|]; simpl;
    [|by rewrite app_nil_r].
  apply legacy_foldl_collect_line.
Qed.

Lemma legacy_collect zs c :
  Legacy.all_lines (foldl Legacy.collect_archive c zs)
  = Legacy.all_lines c ++ (Py.join "," <$> (zs ≫= rows_of)).
Proof.
  revert c; induction zs as [|a zs IH]; intros c.
  - simpl. by rewrite app_nil_r.
  - cbn [foldl mbind list_bind]. rewrite IH, legacy_collect_archive.
    by rewrite fmap_app, app_assoc.
Qed.



End LegacyFacts.


(** X22.  The older converter loses no line and removes none: when it
    returns [True], the lines below the heading are the collected lines,
    each as often as it was collected, in ascending order of the integer
    in the first field, lines with the same integer in the order in which
    they were collected. *)
Theorem legacy_sorts_and_keeps_all (found : list Zip.archive)
    (written : list string) :
  Legacy.convert_binance_to_zigquant found = Legacy.ReturnTrue written ->
  exists sorted_lines,
    written = Legacy.header :: ((fun line => line +:+ Py.nl) <$> sorted_lines)
    /\ sorted_lines
       ≡ₚ Legacy.all_lines
            (foldl Legacy.collect_archive (Legacy.Collected [] [])
               (Zip.sorted found))
    /\ StronglySorted (fun a b => (line_key a <= line_key b)%Z) sorted_lines
    /\ (forall k, filter (fun x => line_key x = k) sorted_lines
                  = filter (fun x => line_key x = k)
                      (Legacy.all_lines
                         (foldl Legacy.collect_archive (Legacy.Collected [] [])
                            (Zip.sorted found))))
    /\ length written
       = 1 + length (Legacy.all_lines
                       (foldl Legacy.collect_archive (Legacy.Collected [] [])
                          (Zip.sorted found))).
Proof.
  unfold Legacy.convert_binance_to_zigquant.
  destruct (Zip.sorted found) as [|a zs]; [done|].
  destruct (Legacy.all_lines _) as [|l ls']; [done|].
  generalize (l :: ls'). intros ls.
  destruct (Legacy.sort_lines ls) as [sorted_lines|] eqn:Hs; [|done].
  intros [= <-]. exists sorted_lines.
  apply (keyed_sort_Some Legacy.sort_key) in Hs as [_ ->].
  fold line_key.
  pose proof (sorted_by_Permutation Z.leb line_key ls) as Hperm.
  split; [done|]. split; [done|]. split.
  { eapply StronglySorted_weaken;
      [|exact (sorted_by_Sorted Z.leb line_key ls Zleb_total Zleb_trans)].
    intros x y. apply Z.leb_le. }
  split; [intros k; by apply sorted_by_stable, Zleb_refl|].
  simpl. by rewrite length_fmap, (Permutation_length Hperm).
Qed.

Lemma legacy_sorts_and_keeps_all_witness :
  exists sorted_lines,
    [Legacy.header; "1,o,h,l,c,v" +:+ Py.nl; "3,o,h,l,c,v" +:+ Py.nl;
     "3,o,h,l,c,v" +:+ Py.nl; "5,o,h,l,c,v" +:+ Py.nl; "5,o,h,l,c,v" +:+ Py.nl]
    = Legacy.header :: ((fun line => line +:+ Py.nl) <$> sorted_lines)
    /\ sorted_lines
       ≡ₚ Legacy.all_lines
            (foldl Legacy.collect_archive (Legacy.Collected [] [])
               (Zip.sorted [shuffled])).
Proof.
  destruct (legacy_sorts_and_keeps_all [shuffled]
              [Legacy.header; "1,o,h,l,c,v" +:+ Py.nl; "3,o,h,l,c,v" +:+ Py.nl;
               "3,o,h,l,c,v" +:+ Py.nl; "5,o,h,l,c,v" +:+ Py.nl;
               "5,o,h,l,c,v" +:+ Py.nl])
    as (sorted_lines & H1 & H2 & _); [by vm_compute|].
  by exists sorted_lines.
Defined.

(** ** The order of the directory *)

Section NameOrder.

Lemma ascii_compare_refl (c : ascii) : Ascii.compare c c = Eq.
Proof. unfold Ascii.compare. apply N.compare_refl. Qed.

Lemma ascii_compare_lt_trans (x y z : ascii) :
  Ascii.compare x y = Lt -> Ascii.compare y z = Lt -> Ascii.compare x z = Lt.
Proof.
  unfold Ascii.compare. rewrite !N.compare_lt_iff. apply N.lt_trans.
Qed.

(** The order of the file names is transitive. *)
Lemma string_leb_trans (a b c : string) :
  String.leb a b = true -> String.leb b c = true -> String.leb a c = true.
Proof.
  unfold String.leb. revert b c.
  induction a as [|x a IH]; intros [|y b] [|z c]; simpl; try done.
  destruct (Ascii.compare x y) eqn:Hxy; [| |done].
  - apply Ascii.compare_eq_iff in Hxy as ->.
    destruct (Ascii.compare y z) eqn:Hyz; [apply IH|done|done].
  - destruct (Ascii.compare y z) eqn:Hyz; [| |done].
    + apply Ascii.compare_eq_iff in Hyz as <-. by rewrite Hxy.
    + by rewrite (ascii_compare_lt_trans x y z).
Qed.

Lemma string_leb_total (a b : string) :
  String.leb a b = false -> String.leb b a = true.
Proof. intros H. destruct (String.leb_total a b); congruence. Qed.

Lemma same_name_same_archive (dir : list Zip.archive) (x y : Zip.archive) :
  NoDup (Zip.zip_name <$> dir) -> x ∈ dir -> y ∈ dir ->
  Zip.zip_name x = Zip.zip_name y -> x = y.
Proof.
  induction dir as [|a dir IH]; [by intros _ ?%elem_of_nil|].
  rewrite fmap_cons. intros [Ha Hd]%NoDup_cons Hx Hy Hn.
  apply elem_of_cons in Hx as [->|Hx], Hy as [->|Hy]; [done| | |by apply IH].
  - destruct Ha. rewrite Hn. by apply list_elem_of_fmap_2.
  - destruct Ha. rewrite <- Hn. by apply list_elem_of_fmap_2.
Qed.

Lemma sorted_names (dir : list Zip.archive) :
  StronglySorted
    (fun a b => String.leb (Zip.zip_name a) (Zip.zip_name b) = true)
    (Zip.sorted dir).
Proof. apply sorted_by_Sorted; [apply string_leb_total|apply string_leb_trans]. Qed.

Lemma sorted_permuted (dir dir' : list Zip.archive) :
  dir ≡ₚ dir' -> NoDup (Zip.zip_name <$> dir) ->
  Zip.sorted dir = Zip.sorted dir'.
Proof.
  intros Hperm Hnd.
  apply (StronglySorted_unique_strong
           (fun a b => String.leb (Zip.zip_name a) (Zip.zip_name b) = true));
    [|apply sorted_names|apply sorted_names|].
  - intros x1 x2 H1 H2 H12 H21.
    unfold Zip.sorted in H1, H2. rewrite sorted_by_Permutation in H1, H2.
    rewrite <- Hperm in H2.
    apply (same_name_same_archive dir); [done|done|done|].
    by apply String.leb_antisym.
  - unfold Zip.sorted. by rewrite !sorted_by_Permutation.
Qed.

End NameOrder.

(** X23.  The order in which the directory lists its archives does not
    matter: file names in a directory are distinct, so the archives are
    visited in the one ascending order of their names, each of them once,
    and each of the three converters gives the same result for the same
    files listed in another order. *)
Theorem directory_order_irrelevant (dir dir' : list Zip.archive) :
  dir ≡ₚ dir' -> NoDup (Zip.zip_name <$> dir) ->
  Zip.sorted dir ≡ₚ dir
  /\ StronglySorted
       (fun a b => String.leb (Zip.zip_name a) (Zip.zip_name b) = true)
       (Zip.sorted dir)
  /\ Zip.sorted dir = Zip.sorted dir'
  /\ Streaming.main (Some dir) = Streaming.main (Some dir')
  /\ Bulk.convert_timeframe (Some dir) = Bulk.convert_timeframe (Some dir')
  /\ Legacy.convert_binance_to_zigquant dir
     = Legacy.convert_binance_to_zigquant dir'.
Proof.
  intros Hperm Hnd. pose proof (sorted_permuted dir dir' Hperm Hnd) as Hs.
  split; [apply sorted_by_Permutation|]. split; [apply sorted_names|].
  split; [done|].
  unfold Streaming.main, Bulk.convert_timeframe,
    Legacy.convert_binance_to_zigquant.
  by rewrite Hs.
Qed.

Lemma directory_order_irrelevant_witness :
  Streaming.main (Some [september; august])
  = Streaming.main (Some [august; september]).
Proof.
  destruct (directory_order_irrelevant [september; august] [august; september])
    as (_ & _ & _ & H & _); [apply Permutation_swap| |exact H].
  vm_compute. repeat constructor; set_solver.
Defined.

(** ** The two programs *)

Section BulkMain.
Import Bulk.

Lemma convert_all_good dir_of tfs results :
  Forall (fun tf => convert_timeframe (dir_of tf) <> ValueError) tfs ->
  convert_all dir_of tfs results
  = inl (results ++ ((fun tf => convert_timeframe (dir_of tf)) <$> tfs)).
Proof.
  intros H. revert results.
  induction H as [|tf tfs Htf _ IH]; intros results.
  - simpl. by rewrite app_nil_r.
  - cbn [convert_all]. rewrite fmap_cons.
    destruct (convert_timeframe (dir_of tf)) eqn:Hr; [| |done];
      by rewrite IH, <- app_assoc.
Qed.

Lemma convert_all_bad dir_of before tf after results :
  Forall (fun tf => convert_timeframe (dir_of tf) <> ValueError) before ->
  convert_timeframe (dir_of tf) = ValueError ->
  convert_all dir_of (before ++ tf :: after) results
  = inr (results ++ ((fun tf => convert_timeframe (dir_of tf)) <$> before)).
Proof.
  intros H Hbad. revert results.
  induction H as [|tf' tfs Htf _ IH]; intros results.
  - simpl. by rewrite Hbad, app_nil_r.
  - rewrite <- app_comm_cons. cbn [convert_all]. rewrite fmap_cons.
    destruct (convert_timeframe (dir_of tf')) eqn:Hr; [| |done];
      by rewrite IH, <- app_assoc.
Qed.

Lemma foldl_summary_step results acc :
  foldl summary_step acc results
  = (acc.1 + sum_list (candles_of <$> results),
     acc.2 + length (filter (fun r => succeeded r = true) results)).
Proof.
  revert acc; induction results as [|r results IH]; intros [t n].
  - simpl. f_equal; lia.
  - cbn [foldl]. rewrite IH, fmap_cons, filter_cons.
    destruct r; simpl; f_equal; lia.
Qed.

End BulkMain.

Section LegacyScript.
Import Legacy.

Lemma return_true_written found written :
  convert_binance_to_zigquant found = ReturnTrue written ->
  written !! 0 = Some header /\ 2 <= length written.
Proof.
  unfold convert_binance_to_zigquant.
  destruct (Zip.sorted found) as [|a zs]; [done|].
  destruct (all_lines _) as [|l ls]; [done|].
  destruct (sort_lines (l :: ls)) as [sorted_lines|] eqn:Hs; [|done].
  intros [= <-]. split; [done|].
  apply (keyed_sort_Some sort_key) in Hs as [_ ->].
  cbn [length]. rewrite length_fmap.
  rewrite (Permutation_length (sorted_by_Permutation _ _ _)). simpl. lia.
Qed.

End LegacyScript.

(** X24.  [main] of the bulk converter goes through the twelve
    timeframes in their order and stops at the first one whose rows hold
    a timestamp that is no integer: the [ValueError] ends the program,
    the timeframes before it have been converted, the ones after it are
    never looked at, and no summary is printed.  When no timeframe fails
    in this way, every one of them has a result, whatever it is, and the
    summary counts the successes and adds up their candles. *)
Theorem bulk_main_stops_at_value_error
    (dir_of : string -> option (list Zip.archive)) :
  (forall before tf after,
     Bulk.TIMEFRAMES = before ++ tf :: after ->
     Forall (fun t => Bulk.convert_timeframe (dir_of t) <> Bulk.ValueError)
            before ->
     Bulk.convert_timeframe (dir_of tf) = Bulk.ValueError ->
     Bulk.main dir_of
     = Bulk.Raised ((fun t => Bulk.convert_timeframe (dir_of t)) <$> before))
  /\ (Forall (fun t => Bulk.convert_timeframe (dir_of t) <> Bulk.ValueError)
             Bulk.TIMEFRAMES ->
      Bulk.main dir_of
      = Bulk.Summary
          ((fun t => Bulk.convert_timeframe (dir_of t)) <$> Bulk.TIMEFRAMES)
          (sum_list
             (candles_of
                <$> ((fun t => Bulk.convert_timeframe (dir_of t))
                       <$> Bulk.TIMEFRAMES)))
          (length
             (filter (fun r => succeeded r = true)
                ((fun t => Bulk.convert_timeframe (dir_of t))
                   <$> Bulk.TIMEFRAMES)))
      /\ length
           (filter (fun r => succeeded r = true)
              ((fun t => Bulk.convert_timeframe (dir_of t))
                 <$> Bulk.TIMEFRAMES)) <= 12).
Proof.
  split.
  - intros before tf after Hsplit Hgood Hbad. unfold Bulk.main.
    rewrite Hsplit. by rewrite (convert_all_bad _ _ _ _ _ Hgood Hbad).
  - intros Hgood. unfold Bulk.main.
    rewrite (convert_all_good _ _ _ Hgood), app_nil_l.
    assert (length ((fun t => Bulk.convert_timeframe (dir_of t))
                      <$> Bulk.TIMEFRAMES) = 12) as Hlen
      by (by rewrite length_fmap).
    revert Hlen.
    generalize ((fun t => Bulk.convert_timeframe (dir_of t))
                  <$> Bulk.TIMEFRAMES).
    intros results Hlen. rewrite foldl_summary_step. split; [done|].
    pose proof (length_filter (fun r => succeeded r = true) results) as Hf.
    lia.
Qed.

Lemma bulk_main_stops_at_value_error_witness :
  Bulk.main only_3m = Bulk.Raised [Bulk.Error "Directory not found"].
Proof.
  destruct (bulk_main_stops_at_value_error only_3m) as [H _].
  apply (H ["1m"] "3m"
           ["5m"; "15m"; "30m"; "1h"; "2h"; "4h"; "6h"; "8h"; "12h"; "1d"]).
  - reflexivity.
  - repeat constructor. discriminate.
  - by vm_compute.
Defined.

(** X25.  The older converter run as a program ends with status 0 exactly
    when it wrote the output file.  The file is then the one named by the
    second argument and holds the heading and at least one line; with
    fewer than two arguments, a directory that is not there or nothing to
    convert, the status is 1 and nothing is written. *)
Theorem legacy_script_exit_status (argv : list string)
    (glob : string -> option (list Zip.archive)) :
  ((Legacy.script argv glob).1 = Legacy.Exit 0
   <-> is_Some (Legacy.script argv glob).2)
  /\ (forall path written,
        (Legacy.script argv glob).2 = Some (path, written) ->
        argv !! 2 = Some path
        /\ written !! 0 = Some Legacy.header /\ 2 <= length written)
  /\ (length argv < 3 -> Legacy.script argv glob = (Legacy.Exit 1, None))
  /\ (forall name input_dir output_file more,
        argv = name :: input_dir :: output_file :: more ->
        glob input_dir = None \/ glob input_dir = Some [] ->
        Legacy.script argv glob = (Legacy.Exit 1, None)).
Proof.
  unfold Legacy.script.
  destruct argv as [|name [|input_dir [|output_file more]]].
  1-3: (split; [split; [done|by intros [? ?]]|]; split; [done|];
        split; [done|]; by intros ? ? ? ? [= ]).
  destruct (glob input_dir) as [found|] eqn:Hg.
  - destruct (Legacy.convert_binance_to_zigquant found) as [|written|] eqn:Hc.
    + split; [split; [done|by intros [? ?]]|]. split; [done|].
      split; [simpl; lia|]. done.
    + split; [split; [by eexists|done]|]. split.
      { intros path written' [= <- <-]. split; [done|].
        by apply (return_true_written found). }
      split; [simpl; lia|].
      intros ? ? ? ? [= <- <- <- <-] [Hnone|Hnone]; rewrite Hg in Hnone;
        [done|].
      injection Hnone as ->. by vm_compute in Hc.
    + split; [split; [done|by intros [? ?]]|]. split; [done|].
      split; [simpl; lia|].
      intros ? ? ? ? [= <- <- <- <-] [Hnone|Hnone]; rewrite Hg in Hnone;
        [done|].
      injection Hnone as ->. by vm_compute in Hc.
  - split; [split; [done|by intros [? ?]]|]. split; [done|].
    split; [simpl; lia|]. done.
Qed.

Lemma legacy_script_exit_status_witness :
  Legacy.script ["convert_binance_to_zigquant.py"; "binance_raw/"] (fun _ => Some [shuffled])
  = (Legacy.Exit 1, None).
Proof.
  destruct (legacy_script_exit_status
              ["convert_binance_to_zigquant.py"; "binance_raw/"]
              (fun _ => Some [shuffled])) as (_ & _ & H & _).
  apply H. simpl. lia.
Defined.

(** ** Well-formed data: the converters agree *)

Section CleanFiles.
Import Zip.

Lemma clean_lines_bodies ls :
  Forall clean_line ls ->
  exists bs, ls = line_text <$> bs /\ Forall clean_body bs.
Proof.
  induction 1 as [|l ls (b & -> & Hb) _ (bs & -> & Hbs)]; [by exists []|].
  exists (b :: bs). split; [done|by constructor].
Qed.

Lemma read_decode_bodies b bs :
  read_decode (line_text <$> (b :: bs))
  = Some (Py.join Py.newline (b :: bs) +:+ Py.nl).
Proof.
  revert b; induction bs as [|b' bs IH]; intros b.
  - simpl. by rewrite append_nil_r.
  - rewrite fmap_cons. cbn [read_decode line_text]. rewrite IH.
    cbn [fmap option_fmap option_map]. f_equal.
    rewrite (join_cons _ b). rewrite !append_assoc. done.
Qed.

Lemma decoded_prefix_bodies bs :
  decoded_prefix (line_text <$> bs) = (fun b => b +:+ Py.nl) <$> bs
  /\ forallb is_text (line_text <$> bs) = true.
Proof.
  induction bs as [|b bs [IH1 IH2]]; [done|]. rewrite !fmap_cons. simpl.
  split; [by f_equal|done].
Qed.

Lemma join_snoc sep fs f g :
  Py.join sep ((f :: fs) ++ [g])
  = Py.join sep (f :: fs) +:+ String sep g.
Proof.
  revert f; induction fs as [|f' fs IH]; intros f; [done|].
  change (Py.join sep ((f :: f' :: fs) ++ [g]))
    with (f +:+ String sep (Py.join sep ((f' :: fs) ++ [g]))).
  rewrite IH, (join_cons _ f), append_assoc. done.
Qed.

Lemma join_bodies_solid bs :
  bs <> [] -> Forall clean_body bs ->
  starts_solid Py.is_space (Py.join Py.newline bs)
  /\ ends_solid Py.is_space (Py.join Py.newline bs).
Proof.
  intros Hne Hbs. split.
  - destruct bs as [|b [|b' bs]]; [done| |].
    + apply Forall_cons in Hbs as [(_ & _ & Hs & _) _]. done.
    + apply Forall_cons in Hbs as [(Hb & _ & Hs & _) _].
      rewrite join_cons. by apply starts_solid_app.
  - destruct (exists_last Hne) as (fs & g & ->).
    apply Forall_app in Hbs as [_ Hg].
    apply Forall_cons in Hg as [(Hg & _ & _ & He) _].
    destruct fs as [|f fs]; [done|].
    rewrite join_snoc. apply ends_solid_app; [done|].
    by destruct g.
Qed.

Lemma content_bodies (b : string) (bs : list string) :
  Forall clean_body (b :: bs) ->
  Py.split Py.newline (Py.strip (Py.join Py.newline (b :: bs) +:+ Py.nl))
  = b :: bs.
Proof.
  intros Hbs. destruct (join_bodies_solid (b :: bs)) as [Hs He]; [done|done|].
  rewrite strip_line by done. apply split_join; [done|].
  eapply Forall_impl; [exact Hbs|]. by intros ? (_ & ? & _).
Qed.

Lemma foldl_collect_line_bind lines :
  foldl Bulk.collect_line [] lines = lines ≫= Bulk.collect_line [].
Proof.
  induction lines as [|l lines IH]; [done|].
  cbn [foldl mbind list_bind]. rewrite foldl_collect_line. by rewrite IH.
Qed.

(** A clean line gives the two bulk converters the first six fields of
    the record that it gives the streaming converter. *)
Lemma collect_line_record b :
  clean_body b ->
  Bulk.collect_line [] b = take 6 <$> omap record_of [b +:+ Py.nl].
Proof.
  intros (Hb & _ & Hs & He). unfold Bulk.collect_line, record_of.
  cbn [omap list_omap]. rewrite strip_line by done.
  destruct (String.eqb_spec b "") as [?|_]; [done|].
  destruct (Nat.leb_spec 6 (length (Py.split "," b))) as [H|H]; [|done].
  simpl. by rewrite (first_six _ H).
Qed.

Lemma collect_bodies bs :
  Forall clean_body bs ->
  bs ≫= Bulk.collect_line []
  = take 6 <$> omap record_of ((fun b => b +:+ Py.nl) <$> bs).
Proof.
  induction 1 as [|b bs Hb _ IH]; [done|].
  cbn [mbind list_bind]. rewrite IH, (collect_line_record _ Hb), fmap_cons.
  change (?x :: ?l) with ([x] ++ l) at 2. by rewrite omap_app, fmap_app.
Qed.

Lemma clean_rows a :
  clean a ->
  rows_of a = take 6 <$> omap record_of (lines_seen a)
  /\ decodes a = true.
Proof.
  unfold clean, rows_of, content_of, lines_seen, decodes.
  destruct (chosen_member a) as [m|]; [|done]. simpl.
  intros (bs & -> & Hbs)%clean_lines_bodies.
  destruct (decoded_prefix_bodies bs) as [-> ->]. split; [|done].
  destruct bs as [|b bs]; [done|].
  rewrite read_decode_bodies. unfold Bulk.collect_content.
  rewrite (content_bodies _ _ Hbs), foldl_collect_line_bind.
  by apply collect_bodies.
Qed.

Lemma clean_records zs :
  Forall clean zs ->
  zs ≫= rows_of = take 6 <$> records zs
  /\ Forall (fun a => decodes a = true) zs.
Proof.
  unfold records. induction 1 as [|a zs Ha _ [IH1 IH2]]; [done|].
  destruct (clean_rows a Ha) as [Hr Hd].
  cbn [mbind list_bind]. rewrite omap_app, fmap_app, IH1, Hr.
  split; [done|by constructor].
Qed.

End CleanFiles.

Section OrderedData.







End OrderedData.

Section Results.



End Results.

Lemma tidy_clean : clean tidy.
Proof.
  unfold clean.
  assert (chosen_member tidy
          = Some (Zip.Member "BTCUSDT-1s-2017-08.csv"
                    (line_text
                       <$> ["1,o,h,l,c,v"; "2,o,h,l,c,v"; "3,o,h,l,c,v"])))
    as -> by reflexivity.
  cbn [Zip.member_lines]. apply Forall_fmap.
  repeat constructor; (eexists; split; [reflexivity|]);
    (split; [discriminate|]); repeat split; discriminate.
Qed.

(** X26.  On well-formed data files - every line a record without blanks
    at its ends, followed by its line feed - the three converters read
    the same records: every data file decodes, and the rows of
    [convert_timeframe] and the lines of the older converter are the
    first six fields of the records that the streaming converter meets,
    in the same order. *)
Theorem converters_read_same_records (zs : list Zip.archive) :
  Forall clean zs ->
  Bulk.all_rows (Bulk.collect zs) = take 6 <$> records zs
  /\ Legacy.all_lines (foldl Legacy.collect_archive (Legacy.Collected [] []) zs)
     = (fun r => Py.join "," (take 6 r)) <$> records zs
  /\ Forall (fun a => decodes a = true) zs.
Proof.
  intros Hclean. destruct (clean_records zs Hclean) as [Hr Hd].
  destruct (collect_rows zs) as (Hrows & _).
  split; [by rewrite Hrows|]. split; [|done].
  rewrite (legacy_collect zs (Legacy.Collected [] [])). simpl.
  by rewrite Hr, <- list_fmap_compose.
Qed.

Lemma converters_read_same_records_witness :
  Bulk.all_rows (Bulk.collect [tidy]) = take 6 <$> records [tidy].
Proof.
  destruct (converters_read_same_records [tidy]) as [H _]; [|exact H].
  constructor; [apply tidy_clean|constructor].
Defined.



(** ** Pauses and progress lines *)

Section Pauses.
Import Download.
Variable net : network.





End Pauses.

Section ProgressLines.
Import Zip Streaming.

Lemma process_line_stdout st d : stdout (process_line st d) = stdout st.
Proof.
  pose proof (process_line_cases st d) as H.
  destruct (record_of d); [|by rewrite H].
  destruct (decide _); by rewrite H.
Qed.

Lemma process_lines_stdout st ls :
  match process_lines st ls with
  | Completed s | Raised s => stdout s = stdout st
  end.
Proof.
  revert st; induction ls as [|[d|] ls IH]; intros st; simpl; [done| |done].
  specialize (IH (process_line st d)).
  destruct (process_lines (process_line st d) ls);
    by rewrite IH, process_line_stdout.
Qed.

Lemma read_decode_is_Some ls :
  is_Some (read_decode ls) <-> forallb is_text ls = true.
Proof.
  induction ls as [|[s|] ls IH]; simpl.
  - split; [done|by eexists].
  - rewrite <- IH, fmap_is_Some. done.
  - split; [by intros [? ?]|done].
Qed.

(** The line that an archive adds to the printed lines. *)
Lemma process_archive_stdout st i a :
  exists m,
    stdout (process_archive st i a) = stdout st ++ [m]
    /\ message_index m = i /\ message_zip m = zip_name a
    /\ (is_progress m = true <-> is_Some (content_of a)).
Proof.
  unfold process_archive, content_of, chosen_member.
  destruct (zip_body a) as [|ms].
  { eexists. split; [done|]. repeat split; [done|by intros [? ?]]. }
  destruct (csv_files ms) as [|first others].
  { eexists. split; [done|]. repeat split; [done|by intros [? ?]]. }
  destruct (open ms first) as [m|].
  2:{ eexists. split; [done|]. repeat split; [done|by intros [? ?]]. }
  pose proof (process_lines_stdout (start_file st) (member_lines m)) as Hs.
  rewrite process_lines_prefix in Hs |- *. cbn [mbind option_bind].
  pose proof (read_decode_is_Some (member_lines m)) as Hrd.
  destruct (forallb is_text (member_lines m)); simpl in *.
  - eexists. split; [by rewrite Hs|]. split; [done|]. split; [done|].
    split; [intros _; by apply Hrd|done].
  - eexists. split; [by rewrite Hs|]. split; [done|]. split; [done|].
    split; [done|by intros H%Hrd].
Qed.

Lemma process_archives_stdout zs st i :
  exists ms,
    stdout (process_archives st i zs) = stdout st ++ ms
    /\ message_index <$> ms = seq i (length zs)
    /\ message_zip <$> ms = zip_name <$> zs
    /\ Forall2 (fun m a => is_progress m = true <-> is_Some (content_of a))
               ms zs.
Proof.
  revert st i; induction zs as [|a zs IH]; intros st i.
  - exists []. simpl. by rewrite app_nil_r.
  - destruct (process_archive_stdout st i a) as (m & Hm & Hi & Hz & Hp).
    destruct (IH (process_archive st i a) (S i)) as (ms & Hms & His & Hzs & Hps).
    exists (m :: ms). cbn [process_archives length seq].
    rewrite Hms, Hm, <- app_assoc, !fmap_cons.
    split; [done|]. split; [by rewrite Hi, His|].
    split; [by rewrite Hz, Hzs|]. by constructor.
Qed.

End ProgressLines.

(** X28.  The streaming converter reports on every archive exactly once,
    in the order of the names and numbered from 1: after a conversion
    the printed lines name the archives one by one, and the line of an
    archive is a line of progress exactly when its data file was read to
    the end (else it tells of a missing data file or of an error). *)
Theorem streaming_reports_every_archive (found : list Zip.archive) :
  Zip.sorted found <> [] ->
  message_index <$> Streaming.printed (Streaming.main (Some found))
  = seq 1 (length found)
  /\ message_zip <$> Streaming.printed (Streaming.main (Some found))
     = Zip.zip_name <$> Zip.sorted found
  /\ Forall2 (fun m a => is_progress m = true <-> is_Some (content_of a))
             (Streaming.printed (Streaming.main (Some found)))
             (Zip.sorted found).
Proof.
  intros Hne. unfold Streaming.main.
  destruct (Nat.eqb_spec (length (Zip.sorted found)) 0) as [H0|_].
  { by destruct (Zip.sorted found). }
  destruct (process_archives_stdout (Zip.sorted found) Streaming.initial 1)
    as (ms & Hms & Hi & Hz & Hp).
  cbn [Streaming.printed]. rewrite Hms. cbn [Streaming.stdout Streaming.initial app].
  split; [|done]. rewrite Hi. f_equal.
  unfold Zip.sorted. by rewrite sorted_by_Permutation.
Qed.

Lemma streaming_reports_every_archive_witness :
  message_zip <$> Streaming.printed (Streaming.main (Some [september; broken; august]))
  = Zip.zip_name <$> Zip.sorted [september; broken; august].
Proof.
  destruct (streaming_reports_every_archive [september; broken; august])
    as (_ & H & _); [by vm_compute|exact H].
Defined.

